(** * A shallow embedding of the interview backend's core

    The embedded code is JavaScript (Node.js, ES modules):
    - [cryptoUtils.js]   : [encrypt], [decrypt]               (module [CryptoUtils])
    - [aiKeysManager.js] : the key / model registry           (module [AiKeysManager])
    - [modelValidator.js]: [getSafeModel], [supportsJsonMode] (module [ModelValidator])
    - [validation.js]    : request sanitisation               (module [Validation])
    - [server.js]        : prompt rendering, reply recovery, the handlers
                           of the answer analysis and of the first
                           question, and the model that each handler
                           names to the provider              (module [Server])

    Module [PromptSpec] reads a template as text parts and placeholders; the
    properties of rendering are stated on that reading.

    JavaScript strings are sequences of 16-bit code units; they are modelled
    as [list N].  Regular expressions are modelled by a small backtracking
    matcher with the semantics of the ECMAScript constructs that the source
    uses (classes, greedy quantifiers, groups, alternation). *)

From Stdlib Require Import List NArith ZArith Bool Lia String Ascii DecimalString.
From Stdlib.Strings Require Byte.
Import ListNotations.

Set Implicit Arguments.

(* ================================================================== *)
(** * JavaScript strings *)
(* ================================================================== *)

Module Js.

Open Scope N_scope.

(** A string is a list of UTF-16 code units. *)
Definition jsstring := list N.

(** An ASCII literal of the source, as code units. *)
Definition lit (s : string) : jsstring :=
  map N_of_ascii (list_ascii_of_string s).

Fixpoint eqb (a b : jsstring) : bool :=
  match a, b with
  | [], [] => true
  | x :: a', y :: b' => N.eqb x y && eqb a' b'
  | _, _ => false
  end.

(** [s.startsWith(p)] *)
Fixpoint startsWith (p s : jsstring) : bool :=
  match p, s with
  | [], _ => true
  | x :: p', y :: s' => N.eqb x y && startsWith p' s'
  | _ :: _, [] => false
  end.

(** [s.includes(p)] on strings: [p] occurs as a substring of [s]. *)
Fixpoint includes (p s : jsstring) : bool :=
  startsWith p s ||
  match s with
  | [] => false
  | _ :: s' => includes p s'
  end.

(** [arr.includes(x)] on an array of strings. *)
Definition arr_includes (x : jsstring) (arr : list jsstring) : bool :=
  existsb (eqb x) arr.

(** ECMAScript WhiteSpace and LineTerminator code units: what [\s] matches
    and what [trim] strips. *)
Definition is_space (c : N) : bool :=
  ((9 <=? c) && (c <=? 13)) || (c =? 32) || (c =? 160) || (c =? 5760) ||
  ((8192 <=? c) && (c <=? 8202)) || (c =? 8232) || (c =? 8233) ||
  (c =? 8239) || (c =? 8287) || (c =? 12288) || (c =? 65279).

Fixpoint trimStart (s : jsstring) : jsstring :=
  match s with
  | [] => []
  | c :: s' => if is_space c then trimStart s' else s
  end.

Definition trimEnd (s : jsstring) : jsstring := rev (trimStart (rev s)).

Definition trim (s : jsstring) : jsstring := trimEnd (trimStart s).

(** [toLowerCase] on the ASCII letters.  The only code units outside ASCII
    that lower-case to an ASCII letter are U+212A (to k) and U+0130 (to i
    followed by U+0307); they are mapped as the engine maps them, all other
    non-ASCII units are left alone (no comparison of the source involves
    them). *)
Definition lower (c : N) : N :=
  if (65 <=? c) && (c <=? 90) then c + 32 else c.

Definition lower_units (c : N) : jsstring :=
  if c =? 8490 then [107]
  else if c =? 304 then [105; 775]
  else [lower c].

Definition toLowerCase (s : jsstring) : jsstring := flat_map lower_units s.

Definition is_digit (c : N) : bool := (48 <=? c) && (c <=? 57).

(** [\w]: ASCII letters, digits and underscore. *)
Definition is_word (c : N) : bool :=
  ((97 <=? c) && (c <=? 122)) || ((65 <=? c) && (c <=? 90)) ||
  is_digit c || (c =? 95).

(** [parseInt] of a run of ASCII digits (radix 10). *)
Definition parseInt (s : jsstring) : N :=
  fold_left (fun acc c => 10 * acc + (c - 48)) s 0.

(** [x || d] on strings: the empty string is falsy. *)
Definition or_default (x d : jsstring) : jsstring :=
  match x with [] => d | _ => x end.

(** [s.slice(0, n)] *)
Definition slice0 (n : N) (s : jsstring) : jsstring := firstn (N.to_nat n) s.

(** The definition of the own property [k] with the value [v] on an object
    with string values (CreateDataProperty, as [JSON.parse],
    [Object.fromEntries] and an assignment to a key that is not inherited
    do), on the list of the own entries: a property that is there keeps its
    place.  (Keys that are array indices would be listed first; the keys of
    the source are names.) *)
Fixpoint set_property (k v : jsstring) (o : list (jsstring * jsstring))
  : list (jsstring * jsstring) :=
  match o with
  | [] => [(k, v)]
  | (k', v') :: o' =>
      if eqb k' k then (k', v) :: o' else (k', v') :: set_property k v o'
  end.

(** [Object.fromEntries(entries)] *)
Definition fromEntries (entries : list (jsstring * jsstring))
  : list (jsstring * jsstring) :=
  fold_left (fun o kv => set_property (fst kv) (snd kv) o) entries [].

End Js.

Import Js.

(* ================================================================== *)
(** * Regular expressions *)
(* ================================================================== *)

Module Regex.

Open Scope N_scope.

(** The fragment of ECMAScript patterns used by the source.  Quantifiers are
    greedy; a quantified atom is always a character class in the source,
    except for the one optional group of [supportsJsonMode]. *)
Inductive regex : Type :=
| Eps
| Class (p : N -> bool)
| Seq (r1 r2 : regex)
| Alt (r1 r2 : regex)
| Opt (r : regex)
| Rep (p : N -> bool) (lo : nat) (hi : option nat)
| Group (i : nat) (r : regex).

(** Captures, most recent first. *)
Definition caps := list (nat * jsstring).

Fixpoint capture (i : nat) (c : caps) : option jsstring :=
  match c with
  | [] => None
  | (j, s) :: c' => if Nat.eqb i j then Some s else capture i c'
  end.

(** A continuation receives the rest of the input and the captures. *)
Definition cont := jsstring -> caps -> option (jsstring * caps).

Definition hi_allows (hi : option nat) : bool :=
  match hi with Some O => false | _ => true end.

(** [p{lo,hi}], greedy: take one more unit when possible, give it back when
    the rest of the pattern fails. *)
Fixpoint rep (p : N -> bool) (lo : nat) (hi : option nat)
         (s : jsstring) (c : caps) (k : cont) : option (jsstring * caps) :=
  let stop := match lo with O => k s c | S _ => None end in
  match s with
  | x :: t =>
      if p x && hi_allows hi then
        match rep p (Nat.pred lo) (option_map Nat.pred hi) t c k with
        | Some res => Some res
        | None => stop
        end
      else stop
  | [] => stop
  end.

(** Backtracking matcher, anchored at the start of [s]. *)
Fixpoint run (r : regex) (s : jsstring) (c : caps) (k : cont)
  : option (jsstring * caps) :=
  match r with
  | Eps => k s c
  | Class p =>
      match s with
      | x :: t => if p x then k t c else None
      | [] => None
      end
  | Seq r1 r2 => run r1 s c (fun s' c' => run r2 s' c' k)
  | Alt r1 r2 =>
      match run r1 s c k with
      | Some res => Some res
      | None => run r2 s c k
      end
  | Opt r1 =>
      match run r1 s c k with
      | Some res => Some res
      | None => k s c
      end
  | Rep p lo hi => rep p lo hi s c k
  | Group i r1 =>
      run r1 s c
        (fun s' c' => k s' ((i, firstn (List.length s - List.length s') s) :: c'))
  end.

(** A match anchored at the start of [s]: the number of units matched and
    the captures. *)
Definition match_here (r : regex) (s : jsstring) : option (nat * caps) :=
  match run r s [] (fun s' c' => Some (s', c')) with
  | Some (s', c') => Some ((List.length s - List.length s')%nat, c')
  | None => None
  end.

(** [s.match(r)] without the [g] flag: the captures of the leftmost match. *)
Fixpoint exec (r : regex) (s : jsstring) : option caps :=
  match match_here r s with
  | Some (_, c) => Some c
  | None =>
      match s with
      | [] => None
      | _ :: t => exec r t
      end
  end.

(** [m && m[i]]: the capture when the match exists and the group is a
    non-empty string. *)
Definition exec_group (r : regex) (i : nat) (s : jsstring) : option jsstring :=
  match exec r s with
  | Some c =>
      match capture i c with
      | Some (x :: g) => Some (x :: g)
      | _ => None
      end
  | None => None
  end.

(** Pattern builders. *)
Definition chr (x : N) : regex := Class (N.eqb x).

(** A letter under the [i] flag: units are compared after canonicalisation,
    which never identifies a non-ASCII unit with an ASCII one. *)
Definition chr_i (x : N) : regex := Class (fun y => N.eqb (lower x) (lower y)).

Fixpoint str (s : jsstring) : regex :=
  match s with
  | [] => Eps
  | [x] => chr x
  | x :: s' => Seq (chr x) (str s')
  end.

Fixpoint str_i (s : jsstring) : regex :=
  match s with
  | [] => Eps
  | [x] => chr_i x
  | x :: s' => Seq (chr_i x) (str_i s')
  end.

Definition star (p : N -> bool) : regex := Rep p 0 None.
Definition plus (p : N -> bool) : regex := Rep p 1 None.

(** [.] : any unit but a line terminator. *)
Definition dot (c : N) : bool :=
  negb ((c =? 10) || (c =? 13) || (c =? 8232) || (c =? 8233)).

Fixpoint seqs (rs : list regex) : regex :=
  match rs with
  | [] => Eps
  | [r] => r
  | r :: rs' => Seq r (seqs rs')
  end.

End Regex.

(* ================================================================== *)
(** * modelValidator.js *)
(* ================================================================== *)

Module ModelValidator.

Import Regex.
Open Scope N_scope.

(** What [console.warn] receives. *)
Inductive warning : Type :=
| MayNotBeAvailableYet (modelId : jsstring)
| NotAValidOpenAIName (modelId : jsstring).

Definition confirmedAvailableModels : list jsstring :=
  [ lit "gpt-4o-mini"; lit "gpt-4o"; lit "gpt-4-turbo"; lit "gpt-4";
    lit "gpt-3.5-turbo" ].

Definition fallbackModel : jsstring := lit "gpt-4o-mini".

(** [getSafeModel(modelId)] with the warning it logs, if any. *)
Definition getSafeModel_log (modelId : jsstring) : jsstring * option warning :=
  if arr_includes modelId confirmedAvailableModels then (modelId, None)
  else
    match modelId with
    | _ :: _ =>
        if startsWith (lit "gpt-") modelId || startsWith (lit "o") modelId
        then (lit "gpt-4o-mini", Some (MayNotBeAvailableYet modelId))
        else (lit "gpt-4o-mini", Some (NotAValidOpenAIName modelId))
    | [] => (lit "gpt-4o-mini", Some (NotAValidOpenAIName modelId))
    end.

Definition getSafeModel (modelId : jsstring) : jsstring :=
  fst (getSafeModel_log modelId).

(** [/gpt-4-(\d+)/] *)
Definition re_gpt4_version : regex :=
  Seq (str (lit "gpt-4-")) (Group 1 (plus is_digit)).

(** [/gpt-3.5-turbo(?:-(\d+))?/] (the dot is unescaped in the source) *)
Definition re_gpt35_version : regex :=
  seqs [ str (lit "gpt-3"); Class dot; str (lit "5-turbo");
         Opt (Seq (chr 45) (Group 1 (plus is_digit))) ].

(** The body of [supportsJsonMode] after normalisation. *)
Definition supportsJsonMode_normalized (normalizedId : jsstring) : bool :=
  if eqb normalizedId (lit "gpt-4o") || eqb normalizedId (lit "gpt-4o-mini")
  then true
  else if eqb normalizedId (lit "gpt-4-turbo")
          || eqb normalizedId (lit "gpt-4-turbo-preview")
  then true
  else if startsWith (lit "gpt-4-") normalizedId then
    match exec re_gpt4_version normalizedId with
    | Some c =>
        match capture 1 c with
        | Some v => 1106 <=? parseInt v
        | None => false
        end
    | None => false
    end
  else if eqb normalizedId (lit "gpt-4") then false
  else if startsWith (lit "gpt-3.5-turbo") normalizedId then
    match exec_group re_gpt35_version 1 normalizedId with
    | Some v => 1106 <=? parseInt v
    | None =>
        includes (lit "1106") normalizedId
        || includes (lit "0125") normalizedId
        || includes (lit "16") normalizedId
    end
  else if eqb normalizedId (lit "gpt-5") || eqb normalizedId (lit "gpt-5.1")
          || eqb normalizedId (lit "gpt-5-mini")
          || startsWith (lit "gpt-5") normalizedId
  then true
  else false.

Definition normalize (modelId : jsstring) : jsstring :=
  trim (toLowerCase modelId).

Definition supportsJsonMode (modelId : jsstring) : bool :=
  match modelId with
  | [] => false
  | _ => supportsJsonMode_normalized (normalize modelId)
  end.

(** The names that [supportsJsonMode] accepts by name alone. *)
Definition explicitly_listed : list jsstring :=
  [ lit "gpt-4o"; lit "gpt-4o-mini"; lit "gpt-4-turbo"; lit "gpt-4-turbo-preview" ].

(** [/^r$/.test(s)]: a match of [r] that starts at the first unit and ends
    at the last. *)
Definition test_anchored (r : regex) (s : jsstring) : bool :=
  match run r s [] (fun s' c' => match s' with
                                 | [] => Some (s', c')
                                 | _ :: _ => None
                                 end) with
  | Some _ => true
  | None => false
  end.

(** [[0-9o.-]] and [[a-z]] under the [i] flag *)
Definition version_unit (c : N) : bool :=
  is_digit c || (lower c =? 111) || (c =? 46) || (c =? 45).
Definition letter_i (c : N) : bool := (97 <=? lower c) && (lower c <=? 122).

(** [/^(gpt-[0-9o.-]+|gpt-[0-9]o-mini|o[0-9]-[a-z]+)$/i] *)
Definition openAIPattern : regex :=
  Group 1
    (Alt (Seq (str_i (lit "gpt-")) (plus version_unit))
         (Alt (seqs [ str_i (lit "gpt-"); Class is_digit; str_i (lit "o-mini") ])
              (seqs [ chr_i 111; Class is_digit; chr 45; plus letter_i ]))).

Definition isValidOpenAIModel (modelId : jsstring) : bool :=
  test_anchored openAIPattern modelId.

End ModelValidator.

(* ================================================================== *)
(** * String.prototype.replace with a global pattern *)
(* ================================================================== *)

Module Replace.

Import Regex.
Open Scope N_scope.

(** GetSubstitution for a pattern without capture groups: in the
    replacement text [$$] is a dollar sign, [$&] the matched text, [$`] the
    text before the match and [$'] the text after it; any other use of the
    dollar sign is literal. *)
Fixpoint getSubstitution (matched before after replacement : jsstring)
  : jsstring :=
  match replacement with
  | [] => []
  | c :: r =>
      if c =? 36 then
        match r with
        | [] => [c]
        | d :: r' =>
            if d =? 36 then 36 :: getSubstitution matched before after r'
            else if d =? 38 then
              matched ++ getSubstitution matched before after r'
            else if d =? 96 then
              before ++ getSubstitution matched before after r'
            else if d =? 39 then
              after ++ getSubstitution matched before after r'
            else c :: getSubstitution matched before after r
        end
      else c :: getSubstitution matched before after r
  end.

(** The scan of [s.replace(/r/g, replacement)]: [before] is the text already
    passed, [skip] the number of units of the current match still to pass.
    No pattern of the source matches the empty string, so an empty match is
    not a match here. *)
Fixpoint replace_scan (r : regex) (replacement before : jsstring)
         (skip : nat) (s : jsstring) : jsstring :=
  match s with
  | [] => []
  | c :: t =>
      match skip with
      | S n => replace_scan r replacement (before ++ [c]) n t
      | O =>
          match match_here r s with
          | Some (S len, _) =>
              getSubstitution (firstn (S len) s) before (skipn (S len) s)
                              replacement
              ++ replace_scan r replacement (before ++ [c]) len t
          | _ => c :: replace_scan r replacement (before ++ [c]) 0 t
          end
      end
  end.

Definition replace_g (r : regex) (replacement s : jsstring) : jsstring :=
  replace_scan r replacement [] 0 s.

End Replace.

(* ================================================================== *)
(** * Outcomes of fallible code *)
(* ================================================================== *)

(** A JavaScript call either returns a value or throws an [Error] whose
    [message] is kept. *)
Inductive outcome (A : Type) : Type :=
| Returned (a : A)
| Thrown (message : jsstring).

Arguments Returned {A} a.
Arguments Thrown {A} message.

(* ================================================================== *)
(** * aiKeysManager.js *)
(* ================================================================== *)

Module AiKeysManager.

Open Scope N_scope.

Record Model : Type := mkModel {
  id : jsstring;
  name : jsstring;
  provider : jsstring
}.

Definition model (i n p : string) : Model := mkModel (lit i) (lit n) (lit p).

(** The array literal bound to [DEFAULT_MODELS] when the module loads. *)
Definition DEFAULT_MODELS_literal : list Model :=
  [ model "gpt-5" "GPT-5" "openai";
    model "gpt-5.1" "GPT-5.1" "openai";
    model "gpt-5-mini" "GPT-5 Mini" "openai";
    model "gpt-4o-mini" "GPT-4o Mini" "openai";
    model "gpt-4o" "GPT-4o" "openai";
    model "gpt-4-turbo" "GPT-4 Turbo" "openai";
    model "gpt-3.5-turbo" "GPT-3.5 Turbo" "openai";
    model "claude-3-5-sonnet-20241022" "Claude 3.5 Sonnet" "anthropic";
    model "claude-3-opus-20240229" "Claude 3 Opus" "anthropic";
    model "claude-3-sonnet-20240229" "Claude 3 Sonnet" "anthropic";
    model "claude-3-haiku-20240307" "Claude 3 Haiku" "anthropic";
    model "gemini-2.0-flash-exp" "Gemini 2.0 Flash (Experimental)" "google";
    model "gemini-1.5-pro" "Gemini 1.5 Pro" "google";
    model "gemini-1.5-flash" "Gemini 1.5 Flash" "google";
    model "gemini-pro" "Gemini Pro" "google";
    model "grok-beta" "Grok Beta" "xai" ].

(** [Object.keys(PROVIDER_INFO)] *)
Definition PROVIDER_INFO_keys : list jsstring :=
  [ lit "openai"; lit "anthropic"; lit "google"; lit "xai" ].

(** The record of [ai-keys.json]; every field may be missing.  [keys] maps a
    provider to its stored ciphertext string. *)
Record persisted : Type := mkPersisted {
  p_keys : option (list (jsstring * jsstring));
  p_models : option (list Model);
  p_activeModel : option jsstring
}.

Inductive file : Type :=
| Absent                       (* existsSync is false *)
| Unreadable                   (* readFileSync or JSON.parse throws *)
| Stored (r : persisted).

(** The state the module works on: the array bound to [DEFAULT_MODELS]
    (an array is mutable, and [loadKeysDB] and [addModel] hand out this very
    array), the file, and whether [writeFileSync] succeeds. *)
Record store : Type := mkStore {
  DEFAULT_MODELS : list Model;
  disk : file;
  writable : bool
}.

Definition fresh : store := mkStore DEFAULT_MODELS_literal Absent true.

(** The [models] property of a loaded record is the [DEFAULT_MODELS] array
    itself or an array of its own. *)
Inductive models_ref : Type :=
| Shared
| Own (l : list Model).

Record db : Type := mkDb {
  keys : option (list (jsstring * jsstring));
  models : option models_ref;
  activeModel : option jsstring
}.

Definition deref (st : store) (r : models_ref) : list Model :=
  match r with
  | Shared => DEFAULT_MODELS st
  | Own l => l
  end.

Definition loadKeysDB (st : store) : db :=
  match disk st with
  | Stored r => mkDb (p_keys r) (option_map Own (p_models r)) (p_activeModel r)
  | _ => mkDb (Some []) (Some Shared) (Some (lit "gpt-5-mini"))
  end.

Definition saveKeysDB (st : store) (d : db) : bool * store :=
  if writable st then
    (true,
     mkStore (DEFAULT_MODELS st)
             (Stored (mkPersisted (keys d) (option_map (deref st) (models d))
                                  (activeModel d)))
             true)
  else (false, st).

(** [m => m.id === modelId] *)
Definition has_id (modelId : jsstring) (m : Model) : bool := eqb (id m) modelId.

(** The own property [k] of the [keys] object, which [JSON.parse] or the
    literal [{}] has made: an ordinary object, given by its own entries. *)
Fixpoint lookup (k : jsstring) (o : list (jsstring * jsstring)) : option jsstring :=
  match o with
  | [] => None
  | (k', v) :: o' => if eqb k' k then Some v else lookup k o'
  end.

(** The names that an ordinary object inherits from [Object.prototype].  The
    value of [__proto__] is the prototype itself and the value of every
    other name is a function: none is falsy and none is a string. *)
Definition Object_prototype_names : list jsstring :=
  [ lit "constructor"; lit "__defineGetter__"; lit "__defineSetter__";
    lit "hasOwnProperty"; lit "__lookupGetter__"; lit "__lookupSetter__";
    lit "isPrototypeOf"; lit "propertyIsEnumerable"; lit "toString";
    lit "valueOf"; lit "__proto__"; lit "toLocaleString" ].

(** What [keys[k]] evaluates to. *)
Inductive property : Type :=
| NoProperty                      (* [undefined] *)
| OwnProperty (value : jsstring)
| InheritedProperty.

(** [keys[k]]: the own property, or else the one of [Object.prototype]. *)
Definition get_property (k : jsstring) (o : list (jsstring * jsstring)) : property :=
  match lookup k o with
  | Some v => OwnProperty v
  | None =>
      if arr_includes k Object_prototype_names then InheritedProperty
      else NoProperty
  end.

(** [keys[k] = v] for a string [v]: an own property is overwritten; without
    one, the name [__proto__] reaches the setter of [Object.prototype], which
    ignores a string, and every other name defines an own property. *)
Definition assign (k v : jsstring) (o : list (jsstring * jsstring))
  : list (jsstring * jsstring) :=
  match lookup k o with
  | Some _ => set_property k v o
  | None => if eqb k (lit "__proto__") then o else set_property k v o
  end.

(** [!!keys[provider]] *)
Definition present (k : jsstring) (o : list (jsstring * jsstring)) : bool :=
  match get_property k o with
  | OwnProperty (_ :: _) => true
  | OwnProperty [] => false
  | InheritedProperty => true
  | NoProperty => false
  end.

Record keysInfo : Type := mkKeysInfo {
  ki_models : list Model;
  ki_activeModel : jsstring;
  ki_hasKeys : bool;
  ki_providerKeys : list (jsstring * bool)
}.

Definition getAllKeys (st : store) : keysInfo :=
  let d := loadKeysDB st in
  let keys := match keys d with Some k => k | None => [] end in
  let providerKeys := map (fun p => (p, present p keys)) PROVIDER_INFO_keys in
  let dbModels := match models d with Some r => deref st r | None => [] end in
  let defaultModelIds := map id (DEFAULT_MODELS st) in
  let customModels :=
    filter (fun m => negb (arr_includes (id m) defaultModelIds)) dbModels in
  let mergedModels := DEFAULT_MODELS st ++ customModels in
  mkKeysInfo mergedModels
             (match activeModel d with
              | Some (c :: a) => c :: a
              | _ => lit "gpt-5-mini"
              end)
             (Nat.ltb 0 (List.length keys))
             providerKeys.

(** [getApiKey(provider)].  [decryptFromStorage] is the import from
    cryptoUtils.js, on strings; when it throws, the error is logged and the
    result is [null].  On an inherited value, which is a function or the
    prototype object, it throws, since [JSON.parse] of such a value throws. *)
Definition getApiKey (decryptFromStorage : jsstring -> outcome jsstring)
    (st : store) (provider : jsstring) : option jsstring :=
  match keys (loadKeysDB st) with
  | Some ks =>
      match get_property provider ks with
      | OwnProperty (c :: encryptedKey) =>
          match decryptFromStorage (c :: encryptedKey) with
          | Returned apiKey => Some apiKey
          | Thrown _ => None
          end
      | OwnProperty [] => None
      | InheritedProperty => None
      | NoProperty => None
      end
  | None => None
  end.

(** [saveApiKey(provider, apiKey)]; [encryptForStorage] is the import from
    cryptoUtils.js. *)
Definition saveApiKey (encryptForStorage : jsstring -> outcome jsstring)
    (st : store) (provider apiKey : jsstring) : outcome unit * store :=
  match apiKey, provider with
  | _ :: _, _ :: _ =>
      let d := loadKeysDB st in
      let ks := match keys d with Some ks => ks | None => [] end in
      match encryptForStorage apiKey with
      | Returned encrypted =>
          let (ok, st') :=
            saveKeysDB st (mkDb (Some (assign provider encrypted ks))
                                (models d) (activeModel d)) in
          if ok then (Returned tt, st')
          else (Thrown (lit "Failed to save keys database"), st')
      | Thrown message => (Thrown message, st)
      end
  | _, _ => (Thrown (lit "Provider and API key are required"), st)
  end.

Definition getActiveModel (st : store) : jsstring :=
  match activeModel (loadKeysDB st) with
  | Some (c :: a) => c :: a
  | _ => lit "gpt-5-mini"
  end.

Definition setActiveModel (st : store) (modelId : jsstring)
  : outcome bool * store :=
  let d := loadKeysDB st in
  let models := match models d with Some r => deref st r | None => DEFAULT_MODELS st end in
  let modelExists := existsb (has_id modelId) models in
  if negb modelExists then (Thrown (lit "Model not found"), st)
  else
    let (ok, st') := saveKeysDB st (mkDb (keys d) (AiKeysManager.models d) (Some modelId)) in
    (Returned ok, st').

Definition addModel (st : store) (m : Model) : outcome bool * store :=
  match id m, name m, provider m with
  | _ :: _, _ :: _, _ :: _ =>
      let d := loadKeysDB st in
      let r := match models d with Some r => r | None => Shared end in
      if existsb (has_id (id m)) (deref st r)
      then (Thrown (lit "Model already exists"), st)
      else
        (* [db.models.push(model)] changes the array that [r] refers to *)
        let (st1, r1) :=
          match r with
          | Shared =>
              (mkStore (DEFAULT_MODELS st ++ [m]) (disk st) (writable st), Shared)
          | Own l => (st, Own (l ++ [m]))
          end in
        let (ok, st2) := saveKeysDB st1 (mkDb (keys d) (Some r1) (activeModel d)) in
        (Returned ok, st2)
  | _, _, _ => (Thrown (lit "Model must have id, name, and provider"), st)
  end.

Definition deleteModel (st : store) (modelId : jsstring) : outcome bool * store :=
  let d := loadKeysDB st in
  if existsb (has_id modelId) (DEFAULT_MODELS st)
  then (Thrown (lit "Cannot delete default model"), st)
  else
    match models d with
    | Some r =>
        let kept := filter (fun m => negb (has_id modelId m)) (deref st r) in
        let active :=
          match activeModel d with
          | Some a => if eqb a modelId then Some (lit "gpt-5-mini") else Some a
          | None => None
          end in
        let (ok, st') := saveKeysDB st (mkDb (keys d) (Some (Own kept)) active) in
        (Returned ok, st')
    | None => (Returned true, st)
    end.

(** The custom catalog of the file: its [models], if it has any. *)
Definition persisted_models (st : store) : list Model :=
  match disk st with
  | Stored r => match p_models r with Some l => l | None => [] end
  | _ => []
  end.

(** The states of a running server: the module is loaded with the literal
    array and any file; then the operations run and the file may change. *)
Inductive reachable : store -> Prop :=
| started (d : file) (w : bool) : reachable (mkStore DEFAULT_MODELS_literal d w)
| after_setActiveModel st i : reachable st -> reachable (snd (setActiveModel st i))
| after_addModel st m : reachable st -> reachable (snd (addModel st m))
| after_deleteModel st i : reachable st -> reachable (snd (deleteModel st i))
| after_disk st d w : reachable st -> reachable (mkStore (DEFAULT_MODELS st) d w).

(** A file written when the built-in catalog was smaller: its [models] has
    one built-in and one custom model. *)
Definition stale : store :=
  mkStore DEFAULT_MODELS_literal
          (Stored (mkPersisted (Some [])
                               (Some [ model "gpt-4o-mini" "GPT-4o Mini" "openai";
                                       model "my-model" "Mine" "openai" ])
                               (Some (lit "my-model"))))
          true.

(** [delete keys[provider]] *)
Definition delete_property (k : jsstring) (o : list (jsstring * jsstring))
  : list (jsstring * jsstring) :=
  filter (fun kv => negb (eqb (fst kv) k)) o.

(** [deleteApiKey(provider)]: nothing is written when [keys[provider]] is
    falsy; [delete] removes an own property only. *)
Definition deleteApiKey (st : store) (provider : jsstring) : bool * store :=
  let d := loadKeysDB st in
  match keys d with
  | Some ks =>
      if present provider ks
      then saveKeysDB st (mkDb (Some (delete_property provider ks))
                               (models d) (activeModel d))
      else (true, st)
  | None => (true, st)
  end.

(** [db.keys || {}] of the record that is loaded. *)
Definition stored_keys (st : store) : list (jsstring * jsstring) :=
  match keys (loadKeysDB st) with Some ks => ks | None => [] end.

(** The model that [getActiveModel] returns is one of the models that
    [getAllKeys] lists, and the id it falls back to is a built-in. *)
Definition active_is_listed (st : store) : bool :=
  existsb (has_id (getActiveModel st)) (ki_models (getAllKeys st))
  && existsb (has_id (lit "gpt-5-mini")) (DEFAULT_MODELS st).

End AiKeysManager.

(* ================================================================== *)
(** * validation.js *)
(* ================================================================== *)

Module Validation.

Import Regex Replace.
Open Scope N_scope.

(** [/[<>]/g], [/javascript:/gi] and [/on\w+=/gi] *)
Definition re_angle : regex := Class (fun c => (c =? 60) || (c =? 62)).
Definition re_javascript : regex := str_i (lit "javascript:").
Definition re_handler : regex := seqs [ str_i (lit "on"); plus is_word; chr 61 ].

(** [sanitizeString(input)] on a string; what is not a string is sanitised
    to the empty string, see [sanitize]. *)
Definition sanitizeString (input : jsstring) : jsstring :=
  slice0 10000
    (trim (replace_g re_handler []
             (replace_g re_javascript [] (replace_g re_angle [] input)))).

(** What [JSON.parse] can return.  A number is kept as an integer: the code
    only asks whether it is zero. *)
#[local] Unset Elimination Schemes.
Inductive json : Type :=
| JNull
| JBool (b : bool)
| JNum (z : Z)
| JStr (s : jsstring)
| JArr (l : list json)
| JObj (fields : list (jsstring * json)).
#[local] Set Elimination Schemes.

(** [!!v]; [None] is [undefined]. *)
Definition truthy (v : option json) : bool :=
  match v with
  | None | Some JNull | Some (JBool false) | Some (JNum 0%Z) | Some (JStr []) => false
  | Some _ => true
  end.

(** [sanitizeString(value || '')] on a property of any type: the first test
    of [sanitizeString] turns what is not a string into the empty string. *)
Definition sanitize (value : option json) : jsstring :=
  match value with
  | Some (JStr s) => sanitizeString s
  | _ => []
  end.

(** The body of [POST /api/analyze-answer].  [None] is an absent property.
    The answer and the objective, whose type the validation tests, are any
    JSON value; the other properties are at the JSON types the front end
    sends: strings, integer counts, an array of strings and an object of
    strings. *)
Record analyzeAnswerBody : Type := mkBody {
  b_answer : option json;
  b_objective : option json;
  b_desiredInsights : option jsstring;
  b_keyQuestions : option jsstring;
  b_hypothesis : option jsstring;
  b_currentTopic : option jsstring;
  b_customPrompt : option jsstring;
  b_questionCount : option Z;
  b_currentQuestionCount : option Z;
  b_model : option jsstring;
  b_previousQuestions : option (list jsstring);
  b_demographicData : option (list (jsstring * jsstring))
}.

Record sanitized : Type := mkSanitized {
  answer : jsstring;
  objective : jsstring;
  desiredInsights : jsstring;
  keyQuestions : jsstring;
  hypothesis : jsstring;
  currentTopic : jsstring;
  customPrompt : jsstring;
  questionCount : option Z;          (* [None] is [undefined] *)
  currentQuestionCount : option Z;
  model : jsstring;
  previousQuestions : list jsstring;
  demographicData : list (jsstring * jsstring)
}.

(** [value || ''] on an optional string *)
Definition or_empty (v : option jsstring) : jsstring :=
  match v with Some s => s | None => [] end.

(** [validateRequired(value, fieldName)]: the error, if any.  The test is
    [!value || (typeof value === 'string' && !value.trim())]. *)
Definition validateRequired (value : option json) (fieldName : jsstring)
  : option jsstring :=
  if negb (truthy value) then Some (fieldName ++ lit " is required")
  else
    match value with
    | Some (JStr s) =>
        match trim s with
        | [] => Some (fieldName ++ lit " is required")
        | _ => None
        end
    | _ => None
    end.

(** Decimal digits of a number, for the messages. *)
Definition digits (n : N) : jsstring :=
  lit (NilEmpty.string_of_uint (N.to_uint n)).

(** [validateLength(value, min, max, fieldName)]; [min] and [max] are
    non-zero at every call of the source. *)
Definition validateLength (value : json) (min max : N) (fieldName : jsstring)
  : option jsstring :=
  match value with
  | JStr s =>
      let length := N.of_nat (List.length (trim s)) in
      if negb (min =? 0) && (length <? min)
      then Some (fieldName ++ lit " must be at least " ++ digits min
                 ++ lit " characters")
      else if negb (max =? 0) && (max <? length)
      then Some (fieldName ++ lit " must not exceed " ++ digits max
                 ++ lit " characters")
      else None
  | _ => Some (fieldName ++ lit " must be a string")
  end.

Definition errs (e : option jsstring) : list jsstring :=
  match e with Some m => [m] | None => [] end.

(** [body.count ? Number(body.count) : undefined] *)
Definition count_or_undefined (c : option Z) : option Z :=
  match c with
  | Some 0%Z => None
  | Some z => Some z
  | None => None
  end.

Inductive validation : Type :=
| Invalid (errors : list jsstring)
| Valid (s : sanitized).

Definition validateAnalyzeAnswerRequest (body : analyzeAnswerBody) : validation :=
  let errors :=
    errs (validateRequired (b_answer body) (lit "Answer"))
    ++ match b_answer body with
       | Some answer =>
           if truthy (Some answer)
           then errs (validateLength answer 1 5000 (lit "Answer"))
           else []
       | None => []
       end
    ++ errs (validateRequired (b_objective body) (lit "Objective")) in
  match errors with
  | _ :: _ => Invalid errors
  | [] =>
      Valid (mkSanitized
        (sanitize (b_answer body))
        (sanitize (b_objective body))
        (sanitizeString (or_empty (b_desiredInsights body)))
        (sanitizeString (or_empty (b_keyQuestions body)))
        (sanitizeString (or_empty (b_hypothesis body)))
        (sanitizeString (or_empty (b_currentTopic body)))
        (sanitizeString (or_empty (b_customPrompt body)))
        (count_or_undefined (b_questionCount body))
        (count_or_undefined (b_currentQuestionCount body))
        (sanitizeString (or_empty (b_model body)))
        (match b_previousQuestions body with
         | Some qs => map sanitizeString qs
         | None => []
         end)
        (match b_demographicData body with
         | Some d =>
             fromEntries
               (map (fun kv => (sanitizeString (fst kv), sanitizeString (snd kv))) d)
         | None => []
         end))
  end.

(** A string that holds no angle bracket and has at most 10000 units. *)
Definition clean (s : jsstring) : Prop :=
  Forall (fun c => c <> 60 /\ c <> 62) s
  /\ N.of_nat (List.length s) <= 10000.







End Validation.

(* ================================================================== *)
(** * server.js *)
(* ================================================================== *)

Module Server.

Import Regex Replace Validation.
Open Scope N_scope.

(** ** Values of the engine *)

(** The outcome of [JSON.parse] on a reply; the parser is the engine's. *)
Inductive parse_outcome : Type :=
| SyntaxError
| Parsed (v : json).

Fixpoint field (k : jsstring) (fields : list (jsstring * json)) : option json :=
  match fields with
  | [] => None
  | (k', v) :: rest => if eqb k' k then Some v else field k rest
  end.

(** [v.k] on a value that is not [null]: [undefined] is [None]. *)
Definition get (k : jsstring) (v : json) : option json :=
  match v with
  | JObj fields => field k fields
  | _ => None
  end.

(** [{ ...o, k: v }]: a later definition of a key replaces the value and
    keeps the place. *)
Fixpoint set_field (k : jsstring) (v : json) (fields : list (jsstring * json))
  : list (jsstring * json) :=
  match fields with
  | [] => [(k, v)]
  | (k', v') :: rest =>
      if eqb k' k then (k', v) :: rest else (k', v') :: set_field k v rest
  end.

Definition indexed (l : list json) : list (jsstring * json) :=
  combine (map (fun i => digits (N.of_nat i)) (seq 0 (List.length l))) l.

(** The own enumerable properties that [{...v}] copies. *)
Definition own_properties (v : json) : list (jsstring * json) :=
  match v with
  | JObj fields => fields
  | JArr l => indexed l
  | JStr s => indexed (map (fun c => JStr [c]) s)
  | _ => []
  end.

Definition spread (into : list (jsstring * json)) (v : json) : list (jsstring * json) :=
  fold_left (fun acc kv => set_field (fst kv) (snd kv) acc) (own_properties v) into.

(** ** Literals of the source *)

Definition dq : N := 34.

(* 'ไม่ระบุ' *)
Definition NOT_SPECIFIED : jsstring :=
  [0xe44; 0xe21; 0xe48; 0xe23; 0xe30; 0xe1a; 0xe38].
(* 'ไม่มี' *)
Definition NONE_YET : jsstring := [0xe44; 0xe21; 0xe48; 0xe21; 0xe35].
(* 'ไม่มีข้อมูล' *)
Definition NO_DATA : jsstring :=
  [0xe44; 0xe21; 0xe48; 0xe21; 0xe35; 0xe02; 0xe49; 0xe2d; 0xe21; 0xe39; 0xe25].
(* 'ถึงจำนวนคำถามที่กำหนดแล้ว' *)
Definition LIMIT_REACHED : jsstring :=
  [0xe16; 0xe36; 0xe07; 0xe08; 0xe33; 0xe19; 0xe27; 0xe19; 0xe04; 0xe33; 0xe16;
   0xe32; 0xe21; 0xe17; 0xe35; 0xe48; 0xe01; 0xe33; 0xe2b; 0xe19; 0xe14; 0xe41;
   0xe25; 0xe49; 0xe27].
(* 'ไม่สามารถวิเคราะห์คำตอบได้' *)
Definition CANNOT_ANALYZE : jsstring :=
  [0xe44; 0xe21; 0xe48; 0xe2a; 0xe32; 0xe21; 0xe32; 0xe23; 0xe16; 0xe27; 0xe34;
   0xe40; 0xe04; 0xe23; 0xe32; 0xe30; 0xe2b; 0xe4c; 0xe04; 0xe33; 0xe15; 0xe2d;
   0xe1a; 0xe44; 0xe14; 0xe49].
(* 'คำถาม' *)
Definition KHAMTHAM : jsstring := [0xe04; 0xe33; 0xe16; 0xe32; 0xe21].

(** ** Prompt templates *)

Definition placeholder (name : jsstring) : jsstring :=
  lit "{" ++ name ++ lit "}".

(** The loop over [Object.keys(replacements)]: one global replacement per
    key, in the order of the keys.  The pattern built from a key escapes its
    braces; the keys of the source are braces around letters, so the pattern
    is the key read literally. *)
Definition render (replacements : list (jsstring * jsstring)) (prompt : jsstring)
  : jsstring :=
  fold_left (fun p kv => replace_g (str (fst kv)) (snd kv) p) replacements prompt.

(** [x || 'ไม่ระบุ'] on an optional string of the request *)
Definition or_not_specified (x : option jsstring) : jsstring :=
  or_default (or_empty x) NOT_SPECIFIED.

(** [Object.entries(d).map(([key, value]) => `${key}: ${value}`).join('\n')] *)
Fixpoint join (sep : jsstring) (l : list jsstring) : jsstring :=
  match l with
  | [] => []
  | [x] => x
  | x :: l' => x ++ sep ++ join sep l'
  end.

Definition demographicText (d : list (jsstring * jsstring)) : jsstring :=
  match d with
  | [] => NO_DATA
  | _ => join [10] (map (fun kv => fst kv ++ lit ": " ++ snd kv) d)
  end.

(** The six [prompt.replace] of [/api/generate-demographic-questions]. *)
Definition demographicQuestionsPrompt (prompt : jsstring)
    (objective topic targetAudience desiredInsights keyQuestions hypothesis
     : option jsstring) : jsstring :=
  render [ (placeholder (lit "objective"), or_not_specified objective);
           (placeholder (lit "topic"), or_not_specified topic);
           (placeholder (lit "targetAudience"), or_not_specified targetAudience);
           (placeholder (lit "desiredInsights"), or_not_specified desiredInsights);
           (placeholder (lit "keyQuestions"), or_not_specified keyQuestions);
           (placeholder (lit "hypothesis"), or_not_specified hypothesis) ]
         prompt.

(** The [replacements] object of [/api/generate-first-question]. *)
Definition firstQuestionPrompt (prompt : jsstring)
    (objective : option jsstring) (demographicData : list (jsstring * jsstring))
    (desiredInsights keyQuestions hypothesis : option jsstring) : jsstring :=
  render [ (lit "{objective}", or_not_specified objective);
           (lit "{demographicData}", demographicText demographicData);
           (lit "{previousQuestions}", NONE_YET);
           (lit "{desiredInsights}", or_not_specified desiredInsights);
           (lit "{keyQuestions}", or_not_specified keyQuestions);
           (lit "{hypothesis}", or_not_specified hypothesis) ]
         prompt.

(** The eight [prompt.replace] of [/api/analyze-answer]. *)
Definition analyzeAnswerPrompt (prompt : jsstring) (v : sanitized) : jsstring :=
  render [ (placeholder (lit "objective"), or_default (objective v) NOT_SPECIFIED);
           (placeholder (lit "desiredInsights"), or_default (desiredInsights v) NOT_SPECIFIED);
           (placeholder (lit "keyQuestions"), or_default (keyQuestions v) NOT_SPECIFIED);
           (placeholder (lit "hypothesis"), or_default (hypothesis v) NOT_SPECIFIED);
           (placeholder (lit "demographicData"), demographicText (demographicData v));
           (placeholder (lit "currentTopic"), or_default (currentTopic v) NOT_SPECIFIED);
           (placeholder (lit "previousQuestions"),
            or_default (join (lit ", ") (previousQuestions v)) NONE_YET);
           (placeholder (lit "answer"), answer v) ]
         prompt.

(** ** Recovery of the first question from a reply *)

Definition not_dq (c : N) : bool := negb (c =? dq).
Definition label_sep (c : N) : bool := (c =? dq) || is_space c || (c =? 58).
Definition loose_text (c : N) : bool :=
  negb ((c =? dq) || (c =? 125) || (c =? 10)).
Definition loose_text' (c : N) : bool :=
  negb ((c =? 10) || (c =? dq) || (c =? 125) || (c =? 123)).

Definition quoted_label : jsstring := [dq] ++ lit "question" ++ [dq].

(** The patterns below are quoted with QUOTE for the double quote
    character.

    [/QUOTEquestionQUOTE:\s*QUOTE([^QUOTE]+)QUOTE/] *)
Definition re_quoted_tight : regex :=
  seqs [ str (quoted_label ++ lit ":"); star is_space; chr dq;
         Group 1 (plus not_dq); chr dq ].

(** [/QUOTEquestionQUOTE\s*:\s*QUOTE([^QUOTE]+)QUOTE/] *)
Definition re_quoted : regex :=
  seqs [ str quoted_label; star is_space; chr 58; star is_space; chr dq;
         Group 1 (plus not_dq); chr dq ].

(** [/question[QUOTE\s:]*([^QUOTE}\n]+)/i] *)
Definition re_loose : regex :=
  seqs [ str_i (lit "question"); star label_sep; Group 1 (plus loose_text) ].

(** [/QUOTEquestionQUOTE\s*:\s*QUOTE([^QUOTE]+)QUOTE/i] *)
Definition re_quoted_i : regex :=
  seqs [ str_i quoted_label; star is_space; chr 58; star is_space; chr dq;
         Group 1 (plus not_dq); chr dq ].

(** [/question[QUOTE\s:]*([^QUOTE}\n]{20,200})/i] *)
Definition re_loose_bounded : regex :=
  seqs [ str_i (lit "question"); star label_sep;
         Group 1 (Rep loose_text 20 (Some 200%nat)) ].

(** [/(?:คำถาม|question)[:QUOTE\s]*([^\nQUOTE}{]{20,200})/i] *)
Definition re_label_bounded : regex :=
  seqs [ Alt (str_i KHAMTHAM) (str_i (lit "question")); star label_sep;
         Group 1 (Rep loose_text' 20 (Some 200%nat)) ].

Definition questionPatterns : list regex :=
  [ re_quoted_i; re_loose_bounded; re_label_bounded ].

(** [m && m[1]] *)
Definition group1 (m : option caps) : option jsstring :=
  match m with
  | Some c =>
      match capture 1 c with
      | Some (x :: g) => Some (x :: g)
      | _ => None
      end
  | None => None
  end.

(** [a || b] on two match results *)
Definition or_match (a b : option caps) : option caps :=
  match a with Some c => Some c | None => b end.

(** The [catch] of [JSON.parse]: what is put in [result] when the reply is
    not JSON. *)
Definition extractFromText (aiResponse : jsstring) : json :=
  match group1 (or_match (exec re_quoted_tight aiResponse)
                         (exec re_quoted aiResponse)) with
  | Some q => JObj [(lit "question", JStr q)]
  | None =>
      match group1 (exec re_loose aiResponse) with
      | Some q => JObj [(lit "question", JStr (trim q))]
      | None => JObj []
      end
  end.

(** The [for] loop over [questionPatterns]: the first pattern that matches
    with a non-empty group decides. *)
Fixpoint firstPattern (patterns : list regex) (aiResponse question : jsstring)
  : jsstring :=
  match patterns with
  | [] => question
  | pattern :: rest =>
      match group1 (exec pattern aiResponse) with
      | Some g => trim g
      | None => firstPattern rest aiResponse question
      end
  end.

(** [a || b] on two values read from [result] *)
Definition or_value (a : option json) (b : option json) : option json :=
  if truthy a then a else b.

(** What the handler answers. *)
Inductive response : Type :=
| Respond (status : N) (body : json).

Definition blank (s : jsstring) : bool :=
  match trim s with [] => true | _ => false end.

(** [Object.keys(result)] *)
Definition keys_of (v : json) : json :=
  JArr (map (fun kv => JStr (fst kv)) (own_properties v)).

Definition substring0 (n : N) (s : jsstring) : jsstring := slice0 n s.

(** Lines 728 to 802 of the handler: from the content of the reply to the
    response.  [parse] is what [JSON.parse] makes of a non-empty content;
    [fallbackModel] is [getSafeModel(getCurrentModel())]. *)
Definition firstQuestionResponse (content : option jsstring)
    (parse : parse_outcome) (modelToUse fallbackModel : jsstring)
  : outcome response :=
  let aiResponse := or_default (or_empty content) (lit "{}") in
  let parsed :=
    match or_empty content with
    | [] => Parsed (JObj [])
    | _ => parse
    end in
  let result :=
    match parsed with
    | Parsed v => v
    | SyntaxError => extractFromText aiResponse
    end in
  match result with
  | JNull => Thrown (lit "Cannot read properties of null (reading 'question')")
  | _ =>
      let question :=
        or_value (get (lit "question") result)
          (or_value (get (lit "Question") result)
             (or_value (get (lit "questionText") result)
                (or_value (get (lit "text") result) (Some (JStr []))))) in
      let after_cascade :=
        if truthy question then
          match question with
          | Some (JStr q) =>
              if blank q
              then Returned (firstPattern questionPatterns aiResponse q)
              else Returned q
          | _ => Thrown (lit "question.trim is not a function")
          end
        else Returned (firstPattern questionPatterns aiResponse []) in
      match after_cascade with
      | Thrown e => Thrown e
      | Returned question =>
          if blank question then
            Returned (Respond 500 (JObj
              [ (lit "error", JStr (lit "AI did not generate a question"));
                (lit "message",
                 JStr (lit "Please try again or check your prompt settings"));
                (lit "debug", JObj
                  [ (lit "hasQuestion", JBool (truthy (get (lit "question") result)));
                    (lit "keys", keys_of result);
                    (lit "responsePreview", JStr (substring0 500 aiResponse));
                    (lit "fullResponse", JStr aiResponse) ]) ]))
          else
            let reason :=
              match or_value (get (lit "reason") result)
                      (or_value (get (lit "Reason") result)
                         (Some (JStr (lit
                            "Generated by AI based on objective and demographic data")))) with
              | Some v => v
              | None => JNull
              end in
            Returned (Respond 200 (JObj
              [ (lit "success", JBool true);
                (lit "question", JStr (trim question));
                (lit "reason", reason);
                (lit "model", JStr (or_default modelToUse fallbackModel)) ]))
      end
  end.

(** ** The world of a request handler *)

(** The options of [chat.completions.create].  The system message is one of
    two fixed texts, chosen by [supportsJsonMode]. *)
Record llm_request : Type := mkRequest {
  rq_model : jsstring;
  rq_system_for_json_mode : bool;
  rq_user : jsstring;
  rq_temperature_tenths : N;
  rq_max_tokens : option N;
  rq_json_object : bool
}.

(** What the provider does with a request: it fails, or it replies with a
    content; [JSON.parse] of a reply belongs to the engine and comes with it. *)
Inductive llm_outcome : Type :=
| LlmError (message : jsstring)
| LlmReply (content : option jsstring) (parse : parse_outcome).

(** [SettingsModel.getAIPromptSettings()] *)
Inductive settings_outcome : Type :=
| SettingsError
| SettingsNull
| Settings (demographicPrompt interviewPrompt : option jsstring).

Record world : Type := mkWorld {
  registry : AiKeysManager.store;
  promptSettings : settings_outcome;
  llm : llm_request -> llm_outcome;
  llm_calls : list llm_request        (* the calls made so far, last first *)
}.

(** Handlers run in a state and exception monad over the world. *)
Definition M (A : Type) : Type := world -> outcome A * world.

Definition ret {A} (a : A) : M A := fun w => (Returned a, w).

Definition throw {A} (message : jsstring) : M A := fun w => (Thrown message, w).

Definition bind {A B} (m : M A) (f : A -> M B) : M B :=
  fun w =>
    match m w with
    | (Returned a, w') => f a w'
    | (Thrown e, w') => (Thrown e, w')
    end.

Definition try_catch {A} (m : M A) (handler : jsstring -> M A) : M A :=
  fun w =>
    match m w with
    | (Returned a, w') => (Returned a, w')
    | (Thrown e, w') => handler e w'
    end.

Definition lift {A} (o : outcome A) : M A := fun w => (o, w).

Notation "x <- m ;; k" := (bind m (fun x => k))
  (at level 61, m at next level, right associativity).

(** A [const] of a block exists from the start of the block and cannot be
    read before its declaration has run. *)
Inductive binding (A : Type) : Type :=
| Uninitialized
| Initialized (a : A).

Arguments Uninitialized {A}.
Arguments Initialized {A} a.

Definition read_binding {A} (name : jsstring) (b : binding A) : M A :=
  match b with
  | Initialized a => ret a
  | Uninitialized =>
      throw (lit "Cannot access '" ++ name ++ lit "' before initialization")
  end.

Definition getCurrentModel : M jsstring :=
  fun w => (Returned (AiKeysManager.getActiveModel (registry w)), w).

(** [openaiClient.chat.completions.create(requestOptions)] *)
Definition create (rq : llm_request) : M (option jsstring * parse_outcome) :=
  fun w =>
    let w' := mkWorld (registry w) (promptSettings w) (llm w) (rq :: llm_calls w) in
    match llm w rq with
    | LlmError message => (Thrown message, w')
    | LlmReply content parse => (Returned (content, parse), w')
    end.

(** The prompt of the request, or the stored one (a failing query is
    logged and leaves the prompt empty). *)
Definition promptOrStored (customPrompt : jsstring)
    (pick : settings_outcome -> option jsstring) : M jsstring :=
  match customPrompt with
  | _ :: _ => ret customPrompt
  | [] => fun w => (Returned (or_empty (pick (promptSettings w))), w)
  end.

Definition interviewPrompt (s : settings_outcome) : option jsstring :=
  match s with Settings _ p => p | _ => None end.

Definition requestFor (modelToUse prompt : jsstring) (max_tokens : option N)
  : llm_request :=
  mkRequest modelToUse (ModelValidator.supportsJsonMode modelToUse) prompt 9
            max_tokens (ModelValidator.supportsJsonMode modelToUse).

Definition error_body (error message : jsstring) : json :=
  JObj [ (lit "error", JStr error); (lit "message", JStr message) ].

Definition NO_PROMPT : json :=
  JObj [ (lit "error", JStr (lit
    "No prompt template available. Please configure AI prompts in Settings page first.")) ].

(** ** POST /api/analyze-answer *)

(** [questionCount && currentQuestionCount && currentQuestionCount >= questionCount] *)
Definition limitReached (v : sanitized) : bool :=
  match questionCount v, currentQuestionCount v with
  | Some q, Some c =>
      negb (Z.eqb q 0) && negb (Z.eqb c 0) && Z.leb q c
  | _, _ => false
  end.

Definition is_action (t : option json) : bool :=
  match t with
  | Some (JStr t) => eqb t (lit "probe") || eqb t (lit "next_question")
  | _ => false
  end.

(** The check of [result.nextAction] after the reply. *)
Definition checkNextAction (result : json) (modelToUse fallbackModel : jsstring)
  : outcome response :=
  match result with
  | JNull => Thrown (lit "Cannot read properties of null (reading 'nextAction')")
  | _ =>
      let success :=
        Returned (Respond 200 (JObj
          (set_field (lit "model") (JStr (or_default modelToUse fallbackModel))
             (spread [(lit "success", JBool true)] result)))) in
      let failure :=
        Returned (Respond 500 (error_body (lit "AI did not generate a question")
          (lit "Please try again or check your prompt settings"))) in
      match get (lit "nextAction") result with
      | Some nextAction =>
          if truthy (Some nextAction) && is_action (get (lit "type") nextAction)
          then
            let q := get (lit "question") nextAction in
            if truthy q then
              match q with
              | Some (JStr s) => if blank s then failure else success
              | _ => Thrown (lit "result.nextAction.question.trim is not a function")
              end
            else failure
          else success
      | None => success
      end
  end.

Definition analyze_answer (body : analyzeAnswerBody) : M response :=
  try_catch
    (match validateAnalyzeAnswerRequest body with
     | Invalid errors =>
         ret (Respond 400 (JObj [ (lit "error", JStr (lit "Validation failed"));
                                  (lit "errors", JArr (map JStr errors)) ]))
     | Valid v =>
         (* [const modelToUse] is declared further down in this block *)
         let modelToUse : binding jsstring := Uninitialized in
         if limitReached v then
           m <- read_binding (lit "modelToUse") modelToUse ;;
           model <- match m with
                    | _ :: _ => ret m
                    | [] => a <- getCurrentModel ;; ret (ModelValidator.getSafeModel a)
                    end ;;
           ret (Respond 200 (JObj
             [ (lit "success", JBool true);
               (lit "analysis", JObj
                  [ (lit "sentiment", JStr (lit "neutral"));
                    (lit "keyPoints", JArr []);
                    (lit "needsProbing", JBool false);
                    (lit "reason", JStr LIMIT_REACHED) ]);
               (lit "nextAction", JObj
                  [ (lit "type", JStr (lit "complete"));
                    (lit "question", JStr []);
                    (lit "reason", JStr LIMIT_REACHED) ]);
               (lit "model", JStr model) ]))
         else
           prompt <- promptOrStored (customPrompt v) interviewPrompt ;;
           match prompt with
           | [] => ret (Respond 400 NO_PROMPT)
           | _ :: _ =>
               let prompt := analyzeAnswerPrompt prompt v in
               requestedModel <- match model v with
                                 | _ :: _ => ret (model v)
                                 | [] => getCurrentModel
                                 end ;;
               let modelToUse := Initialized (ModelValidator.getSafeModel requestedModel) in
               m <- read_binding (lit "modelToUse") modelToUse ;;
               completion <- create (requestFor m prompt None) ;;
               let result :=
                 match or_empty (fst completion) with
                 | [] => JObj []
                 | _ => match snd completion with
                        | Parsed r => r
                        | SyntaxError => JObj []
                        end
                 end in
               a <- getCurrentModel ;;
               lift (checkNextAction result m (ModelValidator.getSafeModel a))
           end
     end)
    (fun message =>
       ret (Respond 500 (error_body (lit "Failed to analyze answer")
                                    (or_default message CANNOT_ANALYZE)))).

(** ** The prompt and the model of a request that is not validated *)

(** The two handlers below read [customPrompt] and [model] from the body as
    they come, so these are any JSON value ([None] is an absent property),
    and call methods of strings on them. *)

(** A value that is truthy and no string. *)
Definition not_a_string (v : option json) : bool :=
  truthy v && match v with Some (JStr _) => false | _ => true end.

(** The string that a value is, or the empty string. *)
Definition string_or_empty (v : option json) : jsstring :=
  match v with Some (JStr s) => s | _ => [] end.

(** [let prompt = customPrompt; if (!prompt) { prompt = stored || null }]:
    the value of the request when it is truthy, or the stored string (a
    failing query is logged and leaves the prompt as it is). *)
Definition requestedPrompt (customPrompt : option json)
    (pick : settings_outcome -> option jsstring) : M (option json) :=
  if truthy customPrompt then ret customPrompt
  else fun w => (Returned (Some (JStr (or_empty (pick (promptSettings w))))), w).

(** [prompt.replace(...)]: the receiver of the first [replace]; a truthy
    value that is no string has no such method. *)
Definition replaceable (prompt : option json) : M jsstring :=
  match prompt with
  | Some (JStr p) => ret p
  | _ => throw (lit "prompt.replace is not a function")
  end.

(** [model || getCurrentModel()] *)
Definition requestedModel (model : option json) : M json :=
  match model with
  | Some v => if truthy model then ret v else a <- getCurrentModel ;; ret (JStr a)
  | None => a <- getCurrentModel ;; ret (JStr a)
  end.

(** [getSafeModel(requestedModel)] on any value: one that is truthy and no
    string is not in the list and has no method [startsWith]. *)
Definition getSafeModelOf (requested : json) : M jsstring :=
  match requested with
  | JStr m => ret (ModelValidator.getSafeModel m)
  | _ => throw (lit "modelId.startsWith is not a function")
  end.

(** ** POST /api/generate-first-question *)

(** The body of the request.  The objective and the other values that are
    put into the prompt are strings or absent. *)
Record firstQuestionBody : Type := mkFirstQuestionBody {
  fq_objective : option jsstring;
  fq_demographicData : option (list (jsstring * jsstring));
  fq_desiredInsights : option jsstring;
  fq_keyQuestions : option jsstring;
  fq_hypothesis : option jsstring;
  fq_customPrompt : option json;
  fq_model : option json
}.

Definition generate_first_question (body : firstQuestionBody) : M response :=
  try_catch
    (match or_empty (fq_objective body) with
     | [] => ret (Respond 400 (JObj [ (lit "error", JStr (lit "Objective is required")) ]))
     | _ :: _ =>
         prompt <- requestedPrompt (fq_customPrompt body) interviewPrompt ;;
         if negb (truthy prompt) then ret (Respond 400 NO_PROMPT)
         else
           prompt <- replaceable prompt ;;
           let prompt :=
             firstQuestionPrompt prompt (fq_objective body)
               (match fq_demographicData body with Some d => d | None => [] end)
               (fq_desiredInsights body) (fq_keyQuestions body)
               (fq_hypothesis body) in
           requested <- requestedModel (fq_model body) ;;
           modelToUse <- getSafeModelOf requested ;;
           completion <- create (requestFor modelToUse prompt (Some 500)) ;;
           a <- getCurrentModel ;;
           lift (firstQuestionResponse (fst completion) (snd completion)
                   modelToUse (ModelValidator.getSafeModel a))
     end)
    (fun message =>
       ret (Respond 500 (error_body (lit "Failed to generate first question") message))).

(** ** The model named at each call of the provider *)

(** The handlers of server.js that call [chat.completions.create]; each of
    them has one call. *)
Inductive call_site : Type :=
| AnalyzeObjective                (* POST /api/analyze-objective *)
| GenerateDemographicQuestions    (* POST /api/generate-demographic-questions *)
| GenerateFirstQuestion           (* POST /api/generate-first-question *)
| AnalyzeAnswer                   (* POST /api/analyze-answer *)
| GenerateInsights                (* POST /api/generate-insights *)
| ChatAi                          (* POST /api/chat-ai *)
| AnalyzeResults                  (* POST /api/analyze-results *)
| SummarizeInterview              (* POST /api/interviews/:id/summarize *)
| InsightsExecutiveSummary        (* GET /api/insights/executive-summary *)
| DemoChatAsk                     (* POST /api/demo/chat/ask *)
| DemoInsightsExecutiveSummary.   (* GET /api/demo/insights/executive-summary *)

(** [!apiKey || apiKey === 'dummy-key'] *)
Definition noApiKey (apiKey : option jsstring) : bool :=
  match apiKey with
  | Some (c :: k) => eqb (c :: k) (lit "dummy-key")
  | _ => true
  end.

(** [getSafeModel(model || getCurrentModel())] *)
Definition modelToUse (model : jsstring) (st : AiKeysManager.store) : jsstring :=
  ModelValidator.getSafeModel (or_default model (AiKeysManager.getActiveModel st)).

(** The [model] that a handler passes to the provider when it gets as far as
    its call, for the [model] string of the request (empty when the request
    has none): [Returned None] when the handler answers without a call
    because no API key is stored, [Thrown] when reading the model throws.
    The summarize handler reads [model] without declaring or receiving it. *)
Definition model_named (decryptFromStorage : jsstring -> outcome jsstring)
    (site : call_site) (model : jsstring) (st : AiKeysManager.store)
  : outcome (option jsstring) :=
  let apiKey := AiKeysManager.getApiKey decryptFromStorage st (lit "openai") in
  match site with
  | AnalyzeObjective =>
      if noApiKey apiKey then Returned None
      else Returned (Some (modelToUse model st))
  | GenerateDemographicQuestions | GenerateFirstQuestion | AnalyzeAnswer
  | GenerateInsights | ChatAi | AnalyzeResults =>
      Returned (Some (modelToUse model st))
  | SummarizeInterview => Thrown (lit "model is not defined")
  | InsightsExecutiveSummary =>
      if noApiKey apiKey then Returned None
      else Returned (Some (or_default (AiKeysManager.getActiveModel st)
                                      (lit "gpt-4o-mini")))
  | DemoChatAsk | DemoInsightsExecutiveSummary =>
      if noApiKey apiKey then Returned None
      else Returned (Some (lit "gpt-4o-mini"))
  end.

(** The registry after the first API key has been saved. *)
Definition keyed (encryptForStorage : jsstring -> outcome jsstring)
  : AiKeysManager.store :=
  snd (AiKeysManager.saveApiKey encryptForStorage AiKeysManager.fresh
         (lit "openai") (lit "sk-test")).

(** ** Observations on a run *)

(** The calls that a run adds to the log. *)
Definition calls_added (before after : world) (rqs : list llm_request) : Prop :=
  llm_calls after = rqs ++ llm_calls before.

Definition new_calls (before after : world) : list llm_request :=
  firstn (List.length (llm_calls after) - List.length (llm_calls before))
         (llm_calls after).

Definition response_field (k : jsstring) (r : outcome response) : option json :=
  match r with
  | Returned (Respond _ (JObj fields)) => field k fields
  | _ => None
  end.

Definition status_of (r : outcome response) : option N :=
  match r with
  | Returned (Respond status _) => Some status
  | Thrown _ => None
  end.

(** The question of a successful response. *)
Definition recovered (r : outcome response) : option jsstring :=
  match status_of r, response_field (lit "question") r with
  | Some 200, Some (JStr q) => Some q
  | _, _ => None
  end.

(** A request at its limit: five questions asked out of five. *)
Definition limit_request : analyzeAnswerBody :=
  mkBody (Some (JStr (lit "I buy it every week")))
         (Some (JStr (lit "Why people choose oat milk")))
         None None None None None (Some 5%Z) (Some 5%Z) None None None.

Definition TDZ_RESPONSE : response :=
  Respond 500 (error_body (lit "Failed to analyze answer")
                 (lit "Cannot access 'modelToUse' before initialization")).

(** A request below its limit, and a world that has a stored prompt and a
    provider that replies. *)
Definition open_request : analyzeAnswerBody :=
  mkBody (Some (JStr (lit "I buy it every week")))
         (Some (JStr (lit "Why people choose oat milk")))
         None None None None None (Some 5%Z) (Some 2%Z) None None None.

Definition first_request : firstQuestionBody :=
  mkFirstQuestionBody (Some (lit "Why people choose oat milk")) None None None
                      None None None.

Definition sample_world : world :=
  mkWorld AiKeysManager.fresh
          (Settings None (Some (lit "Objective: {objective}. Answer: {answer}")))
          (fun _ => LlmReply (Some (lit "{}")) (Parsed (JObj [])))
          [].

Definition QUESTION_TEXT : jsstring := lit "What motivates your choice?".

(** The text of a reply that labels its question without braces. *)
Definition LABELLED : jsstring := lit "question: " ++ [dq] ++ QUESTION_TEXT ++ [dq].

(** The word question occurs in [s], in any letter case. *)
Definition names_question (s : jsstring) : bool :=
  includes (lit "question") (map lower s).

(** An occurrence of the word at the head of [s]. *)
Definition occ (s : jsstring) : bool := startsWith (lit "question") (map lower s).

(** All the patterns of the handler, in the order they are tried. *)
Definition extractors : list regex :=
  [ re_quoted_tight; re_quoted; re_loose ] ++ questionPatterns.

Definition NO_QUESTION : jsstring := lit "AI did not generate a question".


Definition PROBE : json :=
  JObj [ (lit "type", JStr (lit "probe"));
         (lit "question", JStr (lit "Why oat milk?")) ].

Definition probing_world : world :=
  mkWorld AiKeysManager.fresh
          (Settings None (Some (lit "Answer: {answer}")))
          (fun _ => LlmReply (Some (lit "{...}"))
                             (Parsed (JObj [ (lit "nextAction", PROBE) ])))
          [].

(** ** POST /api/generate-demographic-questions *)


Definition demographicPrompt (s : settings_outcome) : option jsstring :=
  match s with Settings p _ => p | _ => None end.




(** ** The routes of the key and model registry *)

Definition succeeded (message : jsstring) : response :=
  Respond 200 (JObj [ (lit "success", JBool true); (lit "message", JStr message) ]).

(** POST /api/ai-keys/:provider with [{ apiKey }] *)
Definition post_ai_key (encryptForStorage : jsstring -> outcome jsstring)
    (provider : jsstring) (apiKey : option jsstring) (st : AiKeysManager.store)
  : response * AiKeysManager.store :=
  match or_empty apiKey with
  | [] => (Respond 400 (JObj [ (lit "error", JStr (lit "API key is required")) ]), st)
  | _ :: _ =>
      match AiKeysManager.saveApiKey encryptForStorage st provider (or_empty apiKey) with
      | (Returned _, st') => (succeeded (lit "API key saved successfully"), st')
      | (Thrown message, st') =>
          (Respond 500 (error_body (lit "Failed to save API key") message), st')
      end
  end.

(** DELETE /api/ai-keys/:provider *)
Definition delete_ai_key (provider : jsstring) (st : AiKeysManager.store)
  : response * AiKeysManager.store :=
  (succeeded (lit "API key deleted successfully"),
   snd (AiKeysManager.deleteApiKey st provider)).

(** GET /api/ai-models/active *)
Definition get_active_model (st : AiKeysManager.store) : response :=
  Respond 200 (JObj [ (lit "success", JBool true);
                      (lit "model", JStr (AiKeysManager.getActiveModel st)) ]).

(** POST /api/ai-models/active with [{ modelId }] *)
Definition post_active_model (modelId : option jsstring) (st : AiKeysManager.store)
  : response * AiKeysManager.store :=
  match or_empty modelId with
  | [] => (Respond 400 (JObj [ (lit "error", JStr (lit "Model ID is required")) ]), st)
  | _ :: _ =>
      match AiKeysManager.setActiveModel st (or_empty modelId) with
      | (Returned _, st') => (succeeded (lit "Active model updated successfully"), st')
      | (Thrown message, st') =>
          (Respond 500 (error_body (lit "Failed to set active model") message), st')
      end
  end.

(** POST /api/ai-models with the model as body *)
Definition post_ai_model (model : AiKeysManager.Model) (st : AiKeysManager.store)
  : response * AiKeysManager.store :=
  match AiKeysManager.addModel st model with
  | (Returned _, st') => (succeeded (lit "Model added successfully"), st')
  | (Thrown message, st') =>
      (Respond 500 (error_body (lit "Failed to add model") message), st')
  end.

(** DELETE /api/ai-models/:modelId *)
Definition delete_ai_model (modelId : jsstring) (st : AiKeysManager.store)
  : response * AiKeysManager.store :=
  match AiKeysManager.deleteModel st modelId with
  | (Returned _, st') => (succeeded (lit "Model deleted successfully"), st')
  | (Thrown message, st') =>
      (Respond 500 (error_body (lit "Failed to delete model") message), st')
  end.

End Server.

(* ================================================================== *)
(** * The template engine of the specification *)
(* ================================================================== *)

(** The specification describes rendering as one pass that replaces every
    [{name}] by its value and does not look into the values.  A template is
    given here by its parts: text, and holes for the placeholders. *)
Module PromptSpec.

Import Server.
Open Scope N_scope.

Inductive chunk : Type :=
| Text (s : jsstring)
| Hole (name : jsstring).

Definition unparse_chunk (c : chunk) : jsstring :=
  match c with
  | Text s => s
  | Hole n => placeholder n
  end.

Definition unparse (cs : list chunk) : jsstring := flat_map unparse_chunk cs.

Fixpoint after_word (s : jsstring) : jsstring :=
  match s with
  | [] => []
  | c :: t => if is_word c then after_word t else s
  end.

(** An opening brace that cannot begin a placeholder, whatever is written
    after the text it stands in: the word characters after it end, within
    that text, at a unit that is no closing brace. *)
Definition dead (s : jsstring) : bool :=
  match after_word s with
  | [] => false
  | d :: _ => negb (d =? 125)
  end.

(** A text part: every opening brace in it is dead. *)
Fixpoint text_ok (s : jsstring) : bool :=
  match s with
  | [] => true
  | c :: t => (if c =? 123 then dead t else true) && text_ok t
  end.

(** A placeholder name is made of word characters. *)
Definition name_ok (n : jsstring) : bool := forallb is_word n.

Definition chunk_ok (c : chunk) : bool :=
  match c with
  | Text s => text_ok s
  | Hole n => name_ok n
  end.

Definition template_ok (cs : list chunk) : bool := forallb chunk_ok cs.

(** The units that give a dollar sign before them a meaning in the
    replacement text of a pattern without groups: a dollar sign, an
    ampersand, a backquote and a quote. *)
Definition special (d : N) : bool :=
  (d =? 36) || (d =? 38) || (d =? 96) || (d =? 39).

(** A replacement text without [$$], [$&], [$`] and [$']. *)
Fixpoint no_pattern (s : jsstring) : bool :=
  match s with
  | [] => true
  | c :: t =>
      negb ((c =? 36) && match t with
                         | d :: _ => special d
                         | [] => false
                         end)
      && no_pattern t
  end.

Fixpoint holes (cs : list chunk) : list jsstring :=
  match cs with
  | [] => []
  | Text _ :: cs' => holes cs'
  | Hole n :: cs' => n :: holes cs'
  end.

Fixpoint assoc {A} (k : jsstring) (l : list (jsstring * A)) : option A :=
  match l with
  | [] => None
  | (k', v) :: l' => if eqb k' k then Some v else assoc k l'
  end.

(** Every hole that has a value is replaced by it, in one pass over the
    template; the values are not looked into. *)
Definition simultaneous (values : list (jsstring * list chunk)) (cs : list chunk)
  : list chunk :=
  flat_map (fun c =>
              match c with
              | Text s => [Text s]
              | Hole n => match assoc n values with
                          | Some v => v
                          | None => [Hole n]
                          end
              end) cs.

(** No value holds the token of a placeholder that is replaced after it. *)
Fixpoint no_later_token (values : list (jsstring * list chunk)) : Prop :=
  match values with
  | [] => True
  | (_, v) :: rest =>
      (forall m, In m (holes v) -> ~ In m (map fst rest)) /\ no_later_token rest
  end.

(** The [replacements] that the code is given for these values. *)
Definition replacements_of (values : list (jsstring * list chunk))
  : list (jsstring * jsstring) :=
  map (fun nv => (placeholder (fst nv), unparse (snd nv))) values.

Definition value_ok (nv : jsstring * list chunk) : Prop :=
  name_ok (fst nv) = true /\ template_ok (snd nv) = true
  /\ no_pattern (unparse (snd nv)) = true.

(** One pass of the code, on chunks. *)
Definition substitute (n : jsstring) (v : list chunk) (cs : list chunk) : list chunk :=
  flat_map (fun c =>
              match c with
              | Text s => [Text s]
              | Hole m => if eqb n m then v else [Hole m]
              end) cs.

(** The passes of the code, on chunks. *)
Definition sequential (values : list (jsstring * list chunk)) (cs : list chunk)
  : list chunk :=
  fold_left (fun acc nv => substitute (fst nv) (snd nv) acc) values cs.

(** What the passes of the code make of one part of the template: a hole
    is replaced by the value of the first pass that names it, and in that
    value the holes are replaced by the passes that come after it, and by
    these only. *)
Fixpoint expand (values : list (jsstring * list chunk)) (c : chunk) : list chunk :=
  match values with
  | [] => [c]
  | (n, v) :: rest =>
      match c with
      | Text s => [Text s]
      | Hole m => if eqb n m then flat_map (expand rest) v else expand rest (Hole m)
      end
  end.

(** Values that are plain text. *)
Definition fill (values : list (jsstring * jsstring)) (c : chunk) : chunk :=
  match c with
  | Text s => Text s
  | Hole n => match assoc n values with
              | Some v => Text v
              | None => Hole n
              end
  end.

Definition plain_value (nv : jsstring * jsstring) : Prop :=
  name_ok (fst nv) = true /\ text_ok (snd nv) = true /\ no_pattern (snd nv) = true.

Definition as_chunks (values : list (jsstring * jsstring))
  : list (jsstring * list chunk) :=
  map (fun nv => (fst nv, [Text (snd nv)])) values.

End PromptSpec.

(* ================================================================== *)
(** * cryptoUtils.js *)
(* ================================================================== *)

Module CryptoUtils.

Open Scope N_scope.

(** A [Buffer]. *)
Definition bytes := list Init.Byte.byte.

Definition byte_of_N (n : N) : Init.Byte.byte :=
  match Byte.of_N n with
  | Some b => b
  | None => Init.Byte.x00
  end.

(** ** [buf.toString('hex')] and [Buffer.from(s, 'hex')] *)

Definition hex_digit (n : N) : N := if n <? 10 then 48 + n else 87 + n.

Definition toString_hex (b : bytes) : jsstring :=
  flat_map (fun x => [ hex_digit (Byte.to_N x / 16);
                       hex_digit (Byte.to_N x mod 16) ]) b.

Definition hex_value (c : N) : option N :=
  if (48 <=? c) && (c <=? 57) then Some (c - 48)
  else if (97 <=? c) && (c <=? 102) then Some (c - 87)
  else if (65 <=? c) && (c <=? 70) then Some (c - 55)
  else None.

(** Decoding stops at the first pair that is not two hex digits. *)
Fixpoint from_hex (s : jsstring) : bytes :=
  match s with
  | a :: b :: t =>
      match hex_value a, hex_value b with
      | Some x, Some y => byte_of_N (16 * x + y) :: from_hex t
      | _, _ => []
      end
  | _ => []
  end.

(** ** Strings to UTF-8 *)

Definition is_high (c : N) : bool := (0xD800 <=? c) && (c <=? 0xDBFF).
Definition is_low (c : N) : bool := (0xDC00 <=? c) && (c <=? 0xDFFF).

(** The code points of a string: a surrogate pair is one code point, and a
    surrogate without its partner is read as U+FFFD. *)
Fixpoint code_points (s : jsstring) : list N :=
  match s with
  | [] => []
  | c :: t =>
      if is_high c then
        match t with
        | d :: t' =>
            if is_low d
            then (0x10000 + (c - 0xD800) * 0x400 + (d - 0xDC00)) :: code_points t'
            else 0xFFFD :: code_points t
        | [] => [0xFFFD]
        end
      else if is_low c then 0xFFFD :: code_points t
      else c :: code_points t
  end.

Definition utf8_of_code_point (cp : N) : list N :=
  if cp <? 0x80 then [cp]
  else if cp <? 0x800 then [0xC0 + cp / 64; 0x80 + cp mod 64]
  else if cp <? 0x10000 then
    [0xE0 + cp / 4096; 0x80 + (cp / 64) mod 64; 0x80 + cp mod 64]
  else
    [0xF0 + cp / 262144; 0x80 + (cp / 4096) mod 64; 0x80 + (cp / 64) mod 64;
     0x80 + cp mod 64].

(** [Buffer.from(text, 'utf8')] *)
Definition utf8_encode (text : jsstring) : bytes :=
  map byte_of_N (flat_map utf8_of_code_point (code_points text)).

(** ** UTF-8 to strings: the string decoder *)

Definition utf16_of_code_point (cp : N) : jsstring :=
  if cp <? 0x10000 then [cp]
  else [0xD800 + (cp - 0x10000) / 0x400; 0xDC00 + (cp - 0x10000) mod 0x400].

(** A sequence under way: the code point so far, the continuation bytes
    still needed, and the range allowed for the next one. *)
Record pending : Type := mkPending {
  code_point : N;
  needed : nat;
  lower_boundary : N;
  upper_boundary : N
}.

Inductive lead_byte : Type :=
| Whole (cp : N)
| Starts (p : pending)
| Invalid.

Definition lead (b : N) : lead_byte :=
  if b <=? 0x7F then Whole b
  else if (0xC2 <=? b) && (b <=? 0xDF) then
    Starts (mkPending (b - 0xC0) 1 0x80 0xBF)
  else if (0xE0 <=? b) && (b <=? 0xEF) then
    Starts (mkPending (b - 0xE0) 2 (if b =? 0xE0 then 0xA0 else 0x80)
                      (if b =? 0xED then 0x9F else 0xBF))
  else if (0xF0 <=? b) && (b <=? 0xF4) then
    Starts (mkPending (b - 0xF0) 3 (if b =? 0xF0 then 0x90 else 0x80)
                      (if b =? 0xF4 then 0x8F else 0xBF))
  else Invalid.

(** [decoder.write(buf)]: the text of the complete sequences, and the
    sequence left under way.  A byte that cannot continue the sequence under
    way gives U+FFFD and is read again as a first byte. *)
Fixpoint decoder_write (st : option pending) (bs : list N)
  : jsstring * option pending :=
  match bs with
  | [] => ([], st)
  | b :: t =>
      let first :=
        match lead b with
        | Whole cp =>
            let (out, st') := decoder_write None t in
            (utf16_of_code_point cp ++ out, st')
        | Starts p => decoder_write (Some p) t
        | Invalid =>
            let (out, st') := decoder_write None t in
            (0xFFFD :: out, st')
        end in
      match st with
      | None => first
      | Some p =>
          if (lower_boundary p <=? b) && (b <=? upper_boundary p) then
            let cp := code_point p * 64 + (b - 0x80) in
            match needed p with
            | S (S n) => decoder_write (Some (mkPending cp (S n) 0x80 0xBF)) t
            | _ =>
                let (out, st') := decoder_write None t in
                (utf16_of_code_point cp ++ out, st')
            end
          else (0xFFFD :: fst first, snd first)
      end
  end.

(** [decoder.end()]: a sequence left under way gives U+FFFD. *)
Definition decoder_end (st : option pending) : jsstring :=
  match st with
  | Some _ => [0xFFFD]
  | None => []
  end.

(** ** The cipher of the [crypto] module *)

(** What the code uses of [crypto], for AES-256-GCM: the key derivation
    [scryptSync(password, salt, keylen)], the counter-mode transformation of
    the data under a key and an IV (the same for both directions), and the
    16-byte authentication tag of a ciphertext. *)
Record crypto : Type := mkCrypto {
  scryptSync : jsstring -> jsstring -> nat -> bytes;
  gctr : bytes -> bytes -> bytes -> bytes;
  ghash_tag : bytes -> bytes -> bytes -> bytes
}.

(** What the proofs assume of the library. *)
Record lawful (L : crypto) : Prop := mkLawful {
  scrypt_length : forall password salt keylen,
      List.length (scryptSync L password salt keylen) = keylen;
  gctr_involutive : forall key iv data, gctr L key iv (gctr L key iv data) = data;
  tag_length : forall key iv data, List.length (ghash_tag L key iv data) = 16%nat
}.

Record encryptedData : Type := mkEncrypted {
  iv : jsstring;
  authTag : jsstring;
  encrypted : jsstring
}.

Fixpoint bytes_eqb (a b : bytes) : bool :=
  match a, b with
  | [], [] => true
  | x :: a', y :: b' => Byte.eqb x y && bytes_eqb a' b'
  | _, _ => false
  end.

(** [createCipheriv] and [createDecipheriv] accept a 32-byte key and a
    non-empty IV. *)
Definition valid_key_iv (key iv : bytes) : bool :=
  Nat.eqb (List.length key) 32 && negb (Nat.eqb (List.length iv) 0).

(** [setAuthTag] accepts the tag lengths of GCM. *)
Definition valid_tag_length (n : nat) : bool :=
  existsb (Nat.eqb n) [4; 8; 12; 13; 14; 15; 16]%nat.

(** [encrypt(text, masterKey)]; [random] is what [crypto.randomBytes(16)]
    returned. *)
Definition encrypt (L : crypto) (random : bytes) (text masterKey : jsstring)
  : outcome encryptedData :=
  let iv := random in
  let key := scryptSync L masterKey (lit "salt") 32 in
  if valid_key_iv key iv then
    let data := gctr L key iv (utf8_encode text) in
    (* cipher.update(text, 'utf8', 'hex') + cipher.final('hex') *)
    let encrypted := toString_hex data ++ toString_hex [] in
    let authTag := ghash_tag L key iv data in
    Returned (mkEncrypted (toString_hex iv) (toString_hex authTag) encrypted)
  else Thrown (lit "Failed to encrypt data").

(** [decrypt(encryptedData, masterKey)] *)
Definition decrypt (L : crypto) (encryptedData : encryptedData)
    (masterKey : jsstring) : outcome jsstring :=
  let key := scryptSync L masterKey (lit "salt") 32 in
  let iv := from_hex (iv encryptedData) in
  let tag := from_hex (authTag encryptedData) in
  if valid_key_iv key iv && valid_tag_length (List.length tag) then
    let data := from_hex (encrypted encryptedData) in
    (* decipher.update(encrypted, 'hex', 'utf8') *)
    let (decrypted, st) :=
      decoder_write None (map Byte.to_N (gctr L key iv data)) in
    (* decipher.final('utf8') checks the tag *)
    if bytes_eqb tag (firstn (List.length tag) (ghash_tag L key iv data))
    then Returned (decrypted ++ decoder_end st)
    else Thrown (lit "Failed to decrypt data")
  else Thrown (lit "Failed to decrypt data").

(** [s.isWellFormed()] for a sequence of 16-bit units: every unit is below
    2^16 and no surrogate is without its partner. *)
Fixpoint isWellFormed (s : jsstring) : bool :=
  match s with
  | [] => true
  | c :: t =>
      if is_high c then
        match t with
        | d :: t' => is_low d && isWellFormed t'
        | [] => false
        end
      else negb (is_low c) && (c <? 0x10000) && isWellFormed t
  end.

(** [s.toWellFormed()]: every surrogate without its partner becomes
    U+FFFD. *)
Fixpoint toWellFormed (s : jsstring) : jsstring :=
  match s with
  | [] => []
  | c :: t =>
      if is_high c then
        match t with
        | d :: t' =>
            if is_low d then c :: d :: toWellFormed t'
            else 0xFFFD :: toWellFormed t
        | [] => [0xFFFD]
        end
      else if is_low c then 0xFFFD :: toWellFormed t
      else c :: toWellFormed t
  end.

(** The characters of [toString('hex')]. *)
Definition is_hex_digit (c : N) : bool :=
  ((48 <=? c) && (c <=? 57)) || ((97 <=? c) && (c <=? 102)).

(** A library to run the code on: the counter mode complements every byte
    and the tag is made of the key and the IV. *)
Definition complement (b : Init.Byte.byte) : Init.Byte.byte :=
  byte_of_N (255 - Byte.to_N b).

Definition toy : crypto :=
  mkCrypto
    (fun password _ keylen =>
       firstn keylen (map byte_of_N password ++ repeat Init.Byte.x2a keylen))
    (fun _ _ data => map complement data)
    (fun key iv _ => firstn 16 (iv ++ key ++ repeat Init.Byte.x00 16)).

(** A Unicode scalar value: a code point that is not a surrogate. *)
Definition scalar (cp : N) : Prop :=
  cp < 0x110000 /\ ~ (0xD800 <= cp <= 0xDFFF).

(** Sixteen bytes for the IV. *)
Definition sample_iv : bytes := repeat Init.Byte.x07 16.

End CryptoUtils.

(* ================================================================== *)
(** * Facts about strings *)
(* ================================================================== *)

Module JsFacts.

Lemma eqb_eq (a b : jsstring) : eqb a b = true <-> a = b.
Proof.
  revert b; induction a as [|x a IH]; intros [|y b]; simpl; split;
    try congruence; try reflexivity.
  - intros H. apply andb_true_iff in H as [Hx Hab].
    apply N.eqb_eq in Hx. apply IH in Hab. congruence.
  - intros H. injection H as -> ->. rewrite N.eqb_refl. simpl. now apply IH.
Qed.

Lemma eqb_refl (a : jsstring) : eqb a a = true.
Proof. now apply eqb_eq. Qed.

Lemma eqb_neq (a b : jsstring) : eqb a b = false <-> a <> b.
Proof.
  split.
  - intros H E. apply eqb_eq in E. congruence.
  - intros H. destruct (eqb a b) eqn:E; [|reflexivity].
    apply eqb_eq in E. contradiction.
Qed.

Lemma arr_includes_In (x : jsstring) (arr : list jsstring) :
  arr_includes x arr = true <-> In x arr.
Proof.
  unfold arr_includes. rewrite existsb_exists. split.
  - intros [y [Hy E]]. apply eqb_eq in E. now subst.
  - intros H. exists x. split; [assumption | apply eqb_refl].
Qed.

Lemma startsWith_app (p s : jsstring) : startsWith p (p ++ s) = true.
Proof. induction p as [|x p IH]; simpl; [reflexivity|]. now rewrite N.eqb_refl. Qed.

Lemma startsWith_split (p s : jsstring) :
  startsWith p s = true -> s = p ++ skipn (List.length p) s.
Proof.
  revert s; induction p as [|x p IH]; intros s H; simpl in *; [reflexivity|].
  destruct s as [|y s]; [discriminate|].
  apply andb_true_iff in H as [Hx Hp]. apply N.eqb_eq in Hx. subst y.
  simpl. f_equal. now apply IH.
Qed.

End JsFacts.

(* ================================================================== *)
(** * getSafeModel *)
(* ================================================================== *)

Section SafeModel.

Import ModelValidator.

(** C7: an identifier of the allow-list of confirmed models is returned
    unchanged, and every other string, whether it looks like a model name of
    the provider or not, gives the fixed default [gpt-4o-mini]. *)
Theorem getSafeModel_allow_list (requestedId : jsstring) :
  confirmedAvailableModels
  = [ lit "gpt-4o-mini"; lit "gpt-4o"; lit "gpt-4-turbo"; lit "gpt-4";
      lit "gpt-3.5-turbo" ]
  /\ (In requestedId confirmedAvailableModels ->
      getSafeModel requestedId = requestedId)
  /\ (~ In requestedId confirmedAvailableModels ->
      getSafeModel requestedId = lit "gpt-4o-mini")
  /\ getSafeModel (lit "gpt-5-mini") = lit "gpt-4o-mini"
  /\ getSafeModel (lit "totally-unknown-123") = lit "gpt-4o-mini".
Proof.
  split; [reflexivity|]. split; [|split; [|split; reflexivity]].
  - intros H. apply JsFacts.arr_includes_In in H.
    unfold getSafeModel, getSafeModel_log. now rewrite H.
  - intros H. unfold getSafeModel, getSafeModel_log.
    destruct (arr_includes requestedId confirmedAvailableModels) eqn:E.
    + apply JsFacts.arr_includes_In in E. contradiction.
    + destruct requestedId as [|c r]; [reflexivity|].
      destruct (startsWith (lit "gpt-") (c :: r) || startsWith (lit "o") (c :: r));
        reflexivity.
Qed.

(** C7 at an identifier of the list and at one outside it. *)
Lemma getSafeModel_allow_list_witness :
  getSafeModel (lit "gpt-4-turbo") = lit "gpt-4-turbo"
  /\ getSafeModel (lit "o9-preview") = lit "gpt-4o-mini".
Proof.
  split.
  - apply (proj1 (proj2 (getSafeModel_allow_list (lit "gpt-4-turbo")))).
    simpl. tauto.
  - apply (proj1 (proj2 (proj2 (getSafeModel_allow_list (lit "o9-preview"))))).
    simpl. intros H. repeat (destruct H as [H|H]; [discriminate H|]). exact H.
Defined.

End SafeModel.

(* ================================================================== *)
(** * The registry *)
(* ================================================================== *)

Module RegistryFacts.

Import AiKeysManager.

Lemma loaded_models (st : store) :
  match models (loadKeysDB st) with Some r => deref st r | None => [] end
  = match disk st with
    | Stored r => match p_models r with Some l => l | None => [] end
    | _ => DEFAULT_MODELS st
    end.
Proof.
  unfold loadKeysDB. destruct (disk st) as [| |r]; try reflexivity.
  simpl. now destruct (p_models r).
Qed.

Lemma custom_of_builtin (d : list Model) :
  filter (fun m => negb (arr_includes (id m) (map id d))) d = [].
Proof.
  assert (H : forall l, incl l d ->
            filter (fun m => negb (arr_includes (id m) (map id d))) l = []).
  { induction l as [|m l IH]; intros Hl; [reflexivity|]. simpl.
    assert (E : arr_includes (id m) (map id d) = true).
    { apply JsFacts.arr_includes_In, in_map, Hl. now left. }
    rewrite E. simpl. apply IH. intros x Hx. apply Hl. now right. }
  apply H, incl_refl.
Qed.

Lemma catalog_eq (st : store) :
  ki_models (getAllKeys st)
  = DEFAULT_MODELS st
    ++ filter (fun m => negb (arr_includes (id m) (map id (DEFAULT_MODELS st))))
              (persisted_models st).
Proof.
  unfold getAllKeys. cbv zeta. unfold ki_models. rewrite loaded_models.
  unfold persisted_models. destruct (disk st) as [| |r]; try reflexivity.
  - now rewrite custom_of_builtin.
  - now rewrite custom_of_builtin.
Qed.

Lemma find_app_left {A} (f : A -> bool) (l1 l2 : list A) :
  existsb f l1 = true -> find f (l1 ++ l2) = find f l1.
Proof.
  induction l1 as [|a l1 IH]; simpl; [discriminate|].
  destruct (f a); [reflexivity|]. simpl. exact IH.
Qed.

Lemma builtins_kept_step_save st d :
  DEFAULT_MODELS (snd (saveKeysDB st d)) = DEFAULT_MODELS st.
Proof. unfold saveKeysDB. now destruct (writable st). Qed.

Lemma builtins_prefix (st : store) :
  reachable st -> exists ext, DEFAULT_MODELS st = DEFAULT_MODELS_literal ++ ext.
Proof.
  induction 1 as [d w | st i _ [ext IH] | st m _ [ext IH] | st i _ [ext IH]
                 | st d w _ [ext IH]].
  - exists []. cbn [DEFAULT_MODELS]. symmetry. apply app_nil_r.
  - exists ext. unfold setActiveModel.
    destruct (negb _); [exact IH|].
    destruct (saveKeysDB st _) as [ok st'] eqn:E. simpl.
    change st' with (snd (ok, st')). rewrite <- E.
    now rewrite builtins_kept_step_save.
  - unfold addModel.
    destruct (id m); [exists ext; exact IH|].
    destruct (name m); [exists ext; exact IH|].
    destruct (provider m); [exists ext; exact IH|].
    destruct (existsb _ _); [exists ext; exact IH|].
    destruct (match models (loadKeysDB st) with Some r => r | None => Shared end).
    + destruct (saveKeysDB _ _) as [ok st'] eqn:E. simpl.
      change st' with (snd (ok, st')). rewrite <- E.
      rewrite builtins_kept_step_save. cbn [DEFAULT_MODELS]. exists (ext ++ [m]).
      rewrite IH, <- app_assoc. reflexivity.
    + destruct (saveKeysDB _ _) as [ok st'] eqn:E. simpl.
      change st' with (snd (ok, st')). rewrite <- E.
      rewrite builtins_kept_step_save. exists ext. exact IH.
  - exists ext. unfold deleteModel.
    destruct (existsb _ _); [exact IH|].
    destruct (models (loadKeysDB st)); [|exact IH].
    destruct (saveKeysDB st _) as [ok st'] eqn:E. simpl.
    change st' with (snd (ok, st')). rewrite <- E.
    now rewrite builtins_kept_step_save.
  - exists ext. exact IH.
Qed.

(** Without a list of models in the record, [addModel] works on the
    [DEFAULT_MODELS] array itself. *)
Lemma addModel_without_list (st : store) (m : Model) :
  match disk st with Stored r => p_models r = None | _ => True end ->
  id m <> [] -> name m <> [] -> provider m <> [] ->
  existsb (has_id (id m)) (DEFAULT_MODELS st) = false ->
  addModel st m
  = (Returned (writable st),
     snd (saveKeysDB (mkStore (DEFAULT_MODELS st ++ [m]) (disk st) (writable st))
                     (mkDb (keys (loadKeysDB st)) (Some Shared)
                           (activeModel (loadKeysDB st))))).
Proof.
  intros Hd Hi Hn Hp He. unfold addModel.
  destruct (id m) as [|ci i] eqn:Ei; [contradiction|].
  destruct (name m) as [|cn n]; [contradiction|].
  destruct (provider m) as [|cp p]; [contradiction|].
  assert (Hr : match models (loadKeysDB st) with Some r => r | None => Shared end
               = Shared).
  { unfold loadKeysDB. destruct (disk st) as [| |r]; try reflexivity.
    cbn [models]. now rewrite Hd. }
  rewrite Hr. cbn [deref]. rewrite He.
  unfold saveKeysDB. cbn [writable]. destruct (writable st); reflexivity.
Qed.

(** [setActiveModel] throws exactly when the id is not in the list it
    checks, the persisted [models] (or the built-in array when the record
    has none). *)
Lemma setActiveModel_throws (st : store) (modelId : jsstring) :
  let checked :=
    match disk st with
    | Stored r => match p_models r with Some l => l | None => DEFAULT_MODELS st end
    | _ => DEFAULT_MODELS st
    end in
  (existsb (has_id modelId) checked = false ->
   setActiveModel st modelId = (Thrown (lit "Model not found"), st))
  /\ (existsb (has_id modelId) checked = true ->
      exists ok st', setActiveModel st modelId = (Returned ok, st')
        /\ ok = writable st
        /\ (writable st = true -> getActiveModel st' = or_default modelId (lit "gpt-5-mini"))).
Proof.
  cbv zeta. unfold setActiveModel.
  assert (E : match models (loadKeysDB st) with
              | Some r => deref st r
              | None => DEFAULT_MODELS st
              end
              = match disk st with
                | Stored r => match p_models r with
                              | Some l => l
                              | None => DEFAULT_MODELS st
                              end
                | _ => DEFAULT_MODELS st
                end).
  { unfold loadKeysDB. destruct (disk st) as [| |r]; try reflexivity.
    simpl. now destruct (p_models r). }
  rewrite E. split; intros H; rewrite H; simpl; [reflexivity|].
  unfold saveKeysDB. simpl. destruct (writable st) eqn:W.
  - eexists _, _. split; [reflexivity|]. split; [reflexivity|].
    intros _. unfold getActiveModel, loadKeysDB. simpl.
    now destruct modelId.
  - eexists _, _. split; [reflexivity|]. split; [reflexivity|]. discriminate.
Qed.

(** An id that the catalog of [getAllKeys] does not list is rejected. *)
Lemma setActiveModel_unlisted (st : store) (modelId : jsstring) :
  existsb (has_id modelId) (ki_models (getAllKeys st)) = false ->
  setActiveModel st modelId = (Thrown (lit "Model not found"), st).
Proof.
  intros H. apply (proj1 (setActiveModel_throws st modelId)).
  rewrite catalog_eq, existsb_app in H. apply orb_false_iff in H as [Hd Hc].
  unfold persisted_models in Hc.
  destruct (disk st) as [| |r]; try exact Hd.
  destruct (p_models r) as [l|]; [|exact Hd].
  destruct (existsb (has_id modelId) l) eqn:E; [|reflexivity].
  apply existsb_exists in E as [m [Hm Hid]].
  rewrite <- Hc. symmetry. apply existsb_exists.
  exists m. split; [|exact Hid]. apply filter_In. split; [exact Hm|].
  apply negb_true_iff.
  destruct (arr_includes (id m) (map id (DEFAULT_MODELS st))) eqn:A; [|reflexivity].
  apply JsFacts.arr_includes_In in A. apply in_map_iff in A as [d [Hdid Hdin]].
  rewrite <- Hd. symmetry. apply existsb_exists.
  exists d. split; [exact Hdin|]. unfold has_id in *. now rewrite Hdid.
Qed.

End RegistryFacts.

Section Registry.

Import AiKeysManager.

(** C6 fails on the code.  In every state that a running server reaches,
    the catalog of [getAllKeys] is the [DEFAULT_MODELS] array followed by
    the persisted models whose id is not in that array, and every built-in
    model is in it.  But the array is not fixed: when the record has no list
    of models of its own, [addModel] pushes the new model onto the array
    itself.  After that the catalog lists the model although it is no
    built-in model and, when the file could not be written or has been
    removed since, is not persisted either. *)
Theorem catalog_lists_pushed_model (st : store) (m : Model) (w' : bool) :
  reachable st ->
  match disk st with Stored r => p_models r = None | _ => True end ->
  id m <> [] -> name m <> [] -> provider m <> [] ->
  existsb (has_id (id m)) (DEFAULT_MODELS st) = false ->
  let st' := snd (addModel st m) in
  let removed := mkStore (DEFAULT_MODELS st') Absent w' in
  (ki_models (getAllKeys st')
   = DEFAULT_MODELS st'
     ++ filter (fun x => negb (arr_includes (id x) (map id (DEFAULT_MODELS st'))))
               (persisted_models st')
   /\ forall x, In x DEFAULT_MODELS_literal -> In x (ki_models (getAllKeys st')))
  /\ reachable st' /\ reachable removed
  /\ ~ In m DEFAULT_MODELS_literal
  /\ (writable st = false ->
      In m (ki_models (getAllKeys st')) /\ ~ In m (persisted_models st'))
  /\ In m (ki_models (getAllKeys removed)) /\ persisted_models removed = [].
Proof.
  intros R Hd Hi Hn Hp He. cbv zeta.
  assert (R' : reachable (snd (addModel st m))) by now apply after_addModel.
  assert (D' : DEFAULT_MODELS (snd (addModel st m)) = DEFAULT_MODELS st ++ [m]).
  { rewrite (@RegistryFacts.addModel_without_list st m Hd Hi Hn Hp He). cbn [snd].
    now rewrite RegistryFacts.builtins_kept_step_save. }
  split; [split|].
  - apply RegistryFacts.catalog_eq.
  - intros x Hx. rewrite RegistryFacts.catalog_eq. apply in_app_iff. left.
    destruct (RegistryFacts.builtins_prefix R') as [ext ->].
    apply in_app_iff. now left.
  - split; [exact R'|]. split; [now apply after_disk|].
    split; [|split].
    + intros Hin. destruct (RegistryFacts.builtins_prefix R) as [ext E].
      assert (Hex : existsb (has_id (id m)) (DEFAULT_MODELS st) = true).
      { apply existsb_exists. exists m. split.
        - rewrite E. apply in_app_iff. now left.
        - apply JsFacts.eqb_refl. }
      congruence.
    + intros W. split.
      * rewrite RegistryFacts.catalog_eq, D'. apply in_app_iff. left.
        apply in_app_iff. right. now left.
      * rewrite (@RegistryFacts.addModel_without_list st m Hd Hi Hn Hp He). cbn [snd].
        unfold saveKeysDB. cbn [writable]. rewrite W. cbn [snd].
        unfold persisted_models. cbn [disk].
        destruct (disk st) as [| |r]; try (intros []). now rewrite Hd.
    + split; [|reflexivity].
      rewrite RegistryFacts.catalog_eq. cbn [DEFAULT_MODELS]. rewrite D'.
      apply in_app_iff. left. apply in_app_iff. right. now left.
Qed.

(** C6 on a server without a file, in a directory that cannot be written. *)
Lemma catalog_lists_pushed_model_witness :
  In (model "my-model" "Mine" "openai")
     (ki_models (getAllKeys
        (snd (addModel (mkStore DEFAULT_MODELS_literal Absent false)
                       (model "my-model" "Mine" "openai")))))
  /\ ~ In (model "my-model" "Mine" "openai") DEFAULT_MODELS_literal
  /\ persisted_models
       (snd (addModel (mkStore DEFAULT_MODELS_literal Absent false)
                      (model "my-model" "Mine" "openai")))
     = [].
Proof.
  destruct (@catalog_lists_pushed_model
              (mkStore DEFAULT_MODELS_literal Absent false)
              (model "my-model" "Mine" "openai") false
              (started Absent false) I)
    as [_ [_ [_ [Hb [Hw _]]]]].
  - vm_compute. discriminate.
  - vm_compute. discriminate.
  - vm_compute. discriminate.
  - reflexivity.
  - split; [exact (proj1 (Hw eq_refl))|]. split; [exact Hb|reflexivity].
Defined.

(** C5 fails on the code.  An id that the catalog of [getAllKeys] does not
    list is rejected with [Model not found] in every state; but with a file
    whose [models] lacks the built-in [gpt-5], the catalog lists [gpt-5] and
    [setActiveModel] throws for it all the same, leaving the state as it
    was. *)
Theorem setActiveModel_rejects_listed_builtin (st : store) (modelId : jsstring) :
  (existsb (has_id modelId) (ki_models (getAllKeys st)) = false ->
   setActiveModel st modelId = (Thrown (lit "Model not found"), st))
  /\ existsb (has_id (lit "gpt-5")) (ki_models (getAllKeys stale)) = true
  /\ setActiveModel stale (lit "gpt-5") = (Thrown (lit "Model not found"), stale).
Proof.
  split; [apply RegistryFacts.setActiveModel_unlisted|].
  split; reflexivity.
Qed.

(** C5 on an id that is in no catalog. *)
Lemma setActiveModel_rejects_listed_builtin_witness :
  setActiveModel stale (lit "no-such-model")
  = (Thrown (lit "Model not found"), stale).
Proof.
  apply (proj1 (setActiveModel_rejects_listed_builtin stale (lit "no-such-model"))).
  reflexivity.
Defined.

End Registry.

(* ================================================================== *)
(** * Facts about the matcher *)
(* ================================================================== *)

Module RegexFacts.

Import Regex.

Lemma run_str (p s : jsstring) (c : caps) (k : cont) :
  run (str p) s c k
  = if startsWith p s then k (skipn (List.length p) s) c else None.
Proof.
  revert s c k. induction p as [|x p IH]; intros s c k; [reflexivity|].
  destruct p as [|y p].
  - simpl. destruct s as [|z s]; [reflexivity|].
    unfold chr. simpl. destruct (x =? z); reflexivity.
  - change (str (x :: y :: p)) with (Seq (chr x) (str (y :: p))).
    cbn [run chr]. destruct s as [|z s]; [reflexivity|].
    cbn [startsWith skipn List.length]. destruct (x =? z); [|reflexivity].
    rewrite IH. reflexivity.
Qed.

Lemma run_str_i (p s : jsstring) (c : caps) (k : cont) :
  run (str_i p) s c k
  = if startsWith (map lower p) (map lower s)
    then k (skipn (List.length p) s) c else None.
Proof.
  revert s c k. induction p as [|x p IH]; intros s c k; [reflexivity|].
  destruct p as [|y p].
  - simpl. destruct s as [|z s]; [reflexivity|].
    simpl. destruct (lower x =? lower z); reflexivity.
  - change (str_i (x :: y :: p)) with (Seq (chr_i x) (str_i (y :: p))).
    cbn [run chr_i]. destruct s as [|z s]; [reflexivity|].
    cbn [startsWith skipn List.length map]. destruct (lower x =? lower z); [|reflexivity].
    rewrite IH. reflexivity.
Qed.

(** A quantified class that needs one more unit fails where none is. *)
Lemma rep_needs_one (p : N -> bool) (lo : nat) (hi : option nat)
      (s : jsstring) (c : caps) (k : cont) :
  match s with [] => True | x :: _ => p x = false end ->
  rep p (S lo) hi s c k = None.
Proof. destruct s as [|x t]; simpl; [reflexivity|]. now intros ->. Qed.

(** A quantified class that may stop does so where no unit fits. *)
Lemma rep_stops (p : N -> bool) (hi : option nat)
      (s : jsstring) (c : caps) (k : cont) :
  match s with [] => True | x :: _ => p x = false end ->
  rep p 0 hi s c k = k s c.
Proof. destruct s as [|x t]; simpl; [reflexivity|]. now intros ->. Qed.

(** Greedy: the whole run is taken when the rest of the pattern accepts
    what follows it. *)
Lemma rep_takes_all (p : N -> bool) (a b : jsstring) (lo : nat)
      (c : caps) (k : cont) (res : jsstring * caps) :
  forallb p a = true ->
  match b with [] => True | y :: _ => p y = false end ->
  (lo <= List.length a)%nat ->
  k b c = Some res ->
  rep p lo None (a ++ b) c k = Some res.
Proof.
  revert lo. induction a as [|x a IH]; intros lo Ha Hb Hlo Hk.
  - simpl in Hlo. assert (lo = 0%nat) by lia. subst lo.
    cbn [app]. rewrite rep_stops; assumption.
  - cbn [forallb] in Ha. apply andb_true_iff in Ha as [Hx Ha].
    cbn [app rep]. rewrite Hx. cbn [hi_allows andb option_map].
    rewrite (IH (Nat.pred lo)); try assumption; [reflexivity|].
    simpl in Hlo. lia.
Qed.

Lemma firstn_consumed {A} (a b : list A) :
  firstn (List.length (a ++ b) - List.length b) (a ++ b) = a.
Proof.
  rewrite length_app, Nat.add_sub.
  rewrite firstn_app, Nat.sub_diag, firstn_all. simpl. apply app_nil_r.
Qed.

Lemma exec_here (r : regex) (s : jsstring) (n : nat) (c : caps) :
  match_here r s = Some (n, c) -> exec r s = Some c.
Proof. destruct s; simpl; now intros ->. Qed.

Lemma exec_next (r : regex) (x : N) (s : jsstring) :
  match_here r (x :: s) = None -> exec r (x :: s) = exec r s.
Proof. simpl. now intros ->. Qed.

Lemma exec_nowhere (r : regex) (s : jsstring) :
  (forall i, match_here r (skipn i s) = None) -> exec r s = None.
Proof.
  induction s as [|x s IH]; intros H.
  - pose proof (H 0%nat) as H0. cbn [skipn] in H0. cbn [exec]. now rewrite H0.
  - rewrite exec_next; [|exact (H 0%nat)].
    apply IH. intros i. exact (H (S i)).
Qed.

Lemma existsb_skipn {A} (f : A -> bool) (i : nat) (s : list A) :
  existsb f s = false -> existsb f (skipn i s) = false.
Proof.
  revert s. induction i as [|i IH]; intros [|x s]; simpl; auto.
  intros H. apply orb_false_iff in H as [_ H]. now apply IH.
Qed.

End RegexFacts.

(* ================================================================== *)
(** * supportsJsonMode *)
(* ================================================================== *)

Module ValidatorFacts.

Import Regex ModelValidator RegexFacts.

Lemma gpt4_here (s : jsstring) :
  match_here re_gpt4_version s
  = if startsWith (lit "gpt-4-") s
    then match run (Group 1 (plus is_digit)) (skipn 6 s) []
                   (fun s' c' => Some (s', c')) with
         | Some (s', c') => Some ((List.length s - List.length s')%nat, c')
         | None => None
         end
    else None.
Proof.
  unfold match_here, re_gpt4_version. cbn [run]. rewrite run_str.
  destruct (startsWith (lit "gpt-4-") s); reflexivity.
Qed.

Lemma digit_after_prefix (p s : jsstring) :
  existsb is_digit p = true -> startsWith p s = true -> existsb is_digit s = true.
Proof.
  intros Hp Hs. rewrite (JsFacts.startsWith_split _ _ Hs), existsb_app, Hp.
  reflexivity.
Qed.

Lemma gpt4_no_digit (s : jsstring) :
  existsb is_digit s = false -> exec re_gpt4_version s = None.
Proof.
  intros H. apply exec_nowhere. intros i. rewrite gpt4_here.
  destruct (startsWith (lit "gpt-4-") (skipn i s)) eqn:E; [|reflexivity].
  apply digit_after_prefix in E; [|reflexivity].
  rewrite (existsb_skipn _ i _ H) in E. discriminate.
Qed.

Lemma gpt4_unversioned (rest : jsstring) :
  existsb is_digit rest = false ->
  exec re_gpt4_version (lit "gpt-4-" ++ rest) = None.
Proof.
  intros H.
  change (lit "gpt-4-" ++ rest) with (103 :: 112 :: 116 :: 45 :: 52 :: 45 :: rest).
  rewrite exec_next.
  2:{ rewrite gpt4_here. cbn [startsWith lit]. simpl.
      destruct rest as [|x t]; [reflexivity|].
      simpl in H. apply orb_false_iff in H as [Hx _]. simpl. now rewrite Hx. }
  do 5 (rewrite exec_next; [|now rewrite gpt4_here]).
  now apply gpt4_no_digit.
Qed.

Lemma includes_first (d : N) (p s : jsstring) :
  includes (d :: p) s = true -> In d s.
Proof.
  induction s as [|x s IH]; simpl; [discriminate|].
  destruct (d =? x) eqn:E.
  - intros _. left. apply N.eqb_eq in E. congruence.
  - simpl. intros H. right. now apply IH.
Qed.

Lemma includes_digit (d : N) (p s : jsstring) :
  is_digit d = true -> existsb is_digit s = false -> includes (d :: p) s = false.
Proof.
  intros Hd Hs. destruct (includes (d :: p) s) eqn:E; [|reflexivity].
  apply includes_first in E.
  assert (existsb is_digit s = true) by (apply existsb_exists; eauto).
  congruence.
Qed.

Lemma gpt35_unversioned (rest : jsstring) :
  existsb is_digit rest = false ->
  exec_group re_gpt35_version 1 (lit "gpt-3.5-turbo" ++ rest) = None
  /\ includes (lit "1106") (lit "gpt-3.5-turbo" ++ rest) = false
  /\ includes (lit "0125") (lit "gpt-3.5-turbo" ++ rest) = false
  /\ includes (lit "16") (lit "gpt-3.5-turbo" ++ rest) = false.
Proof.
  intros H. split; [|repeat split].
  - assert (E : exists n, match_here re_gpt35_version (lit "gpt-3.5-turbo" ++ rest)
                           = Some (n, [])).
    { change (lit "gpt-3.5-turbo" ++ rest)
        with (103 :: 112 :: 116 :: 45 :: 51 :: 46 :: 53 :: 45 :: 116 :: 117 :: 114
                  :: 98 :: 111 :: rest).
      unfold match_here, re_gpt35_version.
      destruct rest as [|x [|y t]].
      - eexists. reflexivity.
      - cbn -[N.eqb N.leb]. destruct (45 =? x); eexists; reflexivity.
      - simpl in H. apply orb_false_iff in H as [_ H].
        apply orb_false_iff in H as [Hy _].
        cbn -[N.eqb N.leb is_digit]. destruct (45 =? x); [|eexists; reflexivity].
        rewrite Hy. eexists; reflexivity. }
    destruct E as [n E]. unfold exec_group. now rewrite (exec_here _ _ E).
  - simpl. now apply includes_digit.
  - simpl. now apply includes_digit.
  - simpl. now apply includes_digit.
Qed.

End ValidatorFacts.

Section JsonMode.

Import Regex ModelValidator.

(** C8: the four named models get the stated answers, so does the bare
    [gpt-3.5-turbo], and a model is reported as supporting JSON mode only
    when its normalised name is listed explicitly, belongs to the gpt-5
    family, or carries a digit after the family name [gpt-4-] or
    [gpt-3.5-turbo]: an unversioned name that is not listed gets [false].
    The function is a total function of the string. *)
Theorem supportsJsonMode_versions (modelId : jsstring) :
  supportsJsonMode (lit "gpt-4") = false
  /\ supportsJsonMode (lit "gpt-4o") = true
  /\ supportsJsonMode (lit "gpt-4-1106-preview") = true
  /\ supportsJsonMode (lit "gpt-4-0314") = false
  /\ supportsJsonMode (lit "gpt-3.5-turbo") = false
  /\ (supportsJsonMode modelId = true ->
      In (normalize modelId) explicitly_listed
      \/ startsWith (lit "gpt-5") (normalize modelId) = true
      \/ (startsWith (lit "gpt-4-") (normalize modelId) = true
          /\ existsb is_digit (skipn 6 (normalize modelId)) = true)
      \/ (startsWith (lit "gpt-3.5-turbo") (normalize modelId) = true
          /\ existsb is_digit (skipn 13 (normalize modelId)) = true)).
Proof.
  do 5 (split; [reflexivity|]).
  unfold supportsJsonMode. destruct modelId as [|m0 ms]; [discriminate|].
  generalize (normalize (m0 :: ms)). intros n.
  unfold supportsJsonMode_normalized, explicitly_listed.
  destruct (eqb n (lit "gpt-4o")) eqn:E1.
  { apply JsFacts.eqb_eq in E1. intros _. left. subst n. simpl. tauto. }
  destruct (eqb n (lit "gpt-4o-mini")) eqn:E2.
  { apply JsFacts.eqb_eq in E2. intros _. left. subst n. simpl. tauto. }
  destruct (eqb n (lit "gpt-4-turbo")) eqn:E3.
  { apply JsFacts.eqb_eq in E3. intros _. left. subst n. simpl. tauto. }
  destruct (eqb n (lit "gpt-4-turbo-preview")) eqn:E4.
  { apply JsFacts.eqb_eq in E4. intros _. left. subst n. simpl. tauto. }
  cbn [orb].
  destruct (startsWith (lit "gpt-4-") n) eqn:S4.
  { intros H. right. right. left. split; [reflexivity|].
    destruct (existsb is_digit (skipn 6 n)) eqn:D; [reflexivity|].
    rewrite (JsFacts.startsWith_split _ _ S4) in H.
    change (List.length (lit "gpt-4-")) with 6%nat in H.
    rewrite (ValidatorFacts.gpt4_unversioned _ D) in H. discriminate. }
  destruct (eqb n (lit "gpt-4")); [discriminate|].
  destruct (startsWith (lit "gpt-3.5-turbo") n) eqn:S35.
  { intros H. right. right. right. split; [reflexivity|].
    destruct (existsb is_digit (skipn 13 n)) eqn:D; [reflexivity|].
    rewrite (JsFacts.startsWith_split _ _ S35) in H.
    change (List.length (lit "gpt-3.5-turbo")) with 13%nat in H.
    destruct (ValidatorFacts.gpt35_unversioned _ D) as [G [I1 [I2 I3]]].
    rewrite G, I1, I2, I3 in H. discriminate. }
  destruct (startsWith (lit "gpt-5") n) eqn:S5.
  { intros _. right. left. reflexivity. }
  rewrite !orb_false_r.
  destruct (eqb n (lit "gpt-5")) eqn:E5.
  { apply JsFacts.eqb_eq in E5. subst n. discriminate S5. }
  destruct (eqb n (lit "gpt-5.1")) eqn:E6.
  { apply JsFacts.eqb_eq in E6. subst n. discriminate S5. }
  destruct (eqb n (lit "gpt-5-mini")) eqn:E7.
  { apply JsFacts.eqb_eq in E7. subst n. discriminate S5. }
  discriminate.
Qed.

(** C8 at a versioned name written with capitals and spaces. *)
Lemma supportsJsonMode_versions_witness :
  In (normalize (lit " GPT-4-1106-Preview ")) explicitly_listed
  \/ startsWith (lit "gpt-5") (normalize (lit " GPT-4-1106-Preview ")) = true
  \/ (startsWith (lit "gpt-4-") (normalize (lit " GPT-4-1106-Preview ")) = true
      /\ existsb is_digit (skipn 6 (normalize (lit " GPT-4-1106-Preview "))) = true)
  \/ (startsWith (lit "gpt-3.5-turbo") (normalize (lit " GPT-4-1106-Preview ")) = true
      /\ existsb is_digit (skipn 13 (normalize (lit " GPT-4-1106-Preview "))) = true).
Proof.
  apply (supportsJsonMode_versions (lit " GPT-4-1106-Preview ")).
  reflexivity.
Defined.

End JsonMode.

(* ================================================================== *)
(** * The handlers *)
(* ================================================================== *)

Module HandlerFacts.

Import Validation Server.

Lemma analyze_answer_limit (body : analyzeAnswerBody) (v : sanitized) (w : world) :
  validateAnalyzeAnswerRequest body = Valid v ->
  limitReached v = true ->
  analyze_answer body w = (Returned TDZ_RESPONSE, w).
Proof.
  intros Hv Hl. unfold analyze_answer. rewrite Hv, Hl. reflexivity.
Qed.

Lemma sanitize_empty : sanitizeString [] = [].
Proof. reflexivity. Qed.

Lemma valid_model (body : analyzeAnswerBody) (v : sanitized) :
  validateAnalyzeAnswerRequest body = Valid v ->
  model v = sanitizeString (or_empty (b_model body)).
Proof.
  unfold validateAnalyzeAnswerRequest.
  destruct (_ ++ _ ++ _); [|discriminate].
  intros H. injection H as <-. reflexivity.
Qed.

Lemma safe_active_fresh :
  ModelValidator.getSafeModel (AiKeysManager.getActiveModel AiKeysManager.fresh)
  = lit "gpt-4o-mini".
Proof. reflexivity. Qed.

(** Whatever it is given, [getSafeModel] answers with a confirmed model. *)
Lemma getSafeModel_confirmed (modelId : jsstring) :
  In (ModelValidator.getSafeModel modelId) ModelValidator.confirmedAvailableModels.
Proof.
  unfold ModelValidator.getSafeModel, ModelValidator.getSafeModel_log.
  destruct (arr_includes modelId ModelValidator.confirmedAvailableModels) eqn:E.
  - now apply JsFacts.arr_includes_In in E.
  - destruct modelId as [|c r]; [left; reflexivity|].
    destruct (startsWith (lit "gpt-") (c :: r) || startsWith (lit "o") (c :: r));
      left; reflexivity.
Qed.

Lemma confirmed_not_default (m : jsstring) :
  In m ModelValidator.confirmedAvailableModels -> m <> lit "gpt-5-mini".
Proof.
  intros H E. subst m. simpl in H.
  repeat (destruct H as [H|H]; [discriminate H|]). exact H.
Qed.

Lemma modelToUse_fresh_default :
  modelToUse [] AiKeysManager.fresh = lit "gpt-4o-mini".
Proof. reflexivity. Qed.

Lemma getApiKey_fresh (decryptFromStorage : jsstring -> outcome jsstring)
    (provider : jsstring) :
  AiKeysManager.getApiKey decryptFromStorage AiKeysManager.fresh provider = None.
Proof.
  unfold AiKeysManager.getApiKey, AiKeysManager.get_property.
  cbn [AiKeysManager.fresh AiKeysManager.loadKeysDB AiKeysManager.disk
       AiKeysManager.keys AiKeysManager.lookup].
  now destruct (arr_includes provider AiKeysManager.Object_prototype_names).
Qed.

(** Apart from the executive summary of the insights, a handler that names a
    model names a confirmed one, in every state of the registry. *)
Lemma model_named_confirmed (decryptFromStorage : jsstring -> outcome jsstring)
    (site : call_site) (model : jsstring) (st : AiKeysManager.store) (m : jsstring) :
  site <> InsightsExecutiveSummary ->
  model_named decryptFromStorage site model st = Returned (Some m) ->
  In m ModelValidator.confirmedAvailableModels.
Proof.
  intros Hs. unfold model_named.
  destruct site; try contradiction;
    try destruct (noApiKey _);
    intros H; try discriminate H; injection H as <-;
    try apply getSafeModel_confirmed; left; reflexivity.
Qed.

(** Without a stored key no handler behind a key check reaches its call. *)
Lemma model_named_fresh (decryptFromStorage : jsstring -> outcome jsstring)
    (site : call_site) (model m : jsstring) :
  model_named decryptFromStorage site model AiKeysManager.fresh = Returned (Some m) ->
  m = modelToUse model AiKeysManager.fresh.
Proof.
  unfold model_named. rewrite getApiKey_fresh. cbn [noApiKey].
  destruct site; intros H; try discriminate H; now injection H as <-.
Qed.

Ltac one_call :=
  right; eexists; split; [reflexivity | cbn [rq_model requestFor]; reflexivity].

Ltac step_world :=
  cbn [registry promptSettings llm llm_calls fst snd read_binding ret or_default].

(** A run of the answer analysis makes no call, or one call that names
    [modelToUse] of the sanitised [model] of the request. *)
Lemma analyze_answer_names (body : analyzeAnswerBody) (w : world) :
  calls_added w (snd (analyze_answer body w)) []
  \/ exists rq, calls_added w (snd (analyze_answer body w)) [rq]
                /\ rq_model rq
                   = modelToUse (sanitizeString (or_empty (b_model body))) (registry w).
Proof.
  destruct w as [reg ps ask calls].
  unfold analyze_answer, calls_added, modelToUse.
  destruct (validateAnalyzeAnswerRequest body) as [errors|v] eqn:Hv.
  - left. reflexivity.
  - rewrite <- (valid_model _ Hv).
    destruct (limitReached v); [left; reflexivity|].
    unfold try_catch, bind, promptOrStored, getCurrentModel, create, lift, ret.
    destruct (customPrompt v) as [|c p]; step_world.
    + destruct (or_empty (interviewPrompt ps)) as [|c' p']; [left; reflexivity|].
      destruct (model v) as [|c0 m0]; step_world;
        (destruct (ask _) as [message|content parse]; [one_call|]);
        step_world;
        match goal with |- context [checkNextAction ?a ?b ?c] =>
          destruct (checkNextAction a b c) end; one_call.
    + destruct (model v) as [|c0 m0]; step_world;
        (destruct (ask _) as [message|content parse]; [one_call|]);
        step_world;
        match goal with |- context [checkNextAction ?a ?b ?c] =>
          destruct (checkNextAction a b c) end; one_call.
Qed.

(** The three ways in which a run of the first-question handler goes. *)
Lemma generate_first_question_run (body : firstQuestionBody) (w : world) :
  (exists b, generate_first_question body w = (Returned (Respond 400 b), w))
  \/ ((not_a_string (fq_customPrompt body) = true
       \/ not_a_string (fq_model body) = true)
      /\ exists message,
           generate_first_question body w
           = (Returned (Respond 500
                (error_body (lit "Failed to generate first question") message)), w))
  \/ (not_a_string (fq_customPrompt body) = false
      /\ not_a_string (fq_model body) = false
      /\ let rq :=
           requestFor (modelToUse (string_or_empty (fq_model body)) (registry w))
             (firstQuestionPrompt
                (or_default (string_or_empty (fq_customPrompt body))
                   (or_empty (interviewPrompt (promptSettings w))))
                (fq_objective body)
                (match fq_demographicData body with Some d => d | None => [] end)
                (fq_desiredInsights body) (fq_keyQuestions body)
                (fq_hypothesis body))
             (Some 500%N) in
         generate_first_question body w
         = (match llm w rq with
            | LlmError message =>
                Returned (Respond 500
                  (error_body (lit "Failed to generate first question") message))
            | LlmReply content parse =>
                match firstQuestionResponse content parse (rq_model rq)
                        (ModelValidator.getSafeModel
                           (AiKeysManager.getActiveModel (registry w))) with
                | Returned r => Returned r
                | Thrown e =>
                    Returned (Respond 500
                      (error_body (lit "Failed to generate first question") e))
                end
            end,
            mkWorld (registry w) (promptSettings w) (llm w) (rq :: llm_calls w))).
Proof.
  destruct w as [reg ps ask calls].
  unfold generate_first_question, requestedPrompt, replaceable, requestedModel,
    getSafeModelOf, modelToUse.
  destruct (or_empty (fq_objective body)) as [|o os].
  { left. eexists. reflexivity. }
  unfold try_catch, bind, getCurrentModel, create, lift, ret, throw.
  cbn [registry promptSettings llm llm_calls].
  destruct (fq_customPrompt body) as [[|[|]|[|z|z]|[|c p]|l|f]|];
    cbn [truthy negb fst snd not_a_string andb string_or_empty or_default
         registry promptSettings llm llm_calls];
    try (right; left; split; [left; reflexivity|eexists; reflexivity]);
    try (destruct (or_empty (interviewPrompt ps)) as [|c' p'];
         cbn [truthy negb fst snd]; [left; eexists; reflexivity|]);
    (destruct (fq_model body) as [[|[|]|[|z'|z']|[|c0 m0]|l'|f']|];
     cbn [truthy negb fst snd not_a_string andb string_or_empty or_default
          registry promptSettings llm llm_calls];
     try (right; left; split; [right; reflexivity|eexists; reflexivity]);
     right; right; (split; [reflexivity|]); (split; [reflexivity|]);
     cbv zeta; cbn [rq_model requestFor];
     (destruct (ask _) as [message|content parse]; [reflexivity|]);
     cbn [fst snd registry];
     match goal with |- context [firstQuestionResponse ?a ?b ?c ?d] =>
       destruct (firstQuestionResponse a b c d) end; reflexivity).
Qed.


Lemma falsy_string_or_empty (v : option json) :
  truthy v = false -> string_or_empty v = [].
Proof. destruct v as [[| | |[|c s]| |]|]; try reflexivity; discriminate. Qed.

(** The same for the first question, with the [model] of the request when
    it is a string. *)
Lemma generate_first_question_names (body : firstQuestionBody) (w : world) :
  calls_added w (snd (generate_first_question body w)) []
  \/ exists rq, calls_added w (snd (generate_first_question body w)) [rq]
                /\ rq_model rq
                   = modelToUse (string_or_empty (fq_model body)) (registry w).
Proof.
  unfold calls_added.
  destruct (generate_first_question_run body w)
    as [[b ->]|[[_ [message ->]]|[_ [_ H]]]];
    [left; reflexivity|left; reflexivity|].
  cbv zeta in H. rewrite H. right. eexists. split; reflexivity.
Qed.

(** On the fresh registry [modelToUse] is a confirmed model, which the active
    model is not, and it is the fallback when the request names no model. *)
Lemma modelToUse_replaced (requested model : jsstring) (w : world) (rq : llm_request) :
  registry w = AiKeysManager.fresh ->
  (requested = [] -> model = []) ->
  rq_model rq = modelToUse model (registry w) ->
  In (rq_model rq) ModelValidator.confirmedAvailableModels
  /\ rq_model rq <> AiKeysManager.getActiveModel (registry w)
  /\ (requested = [] -> rq_model rq = lit "gpt-4o-mini").
Proof.
  intros Hr Hm Hq. rewrite Hq, Hr. split; [|split].
  - apply getSafeModel_confirmed.
  - apply confirmed_not_default, getSafeModel_confirmed.
  - intros E. now rewrite (Hm E).
Qed.

Lemma new_calls_added (before after : world) (rqs : list llm_request) :
  calls_added before after rqs -> new_calls before after = rqs.
Proof.
  unfold calls_added, new_calls. intros ->. apply RegexFacts.firstn_consumed.
Qed.

End HandlerFacts.

Section Handlers.

Import Validation Server.

(** C1 fails on the code: every request that passes validation and has
    reached its limit is answered with status 500 and the error of reading
    [modelToUse] before its declaration, not with a [complete] action; the
    world is unchanged, so the provider is not called. *)
Theorem analyze_answer_limit_reached_fails
    (body : analyzeAnswerBody) (v : sanitized) (w : world) :
  validateAnalyzeAnswerRequest body = Valid v ->
  limitReached v = true ->
  analyze_answer body w = (Returned TDZ_RESPONSE, w)
  /\ status_of (fst (analyze_answer body w)) = Some 500
  /\ response_field (lit "nextAction") (fst (analyze_answer body w)) = None
  /\ llm_calls (snd (analyze_answer body w)) = llm_calls w.
Proof.
  intros Hv Hl.
  rewrite (HandlerFacts.analyze_answer_limit body w Hv Hl).
  repeat split; reflexivity.
Qed.

(** C1 on the request with five questions asked out of five. *)
Lemma analyze_answer_limit_reached_fails_witness :
  analyze_answer limit_request sample_world = (Returned TDZ_RESPONSE, sample_world)
  /\ status_of (fst (analyze_answer limit_request sample_world)) = Some 500
  /\ response_field (lit "nextAction") (fst (analyze_answer limit_request sample_world))
     = None
  /\ llm_calls (snd (analyze_answer limit_request sample_world))
     = llm_calls sample_world.
Proof.
  eapply (@analyze_answer_limit_reached_fails limit_request _ sample_world).
  - vm_compute. reflexivity.
  - reflexivity.
Defined.

(** After the first key is saved the active model is still [gpt-5-mini], and
    the executive summary of the insights, which does not go through
    [getSafeModel], names it. *)
Lemma executive_summary_names_active_model
    (encryptForStorage decryptFromStorage : jsstring -> outcome jsstring)
    (c : N) (e : jsstring) :
  encryptForStorage (lit "sk-test") = Returned (c :: e) ->
  decryptFromStorage (c :: e) = Returned (lit "sk-test") ->
  AiKeysManager.getActiveModel (keyed encryptForStorage) = lit "gpt-5-mini"
  /\ model_named decryptFromStorage InsightsExecutiveSummary []
                 (keyed encryptForStorage)
     = Returned (Some (lit "gpt-5-mini")).
Proof.
  intros He Hd. unfold keyed, AiKeysManager.saveApiKey.
  cbn [lit list_ascii_of_string map] in He |- *. rewrite He.
  split; [reflexivity|].
  unfold model_named, AiKeysManager.getApiKey.
  cbn [snd AiKeysManager.saveKeysDB AiKeysManager.fresh AiKeysManager.writable
       AiKeysManager.loadKeysDB AiKeysManager.disk AiKeysManager.keys
       AiKeysManager.p_keys].
  match goal with |- context [AiKeysManager.get_property ?k ?o] =>
    change (AiKeysManager.get_property k o)
      with (AiKeysManager.OwnProperty (c :: e)) end.
  cbv iota beta. rewrite Hd. reflexivity.
Qed.

(** C10: without a file the active model is [gpt-5-mini], which is not in
    the allow-list, so [getSafeModel] turns it into [gpt-4o-mini].  On that
    registry every handler of the server that reaches its call of the
    provider names a model of the allow-list, hence not the active model, and
    names [gpt-4o-mini] when the request has no model of its own; the same
    holds of every call that a run of the answer-analysis and first-question
    handlers makes. *)
Theorem fresh_registry_model_is_replaced
    (decryptFromStorage : jsstring -> outcome jsstring)
    (site : call_site) (model : jsstring)
    (body : analyzeAnswerBody) (first : firstQuestionBody) (w : world) :
  AiKeysManager.getActiveModel AiKeysManager.fresh = lit "gpt-5-mini"
  /\ arr_includes (lit "gpt-5-mini") ModelValidator.confirmedAvailableModels = false
  /\ ModelValidator.getSafeModel (AiKeysManager.getActiveModel AiKeysManager.fresh)
     = lit "gpt-4o-mini"
  /\ ModelValidator.getSafeModel (AiKeysManager.getActiveModel AiKeysManager.fresh)
     <> AiKeysManager.getActiveModel AiKeysManager.fresh
  /\ (forall m,
        model_named decryptFromStorage site model AiKeysManager.fresh
        = Returned (Some m) ->
        In m ModelValidator.confirmedAvailableModels
        /\ m <> AiKeysManager.getActiveModel AiKeysManager.fresh
        /\ (model = [] -> m = lit "gpt-4o-mini"))
  /\ (registry w = AiKeysManager.fresh ->
      Forall (fun rq =>
                In (rq_model rq) ModelValidator.confirmedAvailableModels
                /\ rq_model rq <> AiKeysManager.getActiveModel (registry w)
                /\ (or_empty (b_model body) = [] -> rq_model rq = lit "gpt-4o-mini"))
             (new_calls w (snd (analyze_answer body w))))
  /\ (registry w = AiKeysManager.fresh ->
      Forall (fun rq =>
                In (rq_model rq) ModelValidator.confirmedAvailableModels
                /\ rq_model rq <> AiKeysManager.getActiveModel (registry w)
                /\ (truthy (fq_model first) = false -> rq_model rq = lit "gpt-4o-mini"))
             (new_calls w (snd (generate_first_question first w)))).
Proof.
  do 3 (split; [reflexivity|]). split; [discriminate|].
  split; [|split]; [intros m H | intros Hr | intros Hr].
  - apply HandlerFacts.model_named_fresh in H. subst m. split; [|split].
    + apply HandlerFacts.getSafeModel_confirmed.
    + apply HandlerFacts.confirmed_not_default, HandlerFacts.getSafeModel_confirmed.
    + now intros ->.
  - destruct (HandlerFacts.analyze_answer_names body w) as [H|[rq [H Hq]]];
      rewrite (HandlerFacts.new_calls_added H); [apply Forall_nil|].
    apply Forall_cons; [|apply Forall_nil].
    apply (@HandlerFacts.modelToUse_replaced (or_empty (b_model body))
             (sanitizeString (or_empty (b_model body))) w rq Hr);
      [now intros ->|exact Hq].
  - destruct (HandlerFacts.generate_first_question_names first w) as [H|[rq [H Hq]]];
      rewrite (HandlerFacts.new_calls_added H); [apply Forall_nil|].
    apply Forall_cons; [|apply Forall_nil].
    destruct (@HandlerFacts.modelToUse_replaced (string_or_empty (fq_model first))
                (string_or_empty (fq_model first)) w rq Hr (fun E => E) Hq)
      as [H1 [H2 H3]].
    split; [exact H1|]. split; [exact H2|].
    intros T. apply H3. now apply HandlerFacts.falsy_string_or_empty.
Qed.

(** C10 on requests that reach the provider, and at the chat handler. *)
Lemma fresh_registry_model_is_replaced_witness :
  List.length (new_calls sample_world (snd (analyze_answer open_request sample_world)))
  = 1%nat
  /\ Forall (fun rq => rq_model rq = lit "gpt-4o-mini"
                       /\ rq_model rq
                          <> AiKeysManager.getActiveModel (registry sample_world))
            (new_calls sample_world (snd (analyze_answer open_request sample_world)))
  /\ Forall (fun rq => rq_model rq = lit "gpt-4o-mini"
                       /\ rq_model rq
                          <> AiKeysManager.getActiveModel (registry sample_world))
            (new_calls sample_world
                       (snd (generate_first_question first_request sample_world)))
  /\ model_named (fun _ => Thrown []) ChatAi [] AiKeysManager.fresh
     = Returned (Some (lit "gpt-4o-mini"))
  /\ lit "gpt-4o-mini" <> AiKeysManager.getActiveModel AiKeysManager.fresh.
Proof.
  pose proof (fresh_registry_model_is_replaced (fun _ => Thrown []) ChatAi []
                open_request first_request sample_world)
    as [_ [_ [_ [_ [Hsite [Hanswer Hfirst]]]]]].
  split; [vm_compute; reflexivity|].
  split; [|split; [|split; [reflexivity|]]].
  - eapply Forall_impl; [|apply Hanswer; reflexivity].
    intros rq [_ [Hn He]]. split; [apply He; reflexivity|exact Hn].
  - eapply Forall_impl; [|apply Hfirst; reflexivity].
    intros rq [_ [Hn He]]. split; [apply He; reflexivity|exact Hn].
  - apply (Hsite (lit "gpt-4o-mini")). reflexivity.
Defined.

End Handlers.

(* ================================================================== *)
(** * Recovery of the first question *)
(* ================================================================== *)

Module RecoveryFacts.

Import Regex Validation Server RegexFacts.

Lemma startsWith_nil_r (p : jsstring) : startsWith p [] = true -> p = [].
Proof. destruct p; [reflexivity|discriminate]. Qed.

Lemma includes_here (p s : jsstring) :
  includes p s = false -> startsWith p s = false.
Proof. destruct s; simpl; intros H; now apply orb_false_iff in H as [H _]. Qed.

Lemma includes_tail (p : jsstring) (x : N) (s : jsstring) :
  includes p (x :: s) = false -> includes p s = false.
Proof. simpl. intros H. now apply orb_false_iff in H as [_ H]. Qed.

Lemma includes_skipn (p s : jsstring) (i : nat) :
  includes p s = false -> startsWith p (skipn i s) = false.
Proof.
  revert s. induction i as [|i IH]; intros s H.
  - now apply includes_here.
  - destruct s as [|x s]; [now apply includes_here|].
    apply IH. eapply includes_tail, H.
Qed.

(** A prefix test on [a ++ b] succeeds inside [a] or runs over into [b]. *)
Lemma startsWith_straddle (p a b : jsstring) :
  startsWith p (a ++ b) = true ->
  startsWith p a = true
  \/ ((List.length a < List.length p)%nat
      /\ startsWith (skipn (List.length a) p) b = true).
Proof.
  revert a. induction p as [|x p IH]; intros a H; [now left|].
  destruct a as [|y a].
  - right. split; [simpl; lia | exact H].
  - simpl in H. apply andb_true_iff in H as [Hxy H].
    destruct (IH _ H) as [H1 | [H1 H2]].
    + left. simpl. now rewrite Hxy.
    + right. split; [simpl; lia | exact H2].
Qed.

(** No occurrence of the word starts in [a] and ends in a text that begins
    with the letter q. *)
Lemma occ_no_straddle (a z : jsstring) :
  a <> [] -> occ a = false -> occ (a ++ 113 :: z) = false.
Proof.
  intros Ha H. unfold occ in *. rewrite map_app.
  destruct (startsWith (lit "question") (map lower a ++ map lower (113 :: z))) eqn:E;
    [|reflexivity].
  apply startsWith_straddle in E as [E | [E1 E2]]; [congruence|].
  rewrite length_map in E1, E2.
  destruct a as [|a0 a]; [contradiction|].
  do 7 (destruct a as [|? a]; [discriminate E2|]).
  simpl in E1. lia.
Qed.

(** The word is not used before the labelled text. *)
Lemma occ_in_pre (pre post : jsstring) (i : nat) :
  names_question pre = false ->
  (i < List.length pre)%nat -> occ (skipn i (pre ++ LABELLED ++ post)) = false.
Proof.
  unfold names_question. revert i.
  induction pre as [|c a IH]; intros i Hq Hi; [simpl in Hi; lia|].
  destruct i as [|i].
  - cbn [skipn]. apply (occ_no_straddle (a := c :: a)); [discriminate|].
    now apply includes_here.
  - cbn [skipn app]. apply IH; [|simpl in Hi; lia].
    cbn [map] in Hq. eapply includes_tail, Hq.
Qed.

Lemma startsWith_app_l (p q s : jsstring) :
  startsWith (p ++ q) s = true -> startsWith p s = true.
Proof.
  revert s. induction p as [|x p IH]; intros s H; [reflexivity|].
  destruct s as [|y s]; [discriminate|]. simpl in *.
  apply andb_true_iff in H as [Hxy H]. rewrite Hxy. simpl. now apply IH.
Qed.

Lemma startsWith_lower (p s : jsstring) :
  startsWith p s = true -> startsWith (map lower p) (map lower s) = true.
Proof.
  revert s. induction p as [|x p IH]; intros s H; [reflexivity|].
  destruct s as [|y s]; [discriminate|]. simpl in *.
  apply andb_true_iff in H as [Hxy H]. apply N.eqb_eq in Hxy. subst y.
  rewrite N.eqb_refl. simpl. now apply IH.
Qed.

Lemma skipn_S_tail (i : nat) (s : jsstring) (y : N) (t : jsstring) :
  skipn i s = y :: t -> skipn (S i) s = t.
Proof.
  revert s. induction i as [|i IH]; intros s H.
  - simpl in H. subst s. reflexivity.
  - destruct s as [|x s]; [discriminate|]. cbn [skipn] in *. now apply IH.
Qed.

Lemma exec_skip (r : regex) (a b : jsstring) :
  (forall i, (i < List.length a)%nat -> match_here r (skipn i (a ++ b)) = None) ->
  exec r (a ++ b) = exec r b.
Proof.
  induction a as [|x a IH]; intros H; [reflexivity|].
  cbn [app]. rewrite exec_next.
  - apply IH. intros i Hi. apply (H (S i)). simpl. lia.
  - apply (H 0%nat). simpl. lia.
Qed.

Lemma quoted_tight_here (s : jsstring) :
  startsWith quoted_label s = false -> match_here re_quoted_tight s = None.
Proof.
  intros H. unfold match_here, re_quoted_tight. cbn [seqs run]. rewrite run_str.
  destruct (startsWith (quoted_label ++ lit ":") s) eqn:E; [|reflexivity].
  apply startsWith_app_l in E. congruence.
Qed.

Lemma quoted_here (s : jsstring) :
  startsWith quoted_label s = false -> match_here re_quoted s = None.
Proof.
  intros H. unfold match_here, re_quoted. cbn [seqs run]. rewrite run_str.
  now rewrite H.
Qed.

Lemma loose_here (s : jsstring) :
  occ s = false -> match_here re_loose s = None.
Proof.
  intros H. unfold match_here, re_loose. cbn [seqs run]. rewrite run_str_i.
  unfold occ in H. change (map lower (lit "question")) with (lit "question").
  now rewrite H.
Qed.

Lemma loose_at (post : jsstring) :
  exists n, match_here re_loose (LABELLED ++ post)
            = Some (n, [(1%nat, QUESTION_TEXT)]).
Proof.
  unfold match_here, re_loose. cbn [seqs run]. rewrite run_str_i.
  change (startsWith (map lower (lit "question")) (map lower (LABELLED ++ post)))
    with true. cbv iota.
  change (skipn (List.length (lit "question")) (LABELLED ++ post))
    with ((lit ": " ++ [dq]) ++ QUESTION_TEXT ++ dq :: post).
  unfold star, plus. cbn [run].
  rewrite (@rep_takes_all label_sep (lit ": " ++ [dq])
             (QUESTION_TEXT ++ dq :: post) 0 [] _
             (dq :: post, [(1%nat, QUESTION_TEXT)])).
  - eexists. reflexivity.
  - reflexivity.
  - reflexivity.
  - simpl. lia.
  - rewrite (@rep_takes_all loose_text QUESTION_TEXT (dq :: post) 1 [] _
               (dq :: post, [(1%nat, QUESTION_TEXT)])).
    + reflexivity.
    + reflexivity.
    + reflexivity.
    + simpl. lia.
    + rewrite (firstn_consumed QUESTION_TEXT (dq :: post)). reflexivity.
Qed.

(** Without the quoted label no pattern that begins with it matches. *)
Lemma quoted_absent (s : jsstring) :
  includes quoted_label s = false ->
  exec re_quoted_tight s = None /\ exec re_quoted s = None.
Proof.
  intros H. split; apply exec_nowhere; intros i;
    [apply quoted_tight_here|apply quoted_here]; now apply includes_skipn.
Qed.

(** When no pattern matches before it, the labelled text is what the
    [catch] of [JSON.parse] extracts. *)
Lemma extract_labelled (pre post : jsstring) :
  group1 (or_match (exec re_quoted_tight (pre ++ LABELLED ++ post))
                   (exec re_quoted (pre ++ LABELLED ++ post))) = None ->
  (forall i, (i < List.length pre)%nat ->
             match_here re_loose (skipn i (pre ++ LABELLED ++ post)) = None) ->
  extractFromText (pre ++ LABELLED ++ post)
  = JObj [(lit "question", JStr QUESTION_TEXT)].
Proof.
  intros H1 H3. unfold extractFromText. rewrite H1.
  rewrite exec_skip by exact H3.
  destruct (loose_at post) as [n E]. rewrite (exec_here _ _ E). reflexivity.
Qed.

Lemma reply_not_empty (pre post : jsstring) :
  exists x t, pre ++ LABELLED ++ post = x :: t.
Proof. destruct pre; eexists; eexists; reflexivity. Qed.

Lemma response_of_extracted (x : N) (t q : jsstring) (modelToUse fallback : jsstring) :
  extractFromText (x :: t) = JObj [(lit "question", JStr q)] ->
  blank q = false ->
  recovered (firstQuestionResponse (Some (x :: t)) SyntaxError modelToUse fallback)
  = Some (trim q).
Proof.
  intros H Hb. unfold firstQuestionResponse. cbn [or_empty or_default].
  rewrite H. cbn [get field]. rewrite JsFacts.eqb_refl.
  assert (Hq : q <> []) by (intros ->; discriminate Hb).
  destruct q as [|q0 qs]; [contradiction|].
  cbn [or_value truthy]. rewrite !Hb. reflexivity.
Qed.

End RecoveryFacts.

Module CascadeFacts.

Import Regex Validation Server RegexFacts.

Lemma group1_or (a b : option caps) :
  group1 a = None -> group1 b = None -> group1 (or_match a b) = None.
Proof. destruct a; simpl; auto. Qed.

Lemma nothing_extracted (aiResponse : jsstring) :
  (forall r, In r extractors -> group1 (exec r aiResponse) = None) ->
  extractFromText aiResponse = JObj []
  /\ firstPattern questionPatterns aiResponse [] = [].
Proof.
  intros H. unfold extractors in H. split.
  - unfold extractFromText.
    rewrite group1_or by (apply H; simpl; tauto).
    rewrite (H re_loose) by (simpl; tauto). reflexivity.
  - unfold questionPatterns. cbn [firstPattern].
    rewrite (H re_quoted_i) by (simpl; tauto).
    rewrite (H re_loose_bounded) by (simpl; tauto).
    rewrite (H re_label_bounded) by (simpl; tauto). reflexivity.
Qed.

Lemma blank_trim_nonempty (q : jsstring) : blank q = false -> trim q <> [].
Proof. unfold blank. destruct (trim q); [discriminate|discriminate]. Qed.

(** A successful response never carries an empty question. *)
Lemma recovered_nonempty (content : option jsstring) (parse : parse_outcome)
      (modelToUse fallback q : jsstring) :
  recovered (firstQuestionResponse content parse modelToUse fallback) = Some q ->
  q <> [].
Proof.
  unfold firstQuestionResponse.
  set (aiResponse := or_default (or_empty content) (lit "{}")).
  set (result := match match or_empty content with
                       | [] => Parsed (JObj [])
                       | _ :: _ => parse
                       end with
                 | SyntaxError => extractFromText aiResponse
                 | Parsed v => v
                 end).
  set (question := or_value _ _).
  assert (Hfinal : forall question0 : jsstring,
    recovered
      (if blank question0
       then Returned (Respond 500 (JObj
              [ (lit "error", JStr (lit "AI did not generate a question"));
                (lit "message",
                 JStr (lit "Please try again or check your prompt settings"));
                (lit "debug", JObj
                  [ (lit "hasQuestion", JBool (truthy (get (lit "question") result)));
                    (lit "keys", keys_of result);
                    (lit "responsePreview", JStr (substring0 500 aiResponse));
                    (lit "fullResponse", JStr aiResponse) ]) ]))
       else Returned (Respond 200 (JObj
              [ (lit "success", JBool true);
                (lit "question", JStr (trim question0));
                (lit "reason",
                 match or_value (get (lit "reason") result)
                         (or_value (get (lit "Reason") result)
                            (Some (JStr (lit
                               "Generated by AI based on objective and demographic data")))) with
                 | Some v => v
                 | None => JNull
                 end);
                (lit "model", JStr (or_default modelToUse fallback)) ])))
    = Some q -> q <> []).
  { intros q0. destruct (blank q0) eqn:B; [discriminate|].
    intros H. injection H as <-. now apply blank_trim_nonempty. }
  clearbody question.
  destruct result; try (intros H; discriminate H);
    (destruct (truthy question);
     [ destruct question as [[| | | text | |]|]; try (intros H; discriminate H);
       destruct (blank text); apply Hfinal
     | apply Hfinal ]).
Qed.

End CascadeFacts.


(* ================================================================== *)
(** * Prompt templates *)
(* ================================================================== *)

Module TemplateFacts.

Import Regex Replace Server PromptSpec RegexFacts.

Lemma startsWith_length (p s : jsstring) :
  startsWith p s = true -> (List.length p <= List.length s)%nat.
Proof.
  revert s. induction p as [|x p IH]; intros s H; simpl; [lia|].
  destruct s as [|y s]; [discriminate|]. simpl in *.
  apply andb_true_iff in H as [_ H]. apply IH in H. lia.
Qed.

Lemma match_here_str (p s : jsstring) :
  match_here (str p) s
  = if startsWith p s then Some (List.length p, []) else None.
Proof.
  unfold match_here. rewrite run_str.
  destruct (startsWith p s) eqn:E; [|reflexivity].
  pose proof (startsWith_length _ _ E) as Hl.
  rewrite length_skipn. f_equal. f_equal. lia.
Qed.

Lemma getSubstitution_plain (matched before after replacement : jsstring) :
  no_pattern replacement = true ->
  getSubstitution matched before after replacement = replacement.
Proof.
  induction replacement as [|c r IH]; intros H; [reflexivity|].
  cbn [no_pattern] in H. apply andb_true_iff in H as [Hc Hr].
  apply negb_true_iff in Hc. cbn [getSubstitution].
  destruct (c =? 36) eqn:Ec; [|f_equal; now apply IH].
  destruct r as [|d r']; [reflexivity|].
  cbn [andb] in Hc. unfold special in Hc.
  destruct (d =? 36); [discriminate Hc|].
  destruct (d =? 38); [discriminate Hc|].
  destruct (d =? 96); [discriminate Hc|].
  destruct (d =? 39); [discriminate Hc|].
  f_equal. now apply IH.
Qed.

Section Pass.

Variable n : jsstring.
Variable replacement : jsstring.
Hypothesis Hn : name_ok n = true.
Hypothesis Hplain : no_pattern replacement = true.

Let r : regex := str (placeholder n).

Lemma scan_skip (a rest before : jsstring) :
  replace_scan r replacement before (List.length a) (a ++ rest)
  = replace_scan r replacement (before ++ a) 0 rest.
Proof.
  revert before. induction a as [|c a IH]; intros before.
  - now rewrite app_nil_r.
  - cbn [List.length app replace_scan]. rewrite IH, <- app_assoc. reflexivity.
Qed.

Lemma scan_emit (c : N) (t before : jsstring) :
  startsWith (placeholder n) (c :: t) = false ->
  replace_scan r replacement before 0 (c :: t)
  = c :: replace_scan r replacement (before ++ [c]) 0 t.
Proof.
  intros H. cbn [replace_scan]. unfold r. rewrite match_here_str, H. reflexivity.
Qed.

Lemma scan_token (rest before : jsstring) :
  replace_scan r replacement before 0 (placeholder n ++ rest)
  = replacement ++ replace_scan r replacement (before ++ placeholder n) 0 rest.
Proof.
  change (placeholder n ++ rest) with (123 :: (n ++ lit "}") ++ rest).
  cbn [replace_scan]. unfold r at 1. rewrite match_here_str.
  change (123 :: (n ++ lit "}") ++ rest) with (placeholder n ++ rest).
  rewrite JsFacts.startsWith_app.
  change (List.length (placeholder n)) with (S (List.length (n ++ lit "}"))).
  cbv iota beta.
  rewrite getSubstitution_plain by exact Hplain. f_equal.
  fold r. rewrite scan_skip. rewrite <- app_assoc. reflexivity.
Qed.

(** No placeholder starts at a dead brace. *)
Lemma dead_no_token (m t rest : jsstring) :
  name_ok m = true -> dead t = true ->
  startsWith (m ++ lit "}") (t ++ rest) = false.
Proof.
  revert t. induction m as [|x m IH]; intros t Hm Hd.
  - destruct t as [|y t]; [discriminate Hd|].
    cbn [app lit startsWith]. change (lit "}") with [125].
    cbn [startsWith]. destruct (125 =? y) eqn:E; [|reflexivity].
    apply N.eqb_eq in E. subst y. discriminate Hd.
  - destruct t as [|y t]; [discriminate Hd|].
    cbn [name_ok forallb] in Hm. apply andb_true_iff in Hm as [Hx Hm].
    cbn [app startsWith]. destruct (x =? y) eqn:E; [|reflexivity].
    apply N.eqb_eq in E. subst y. cbn [andb].
    apply IH; [exact Hm|]. unfold dead in *. cbn [after_word] in Hd.
    now rewrite Hx in Hd.
Qed.

Lemma scan_text (t rest before : jsstring) :
  text_ok t = true ->
  replace_scan r replacement before 0 (t ++ rest)
  = t ++ replace_scan r replacement (before ++ t) 0 rest.
Proof.
  revert before. induction t as [|c t IH]; intros before Ht.
  - now rewrite app_nil_r.
  - cbn [text_ok] in Ht. apply andb_true_iff in Ht as [Hc Ht].
    cbn [app]. rewrite scan_emit.
    + rewrite IH by exact Ht. rewrite <- app_assoc. reflexivity.
    + change (placeholder n) with (123 :: (n ++ lit "}")).
      cbn [startsWith]. destruct (123 =? c) eqn:E; [|reflexivity].
      apply N.eqb_eq in E. subst c. cbn [andb].
      now apply dead_no_token.
Qed.

Lemma word_text (m : jsstring) : name_ok m = true -> text_ok (m ++ lit "}") = true.
Proof.
  induction m as [|x m IH]; intros H; [reflexivity|].
  cbn [name_ok forallb] in H. apply andb_true_iff in H as [Hx Hm].
  cbn [app text_ok]. destruct (x =? 123) eqn:E.
  - apply N.eqb_eq in E. subst x. discriminate Hx.
  - now apply IH.
Qed.

Lemma token_eq (m rest : jsstring) :
  name_ok m = true ->
  startsWith (n ++ lit "}") (m ++ lit "}" ++ rest) = true -> n = m.
Proof.
  revert m Hn. clear r. induction n as [|x n' IH]; intros m Hn' Hm H.
  - destruct m as [|y m]; [reflexivity|].
    cbn [name_ok forallb] in Hm. apply andb_true_iff in Hm as [Hy _].
    change (lit "}") with [125] in H. cbn [app startsWith] in H.
    apply andb_true_iff in H as [H _].
    apply N.eqb_eq in H. subst y. discriminate Hy.
  - cbn [name_ok forallb] in Hn'. apply andb_true_iff in Hn' as [Hx Hn'].
    destruct m as [|y m].
    + change (lit "}") with [125] in H. cbn [app startsWith] in H.
      apply andb_true_iff in H as [H _].
      apply N.eqb_eq in H. subst x. discriminate Hx.
    + cbn [name_ok forallb] in Hm. apply andb_true_iff in Hm as [_ Hm].
      cbn [app startsWith] in H. apply andb_true_iff in H as [E H].
      apply N.eqb_eq in E. subst y. f_equal. now apply IH.
Qed.

Lemma scan_other (m rest before : jsstring) :
  name_ok m = true -> eqb n m = false ->
  replace_scan r replacement before 0 (placeholder m ++ rest)
  = placeholder m ++ replace_scan r replacement (before ++ placeholder m) 0 rest.
Proof.
  intros Hm Hne.
  change (placeholder m ++ rest) with (123 :: (m ++ lit "}") ++ rest).
  rewrite scan_emit.
  - rewrite scan_text by now apply word_text.
    unfold placeholder. change (lit "{") with [123].
    rewrite <- !app_assoc. reflexivity.
  - change (placeholder n) with (123 :: (n ++ lit "}")).
    cbn [startsWith]. rewrite N.eqb_refl. cbn [andb].
    destruct (startsWith (n ++ lit "}") ((m ++ lit "}") ++ rest)) eqn:E;
      [|reflexivity].
    rewrite <- app_assoc in E. apply token_eq in E; [|exact Hm].
    apply JsFacts.eqb_neq in Hne. contradiction.
Qed.

Lemma scan_chunks (v cs : list chunk) (before : jsstring) :
  replacement = unparse v ->
  template_ok cs = true ->
  replace_scan r replacement before 0 (unparse cs)
  = unparse (substitute n v cs).
Proof.
  intros Hv. revert before. induction cs as [|c cs IH]; intros before Hcs;
    [reflexivity|].
  cbn [template_ok forallb] in Hcs. apply andb_true_iff in Hcs as [Hc Hcs].
  unfold unparse, substitute. cbn [flat_map]. rewrite flat_map_app.
  fold (unparse cs). fold (substitute n v cs).
  destruct c as [s|m]; cbn [unparse_chunk chunk_ok] in *.
  - rewrite scan_text by exact Hc. cbn [flat_map unparse_chunk].
    rewrite app_nil_r. f_equal. now apply IH.
  - destruct (eqb n m) eqn:E.
    + apply JsFacts.eqb_eq in E. subst m. rewrite scan_token.
      fold (unparse v). rewrite <- Hv. f_equal. now apply IH.
    + rewrite scan_other by assumption. cbn [flat_map unparse_chunk].
      rewrite app_nil_r. f_equal. now apply IH.
Qed.

End Pass.

Lemma substitute_ok (n : jsstring) (v cs : list chunk) :
  template_ok v = true -> template_ok cs = true ->
  template_ok (substitute n v cs) = true.
Proof.
  intros Hv. induction cs as [|c cs IH]; intros Hcs; [reflexivity|].
  cbn [template_ok forallb] in Hcs. apply andb_true_iff in Hcs as [Hc Hcs].
  unfold substitute. cbn [flat_map]. unfold template_ok. rewrite forallb_app.
  apply andb_true_iff. split; [|now apply IH].
  destruct c as [s|m]; [cbn [forallb]; now rewrite Hc|].
  destruct (eqb n m); [exact Hv|]. cbn [forallb]. now rewrite Hc.
Qed.

Lemma render_sequential (values : list (jsstring * list chunk)) (cs : list chunk) :
  Forall value_ok values ->
  template_ok cs = true ->
  render (replacements_of values) (unparse cs) = unparse (sequential values cs).
Proof.
  intros Hv. revert cs. induction Hv as [|[n v] values [Hn [Hv1 Hv2]] _ IH];
    intros cs Hcs; [reflexivity|].
  cbn [fst snd] in *. unfold render, replacements_of, sequential in *.
  cbn [map fold_left fst snd]. unfold replace_g.
  rewrite (@scan_chunks n (unparse v) Hn Hv2 v cs []) by (reflexivity || exact Hcs).
  apply IH. now apply substitute_ok.
Qed.

Lemma assoc_absent {A} (m : jsstring) (l : list (jsstring * A)) :
  ~ In m (map fst l) -> assoc m l = None.
Proof.
  induction l as [|[k v] l IH]; intros H; [reflexivity|].
  cbn [assoc]. destruct (eqb k m) eqn:E.
  - apply JsFacts.eqb_eq in E. subst k. exfalso. apply H. now left.
  - apply IH. intros Hin. apply H. now right.
Qed.

Lemma simultaneous_untouched (values : list (jsstring * list chunk)) (v : list chunk) :
  (forall m, In m (holes v) -> ~ In m (map fst values)) ->
  simultaneous values v = v.
Proof.
  induction v as [|c v IH]; intros H; [reflexivity|].
  unfold simultaneous. cbn [flat_map]. fold (simultaneous values v).
  destruct c as [s|m].
  - cbn [app]. f_equal. apply IH. intros m Hm. apply H. exact Hm.
  - rewrite assoc_absent by (apply H; now left).
    cbn [app]. f_equal. apply IH. intros m' Hm. apply H. now right.
Qed.

Lemma simultaneous_app (values : list (jsstring * list chunk)) (a b : list chunk) :
  simultaneous values (a ++ b) = simultaneous values a ++ simultaneous values b.
Proof. apply flat_map_app. Qed.

Lemma simultaneous_step (n : jsstring) (v : list chunk)
      (rest : list (jsstring * list chunk)) (cs : list chunk) :
  (forall m, In m (holes v) -> ~ In m (map fst rest)) ->
  simultaneous rest (substitute n v cs) = simultaneous ((n, v) :: rest) cs.
Proof.
  intros H. induction cs as [|c cs IH]; [reflexivity|].
  unfold substitute. cbn [flat_map]. fold (substitute n v cs).
  rewrite simultaneous_app, IH.
  change (c :: cs) with ([c] ++ cs).
  rewrite (simultaneous_app ((n, v) :: rest) [c] cs). f_equal. destruct c as [s|m]; [reflexivity|].
  unfold simultaneous at 2. cbn [flat_map assoc]. rewrite app_nil_r.
  destruct (eqb n m); [now apply simultaneous_untouched|].
  unfold simultaneous. cbn [flat_map]. now rewrite app_nil_r.
Qed.

Lemma sequential_simultaneous (values : list (jsstring * list chunk)) (cs : list chunk) :
  no_later_token values -> sequential values cs = simultaneous values cs.
Proof.
  revert cs. induction values as [|[n v] rest IH]; intros cs H.
  - unfold sequential, simultaneous. cbn [fold_left assoc].
    induction cs as [|[s|m] cs IHcs]; cbn [flat_map app]; congruence.
  - destruct H as [H1 H2]. unfold sequential in *. cbn [fold_left fst snd].
    rewrite IH by exact H2. now apply simultaneous_step.
Qed.

Lemma expand_text (values : list (jsstring * list chunk)) (s : jsstring) :
  expand values (Text s) = [Text s].
Proof. destruct values as [|[n v] rest]; reflexivity. Qed.

(** The passes of the code, part by part. *)
Lemma sequential_expand (values : list (jsstring * list chunk)) (cs : list chunk) :
  sequential values cs = flat_map (expand values) cs.
Proof.
  revert cs. induction values as [|[n v] rest IH]; intros cs.
  - unfold sequential. cbn [fold_left].
    induction cs as [|c cs IHcs]; [reflexivity|].
    cbn [flat_map]. rewrite <- IHcs. reflexivity.
  - unfold sequential in *. cbn [fold_left fst snd]. rewrite IH.
    induction cs as [|c cs IHcs]; [reflexivity|].
    unfold substitute. cbn [flat_map]. fold (substitute n v cs).
    rewrite flat_map_app, IHcs. f_equal.
    destruct c as [s|m]; cbn [flat_map expand].
    + now rewrite app_nil_r, expand_text.
    + destruct (eqb n m); [reflexivity|]. cbn [flat_map]. apply app_nil_r.
Qed.

Lemma expand_absent (values : list (jsstring * list chunk)) (m : jsstring) :
  ~ In m (map fst values) -> expand values (Hole m) = [Hole m].
Proof.
  induction values as [|[n v] rest IH]; intros H; [reflexivity|].
  cbn [expand]. destruct (eqb n m) eqn:E.
  - apply JsFacts.eqb_eq in E. subst n. exfalso. apply H. now left.
  - apply IH. intros Hin. apply H. now right.
Qed.

Lemma expand_first (earlier later : list (jsstring * list chunk))
      (n : jsstring) (v : list chunk) :
  ~ In n (map fst earlier) ->
  expand (earlier ++ (n, v) :: later) (Hole n) = flat_map (expand later) v.
Proof.
  induction earlier as [|[k w] earlier IH]; intros H; cbn [app expand].
  - now rewrite JsFacts.eqb_refl.
  - destruct (eqb k n) eqn:E.
    + apply JsFacts.eqb_eq in E. subst k. exfalso. apply H. now left.
    + apply IH. intros Hin. apply H. now right.
Qed.

Lemma expand_untouched (later : list (jsstring * list chunk)) (v : list chunk) :
  (forall m, In m (holes v) -> ~ In m (map fst later)) ->
  flat_map (expand later) v = v.
Proof.
  induction v as [|c v IH]; intros H; [reflexivity|].
  cbn [flat_map]. destruct c as [s|m].
  - rewrite expand_text. cbn [app]. f_equal. apply IH.
    intros m Hm. apply H. exact Hm.
  - rewrite expand_absent by (apply H; now left).
    cbn [app]. f_equal. apply IH. intros m' Hm. apply H. now right.
Qed.

End TemplateFacts.

Section Templates.

Import Regex Replace Server PromptSpec TemplateFacts.

(** C3 fails as stated: the value of [{objective}] holds the token
    [{topic}], whose replacement comes later, and the output has the topic
    in its place. *)
Lemma later_pass_expands_value :
  demographicQuestionsPrompt (lit "Objective: {objective}")
    (Some (lit "{topic}")) (Some (lit "cats")) None None None None
  = lit "Objective: cats"
  /\ includes (lit "{topic}")
       (demographicQuestionsPrompt (lit "Objective: {objective}")
          (Some (lit "{topic}")) (Some (lit "cats")) None None None None)
     = false.
Proof. split; vm_compute; reflexivity. Qed.

(** C3, amended: rendering is a sequence of global passes, one per
    placeholder, in the order of [values], and a pass does not look again
    at what it has inserted.  For placeholder names of word characters, a
    template and values whose opening braces all begin a placeholder or are
    dead, and values without [$$], [$&], [$`] and [$'], the output is the
    template in which every text stays, every placeholder without a value
    stays, and every placeholder with a value is replaced by that value as
    the later passes leave it: in the inserted value a token is substituted
    exactly when a pass that comes later names it, and is in the output as
    it is written otherwise (so when it names the same placeholder, an
    earlier one or one without a value, the names of the passes being
    distinct); a value that holds no token of a later pass is inserted as it
    stands.  So with the objective [{topic} and {objective}] and the topic
    [cats], [{topic}] is replaced and [{objective}] is kept. *)
Theorem render_literal_unless_later
    (values : list (jsstring * list chunk)) (template : list chunk) :
  (Forall value_ok values ->
   template_ok template = true ->
   render (replacements_of values) (unparse template)
   = unparse (flat_map (expand values) template))
  /\ (forall s, expand values (Text s) = [Text s])
  /\ (forall m, ~ In m (map fst values) -> expand values (Hole m) = [Hole m])
  /\ (forall earlier n v later,
        values = earlier ++ (n, v) :: later ->
        ~ In n (map fst earlier) ->
        expand values (Hole n) = flat_map (expand later) v
        /\ (forall s, expand later (Text s) = [Text s])
        /\ (forall m, ~ In m (map fst later) -> expand later (Hole m) = [Hole m])
        /\ (forall between m w after,
              later = between ++ (m, w) :: after ->
              ~ In m (map fst between) ->
              expand later (Hole m) = flat_map (expand after) w)
        /\ ((forall m, In m (holes v) -> ~ In m (map fst later)) ->
            expand values (Hole n) = v))
  /\ demographicQuestionsPrompt (lit "About: {objective}")
       (Some (lit "{topic} and {objective}")) (Some (lit "cats"))
       None None None None
     = lit "About: cats and {objective}"
  /\ demographicQuestionsPrompt (lit "Topic: {topic}")
       (Some (lit "dogs")) (Some (lit "{objective}")) None None None None
     = lit "Topic: {objective}".
Proof.
  split; [|split; [|split; [|split; [|split; vm_compute; reflexivity]]]].
  - intros Hv Ht. rewrite render_sequential by assumption.
    now rewrite sequential_expand.
  - apply expand_text.
  - apply expand_absent.
  - intros earlier n v later -> Hn.
    split; [now apply expand_first|]. split; [apply expand_text|].
    split; [apply expand_absent|]. split.
    + intros between m w after -> Hm. now apply expand_first.
    + intros H. rewrite expand_first by exact Hn. now apply expand_untouched.
Qed.

(** C3, amended, on a value that holds the token of a later pass, its own
    token and a brace that begins no token. *)
Lemma render_literal_unless_later_witness :
  render (replacements_of
            [ (lit "objective", [ Hole (lit "topic"); Text (lit " and ");
                                  Hole (lit "objective"); Text (lit " {or so") ]);
              (lit "topic", [ Text (lit "cats, see "); Hole (lit "objective") ]) ])
         (unparse [ Text (lit "About: "); Hole (lit "objective");
                    Text (lit " / {x: 1} "); Hole (lit "other") ])
  = lit "About: cats, see {objective} and {objective} {or so / {x: 1} {other}".
Proof.
  rewrite (proj1 (render_literal_unless_later
                    [ (lit "objective", [ Hole (lit "topic"); Text (lit " and ");
                                          Hole (lit "objective");
                                          Text (lit " {or so") ]);
                      (lit "topic", [ Text (lit "cats, see ");
                                      Hole (lit "objective") ]) ]
                    [ Text (lit "About: "); Hole (lit "objective");
                      Text (lit " / {x: 1} "); Hole (lit "other") ])).
  - reflexivity.
  - repeat (constructor; [repeat split; reflexivity|]). constructor.
  - reflexivity.
Defined.

End Templates.

Module PlainFacts.

Import Regex Replace Server PromptSpec TemplateFacts.

Lemma replacements_plain (values : list (jsstring * jsstring)) :
  replacements_of (as_chunks values)
  = map (fun nv => (placeholder (fst nv), snd nv)) values.
Proof.
  unfold replacements_of, as_chunks. rewrite map_map. apply map_ext.
  intros [n v]. cbn [fst snd unparse flat_map unparse_chunk].
  now rewrite app_nil_r.
Qed.

Lemma as_chunks_ok (values : list (jsstring * jsstring)) :
  Forall plain_value values -> Forall value_ok (as_chunks values).
Proof.
  induction 1 as [|[n v] values [Hn [Ht Hd]] _ IH]; constructor; [|exact IH].
  cbn [fst snd] in *. unfold value_ok. cbn [fst snd template_ok forallb chunk_ok
                                             unparse flat_map unparse_chunk].
  rewrite app_nil_r, Ht, Hd. auto.
Qed.

Lemma as_chunks_no_later (values : list (jsstring * jsstring)) :
  no_later_token (as_chunks values).
Proof.
  induction values as [|[n v] values IH]; [exact I|].
  split; [intros m []|exact IH].
Qed.

Lemma assoc_as_chunks (values : list (jsstring * jsstring)) (n : jsstring) :
  assoc n (as_chunks values) = option_map (fun v => [Text v]) (assoc n values).
Proof.
  induction values as [|[k v] values IH]; [reflexivity|].
  cbn [as_chunks map assoc fst snd]. destruct (eqb k n); [reflexivity|exact IH].
Qed.

Lemma simultaneous_plain (values : list (jsstring * jsstring)) (cs : list chunk) :
  simultaneous (as_chunks values) cs = map (fill values) cs.
Proof.
  induction cs as [|c cs IH]; [reflexivity|].
  unfold simultaneous. cbn [flat_map map]. fold (simultaneous (as_chunks values) cs).
  rewrite IH. destruct c as [s|n]; [reflexivity|].
  cbn [fill]. rewrite assoc_as_chunks. destruct (assoc n values); reflexivity.
Qed.

End PlainFacts.

Section PlainValues.

Import Regex Replace Server PromptSpec TemplateFacts.

(** C4 fails as stated: in the prompt of the first question the occurrence
    of [{objective}] does not end as its value [{hypothesis}], because
    [{hypothesis}] is replaced after it; a value is read as a replacement
    pattern, so two dollar signs in it give one; and a value that ends with
    an opening brace makes a placeholder of the text that follows it. *)
Lemma value_is_not_copied_verbatim :
  firstQuestionPrompt (lit "Hello {objective}")
    (Some (lit "{hypothesis}")) [] None None (Some (lit "X"))
  = lit "Hello X"
  /\ firstQuestionPrompt (lit "Hello {objective}")
       (Some (lit "{hypothesis}")) [] None None (Some (lit "X"))
     <> lit "Hello {hypothesis}"
  /\ firstQuestionPrompt (lit "Hello {objective}")
       (Some (lit "A$$B")) [] None None None
     = lit "Hello A$B"
  /\ firstQuestionPrompt (lit "O={objective}hypothesis} H={hypothesis}")
       (Some (lit "{")) [] None None (Some (lit "X"))
     = lit "O=X H=X".
Proof.
  split; [vm_compute; reflexivity|].
  split; [|split; vm_compute; reflexivity].
  vm_compute. discriminate.
Qed.

(** C4, amended.  Rendering is a total function.  For placeholder names of
    word characters, a template and values whose opening braces all begin a
    placeholder or are dead (followed, after word characters, by a unit of
    the same text that is no closing brace), values without [$$], [$&],
    [$`] and [$'], and no value that holds the token of a placeholder
    replaced after it, every occurrence of every supplied placeholder is
    replaced by its value as it stands and a placeholder without a value
    stays as it is written; this is so in particular for values that are
    plain text, with no token at all.  So the template of the example, with
    only the name supplied, has every [{name}] replaced and [{topic}]
    left. *)
Theorem render_replaces_every_occurrence
    (values : list (jsstring * list chunk)) (plain : list (jsstring * jsstring))
    (template : list chunk) :
  (Forall value_ok values ->
   template_ok template = true ->
   no_later_token values ->
   render (replacements_of values) (unparse template)
   = unparse (simultaneous values template))
  /\ (Forall plain_value plain ->
      template_ok template = true ->
      render (map (fun nv => (placeholder (fst nv), snd nv)) plain) (unparse template)
      = unparse (map (fill plain) template))
  /\ render [(lit "{name}", lit "Ann")]
            (lit "Hello {name}, topic {topic}. Bye {name}")
     = lit "Hello Ann, topic {topic}. Bye Ann".
Proof.
  split; [|split; [|vm_compute; reflexivity]].
  - intros Hv Ht Hl. rewrite render_sequential by assumption.
    now rewrite sequential_simultaneous.
  - intros Hv Ht. rewrite <- PlainFacts.replacements_plain.
    rewrite render_sequential;
      [|now apply PlainFacts.as_chunks_ok | exact Ht].
    rewrite sequential_simultaneous by apply PlainFacts.as_chunks_no_later.
    now rewrite PlainFacts.simultaneous_plain.
Qed.

(** C4, amended, on a template with two occurrences of a placeholder, with
    a value that holds its own token and a price, and on plain values. *)
Lemma render_replaces_every_occurrence_witness :
  render (replacements_of
            [ (lit "name", [ Text (lit "Ann") ]);
              (lit "city", [ Text (lit "Bangkok {th: 66}, $5 for "); Hole (lit "name") ]) ])
         (unparse [ Text (lit "Hello "); Hole (lit "name"); Text (lit " of ");
                    Hole (lit "city"); Text (lit ", topic "); Hole (lit "topic");
                    Text (lit ", json {ok: 1}. Bye "); Hole (lit "name") ])
  = lit "Hello Ann of Bangkok {th: 66}, $5 for {name}, topic {topic}, json {ok: 1}. Bye Ann"
  /\ render [ (lit "{name}", lit "Ann"); (lit "{city}", lit "Bangkok {th: 66}") ]
            (lit "Hello {name} of {city}, topic {topic}, json {ok: 1}. Bye {name}")
     = lit "Hello Ann of Bangkok {th: 66}, topic {topic}, json {ok: 1}. Bye Ann".
Proof.
  split.
  - rewrite (proj1 (render_replaces_every_occurrence
                      [ (lit "name", [ Text (lit "Ann") ]);
                        (lit "city", [ Text (lit "Bangkok {th: 66}, $5 for ");
                                       Hole (lit "name") ]) ]
                      []
                      [ Text (lit "Hello "); Hole (lit "name"); Text (lit " of ");
                        Hole (lit "city"); Text (lit ", topic "); Hole (lit "topic");
                        Text (lit ", json {ok: 1}. Bye "); Hole (lit "name") ])).
    + reflexivity.
    + repeat (constructor; [repeat split; reflexivity|]). constructor.
    + reflexivity.
    + simpl. repeat split; intros m Hm; intuition discriminate.
  - apply (proj1 (proj2 (render_replaces_every_occurrence
                    []
                    [ (lit "name", lit "Ann"); (lit "city", lit "Bangkok {th: 66}") ]
                    [ Text (lit "Hello "); Hole (lit "name"); Text (lit " of ");
                      Hole (lit "city"); Text (lit ", topic "); Hole (lit "topic");
                      Text (lit ", json {ok: 1}. Bye "); Hole (lit "name") ]))).
    + repeat (constructor; [repeat split; reflexivity|]). constructor.
    + reflexivity.
Defined.

End PlainValues.

(* ================================================================== *)
(** * The vault *)
(* ================================================================== *)

Module CryptoFacts.

Import CryptoUtils.

Ltac Zify.zify_post_hook ::= Z.to_euclidean_division_equations.

(** ** Hex *)

Lemma hex_pair (b : Init.Byte.byte) (t : jsstring) :
  from_hex (hex_digit (Byte.to_N b / 16) :: hex_digit (Byte.to_N b mod 16) :: t)
  = b :: from_hex t.
Proof.
  cbn [from_hex].
  assert (H : forall n, n < 16 -> hex_value (hex_digit n) = Some n).
  { intros n Hn. unfold hex_digit, hex_value.
    destruct (N.ltb_spec n 10).
    - replace ((48 <=? 48 + n) && (48 + n <=? 57)) with true.
      + f_equal. lia.
      + symmetry. apply andb_true_iff. split; apply N.leb_le; lia.
    - replace ((48 <=? 87 + n) && (87 + n <=? 57)) with false.
      + replace ((97 <=? 87 + n) && (87 + n <=? 102)) with true.
        * f_equal. lia.
        * symmetry. apply andb_true_iff. split; apply N.leb_le; lia.
      + symmetry. apply andb_false_iff. right. apply N.leb_gt. lia. }
  pose proof (Byte.to_N_bounded b) as Hb.
  rewrite !H by lia.
  f_equal. unfold byte_of_N.
  replace (16 * (Byte.to_N b / 16) + Byte.to_N b mod 16) with (Byte.to_N b) by lia.
  now rewrite Byte.of_to_N.
Qed.

Lemma from_hex_toString (bs : bytes) : from_hex (toString_hex bs) = bs.
Proof.
  induction bs as [|b bs IH]; [reflexivity|].
  unfold toString_hex. cbn [flat_map app]. fold (toString_hex bs).
  rewrite hex_pair. now rewrite IH.
Qed.

(** ** UTF-8 *)

Lemma to_N_byte_of_N (n : N) : n < 256 -> Byte.to_N (byte_of_N n) = n.
Proof.
  intros H. unfold byte_of_N. destruct (Byte.of_N n) as [b|] eqn:E.
  - now apply Byte.to_of_N.
  - apply Byte.of_N_None_iff in E. lia.
Qed.

Lemma utf8_bytes (cp : N) :
  cp < 0x110000 -> Forall (fun b => b < 256) (utf8_of_code_point cp).
Proof.
  intros H. unfold utf8_of_code_point.
  destruct (N.ltb_spec cp 0x80); [repeat constructor; lia|].
  destruct (N.ltb_spec cp 0x800); [repeat constructor; lia|].
  destruct (N.ltb_spec cp 0x10000); repeat constructor; lia.
Qed.

Lemma map_to_N_byte_of_N (l : list N) :
  Forall (fun b => b < 256) l -> map Byte.to_N (map byte_of_N l) = l.
Proof.
  induction 1 as [|b l Hb _ IH]; [reflexivity|].
  cbn [map]. now rewrite to_N_byte_of_N, IH.
Qed.

Lemma write_none (b : N) (t : list N) :
  decoder_write None (b :: t)
  = match lead b with
    | Whole cp =>
        (utf16_of_code_point cp ++ fst (decoder_write None t),
         snd (decoder_write None t))
    | Starts p => decoder_write (Some p) t
    | Invalid => (0xFFFD :: fst (decoder_write None t), snd (decoder_write None t))
    end.
Proof.
  cbn [decoder_write]. destruct (lead b); [|reflexivity|];
    now destruct (decoder_write None t).
Qed.

Lemma write_last (p : pending) (b : N) (t : list N) :
  lower_boundary p <= b -> b <= upper_boundary p -> needed p = 1%nat ->
  decoder_write (Some p) (b :: t)
  = (utf16_of_code_point (code_point p * 64 + (b - 0x80)) ++ fst (decoder_write None t),
     snd (decoder_write None t)).
Proof.
  intros Hl Hu Hn. cbn [decoder_write].
  apply N.leb_le in Hl, Hu. rewrite Hl, Hu, Hn. cbn [andb].
  now destruct (decoder_write None t).
Qed.

Lemma write_more (p : pending) (b : N) (t : list N) (n : nat) :
  lower_boundary p <= b -> b <= upper_boundary p -> needed p = S (S n) ->
  decoder_write (Some p) (b :: t)
  = decoder_write (Some (mkPending (code_point p * 64 + (b - 0x80)) (S n) 0x80 0xBF)) t.
Proof.
  intros Hl Hu Hn. cbn [decoder_write].
  apply N.leb_le in Hl, Hu. rewrite Hl, Hu, Hn. reflexivity.
Qed.

Ltac decide_tests :=
  repeat match goal with
         | |- context [?a <=? ?b] => destruct (N.leb_spec a b); try lia
         | |- context [?a <? ?b] => destruct (N.ltb_spec a b); try lia
         | |- context [?a =? ?b] => destruct (N.eqb_spec a b); try lia
         end.

Lemma lead_1 (b : N) : b < 0x80 -> lead b = Whole b.
Proof. intros H. unfold lead. decide_tests. reflexivity. Qed.

Lemma lead_2 (b : N) :
  0xC2 <= b -> b <= 0xDF -> lead b = Starts (mkPending (b - 0xC0) 1 0x80 0xBF).
Proof. intros H1 H2. unfold lead. decide_tests. reflexivity. Qed.

Lemma lead_3 (b : N) :
  0xE0 <= b -> b <= 0xEF ->
  lead b = Starts (mkPending (b - 0xE0) 2 (if b =? 0xE0 then 0xA0 else 0x80)
                             (if b =? 0xED then 0x9F else 0xBF)).
Proof.
  intros H1 H2. unfold lead.
  destruct (N.leb_spec b 0x7F); [lia|].
  destruct (N.leb_spec 0xC2 b); [|lia].
  destruct (N.leb_spec b 0xDF); [lia|].
  destruct (N.leb_spec 0xE0 b); [|lia].
  destruct (N.leb_spec b 0xEF); [|lia]. reflexivity.
Qed.

Lemma lead_4 (b : N) :
  0xF0 <= b -> b <= 0xF4 ->
  lead b = Starts (mkPending (b - 0xF0) 3 (if b =? 0xF0 then 0x90 else 0x80)
                             (if b =? 0xF4 then 0x8F else 0xBF)).
Proof.
  intros H1 H2. unfold lead.
  destruct (N.leb_spec b 0x7F); [lia|].
  destruct (N.leb_spec 0xC2 b); [|lia].
  destruct (N.leb_spec b 0xDF); [lia|].
  destruct (N.leb_spec 0xE0 b); [|lia].
  destruct (N.leb_spec b 0xEF); [lia|].
  destruct (N.leb_spec 0xF0 b); [|lia].
  destruct (N.leb_spec b 0xF4); [|lia]. reflexivity.
Qed.

(** The decoder reads back the encoding of a scalar value. *)
Lemma write_code_point (cp : N) (rest : list N) :
  scalar cp ->
  decoder_write None (utf8_of_code_point cp ++ rest)
  = (utf16_of_code_point cp ++ fst (decoder_write None rest),
     snd (decoder_write None rest)).
Proof.
  intros [Hmax Hsur]. unfold utf8_of_code_point.
  destruct (N.ltb_spec cp 0x80) as [H1|H1].
  { cbn [app]. rewrite write_none, lead_1 by lia. reflexivity. }
  destruct (N.ltb_spec cp 0x800) as [H2|H2].
  { cbn [app]. rewrite write_none, lead_2 by lia.
    rewrite write_last by (cbn [lower_boundary upper_boundary needed]; (lia || reflexivity)).
    cbn [code_point]. do 2 f_equal. f_equal. lia. }
  destruct (N.ltb_spec cp 0x10000) as [H3|H3].
  { cbn [app]. rewrite write_none, lead_3 by lia.
    rewrite (@write_more _ _ _ 0%nat);
      [| cbn [lower_boundary]; destruct (N.eqb_spec (0xE0 + cp / 4096) 0xE0); lia
       | cbn [upper_boundary]; destruct (N.eqb_spec (0xE0 + cp / 4096) 0xED); lia
       | reflexivity ].
    rewrite write_last by (cbn [lower_boundary upper_boundary needed]; (lia || reflexivity)).
    cbn [code_point]. do 2 f_equal. f_equal. lia. }
  cbn [app]. rewrite write_none, lead_4 by lia.
  rewrite (@write_more _ _ _ 1%nat);
    [| cbn [lower_boundary]; destruct (N.eqb_spec (0xF0 + cp / 262144) 0xF0); lia
     | cbn [upper_boundary]; destruct (N.eqb_spec (0xF0 + cp / 262144) 0xF4); lia
     | reflexivity ].
  rewrite (@write_more _ _ _ 0%nat) by (cbn [lower_boundary upper_boundary needed]; (lia || reflexivity)).
  rewrite write_last by (cbn [lower_boundary upper_boundary needed]; (lia || reflexivity)).
  cbn [code_point]. do 2 f_equal. f_equal. lia.
Qed.

Lemma write_code_points (cps : list N) :
  Forall scalar cps ->
  decoder_write None (flat_map utf8_of_code_point cps)
  = (flat_map utf16_of_code_point cps, None).
Proof.
  induction 1 as [|cp cps H _ IH]; [reflexivity|].
  cbn [flat_map]. rewrite write_code_point by exact H. now rewrite IH.
Qed.

Lemma high_range (c : N) : is_high c = true <-> 0xD800 <= c <= 0xDBFF.
Proof. unfold is_high. rewrite andb_true_iff, !N.leb_le. tauto. Qed.

Lemma low_range (c : N) : is_low c = true <-> 0xDC00 <= c <= 0xDFFF.
Proof. unfold is_low. rewrite andb_true_iff, !N.leb_le. tauto. Qed.

Lemma pair_code_point (c d : N) :
  0xD800 <= c <= 0xDBFF -> 0xDC00 <= d <= 0xDFFF ->
  scalar (0x10000 + (c - 0xD800) * 0x400 + (d - 0xDC00))
  /\ utf16_of_code_point (0x10000 + (c - 0xD800) * 0x400 + (d - 0xDC00)) = [c; d].
Proof.
  intros Hc Hd. split; [unfold scalar; lia|].
  unfold utf16_of_code_point.
  destruct (N.ltb_spec (0x10000 + (c - 0xD800) * 0x400 + (d - 0xDC00)) 0x10000);
    [lia|].
  f_equal; [|f_equal]; lia.
Qed.

Lemma unit_code_point (c : N) :
  is_high c = false -> is_low c = false -> c < 0x10000 ->
  scalar c /\ utf16_of_code_point c = [c].
Proof.
  intros Hh Hl Hc. split.
  - split; [lia|]. intros [H1 H2].
    destruct (N.le_gt_cases c 0xDBFF).
    + assert (is_high c = true) by (apply high_range; lia). congruence.
    + assert (is_low c = true) by (apply low_range; lia). congruence.
  - unfold utf16_of_code_point. apply N.ltb_lt in Hc. now rewrite Hc.
Qed.

(** A well-formed string is the UTF-16 form of its code points, which are
    scalar values. *)
Lemma well_formed_code_points (s : jsstring) :
  isWellFormed s = true ->
  Forall scalar (code_points s)
  /\ flat_map utf16_of_code_point (code_points s) = s.
Proof.
  remember (List.length s) as n eqn:Hlen.
  assert (Hle : (List.length s <= n)%nat) by lia. clear Hlen.
  revert s Hle. induction n as [|n IH]; intros s Hle Hwf.
  - destruct s; [split; [constructor|reflexivity]|simpl in Hle; lia].
  - destruct s as [|c t]; [split; [constructor|reflexivity]|].
    cbn [isWellFormed code_points] in *.
    destruct (is_high c) eqn:Hh.
    + destruct t as [|d t']; [discriminate|].
      apply andb_true_iff in Hwf as [Hd Hwf]. rewrite Hd.
      apply high_range in Hh. apply low_range in Hd.
      destruct (pair_code_point Hh Hd) as [Hs Hu].
      destruct (IH t') as [Hf Hr]; [simpl in Hle; lia|exact Hwf|].
      split; [now constructor|].
      cbn [flat_map]. rewrite Hu, Hr. reflexivity.
    + apply andb_true_iff in Hwf as [Hc Hwf].
      apply andb_true_iff in Hc as [Hl Hc].
      apply negb_true_iff in Hl. apply N.ltb_lt in Hc. rewrite Hl.
      destruct (unit_code_point Hh Hl Hc) as [Hs Hu].
      destruct (IH t) as [Hf Hr]; [simpl in Hle; lia|exact Hwf|].
      split; [now constructor|].
      cbn [flat_map]. rewrite Hu, Hr. reflexivity.
Qed.

Lemma scalar_max (cp : N) : scalar cp -> cp < 0x110000.
Proof. now intros [H _]. Qed.

Lemma encoded_bytes (cps : list N) :
  Forall scalar cps -> Forall (fun b => b < 256) (flat_map utf8_of_code_point cps).
Proof.
  induction 1 as [|cp cps H _ IH]; [constructor|].
  cbn [flat_map]. apply Forall_app. split; [|exact IH].
  apply utf8_bytes, scalar_max, H.
Qed.

(** Decoding the UTF-8 form of a well-formed string gives the string. *)
Lemma utf8_round_trip (text : jsstring) :
  isWellFormed text = true ->
  decoder_write None (map Byte.to_N (utf8_encode text)) = (text, None).
Proof.
  intros H. destruct (well_formed_code_points _ H) as [Hs Hr].
  unfold utf8_encode. rewrite map_to_N_byte_of_N by now apply encoded_bytes.
  rewrite write_code_points by exact Hs. now rewrite Hr.
Qed.

(** ** The cipher *)

Lemma bytes_eqb_refl (b : bytes) : bytes_eqb b b = true.
Proof.
  induction b as [|x b IH]; [reflexivity|].
  cbn [bytes_eqb]. rewrite IH, andb_true_r. now apply Byte.byte_dec_lb.
Qed.

Lemma complement_involutive (b : Init.Byte.byte) : complement (complement b) = b.
Proof.
  unfold complement. pose proof (Byte.to_N_bounded b) as Hb.
  rewrite to_N_byte_of_N by lia.
  replace (255 - (255 - Byte.to_N b)) with (Byte.to_N b) by lia.
  unfold byte_of_N. now rewrite Byte.of_to_N.
Qed.

Lemma toy_lawful : lawful toy.
Proof.
  constructor.
  - intros password salt keylen. cbn [toy scryptSync].
    rewrite length_firstn, length_app, repeat_length. lia.
  - intros key iv data. cbn [toy gctr]. rewrite map_map.
    rewrite <- (map_id data) at 2. apply map_ext, complement_involutive.
  - intros key iv data. cbn [toy ghash_tag].
    rewrite length_firstn, !length_app, repeat_length. lia.
Qed.

Section RoundTrip.

Variable L : crypto.
Hypothesis HL : lawful L.

Lemma decrypt_encrypt (random : bytes) (text masterKey : jsstring) :
  List.length random = 16%nat ->
  isWellFormed text = true ->
  exists e, encrypt L random text masterKey = Returned e
            /\ decrypt L e masterKey = Returned text.
Proof.
  intros Hiv Hwf. unfold encrypt.
  set (key := scryptSync L masterKey (lit "salt") 32).
  assert (Hk : valid_key_iv key random = true).
  { unfold valid_key_iv, key. rewrite (scrypt_length HL), Hiv. reflexivity. }
  rewrite Hk. eexists. split; [reflexivity|].
  unfold decrypt. cbn [iv authTag encrypted]. fold key.
  cbn [toString_hex flat_map]. rewrite app_nil_r, !from_hex_toString.
  rewrite Hk, (tag_length HL). cbn [valid_tag_length existsb Nat.eqb orb andb].
  rewrite (gctr_involutive HL), utf8_round_trip by exact Hwf.
  rewrite <- (tag_length HL key random (gctr L key random (utf8_encode text))) at 1.
  rewrite firstn_all, bytes_eqb_refl. cbn [decoder_end]. now rewrite app_nil_r.
Qed.

End RoundTrip.

End CryptoFacts.

Section Vault.

Import CryptoUtils.

(** C2 fails as stated: a plaintext that is one high surrogate without its
    partner is encrypted and decrypted to U+FFFD. *)
Lemma lone_surrogate_does_not_round_trip :
  lawful toy
  /\ exists e, encrypt toy sample_iv [0xD800] (lit "master") = Returned e
               /\ decrypt toy e (lit "master") = Returned [0xFFFD]
               /\ decrypt toy e (lit "master") <> Returned [0xD800].
Proof.
  split; [exact CryptoFacts.toy_lawful|].
  eexists. split; [vm_compute; reflexivity|].
  split; [vm_compute; reflexivity|]. vm_compute. discriminate.
Qed.

(** C2, amended: for every library that satisfies the laws of the cipher,
    every sixteen random bytes for the IV, every master key and every
    well-formed plaintext (no surrogate without its partner), [encrypt]
    returns a bundle that [decrypt] turns back into the plaintext under the
    same master key. *)
Theorem decrypt_encrypt_well_formed
    (L : crypto) (random : bytes) (P K : jsstring) :
  lawful L ->
  List.length random = 16%nat ->
  isWellFormed P = true ->
  exists e, encrypt L random P K = Returned e
            /\ decrypt L e K = Returned P.
Proof. intros HL. now apply CryptoFacts.decrypt_encrypt. Qed.

(** C2, amended, on a key with a Thai letter and a character outside the
    basic plane. *)
Lemma decrypt_encrypt_well_formed_witness :
  exists e, encrypt toy sample_iv (lit "sk-test-" ++ [0xE44; 0xD83D; 0xDE00])
                    (lit "master") = Returned e
            /\ decrypt toy e (lit "master")
               = Returned (lit "sk-test-" ++ [0xE44; 0xD83D; 0xDE00]).
Proof.
  apply (decrypt_encrypt_well_formed
           (L := toy) sample_iv (lit "sk-test-" ++ [0xE44; 0xD83D; 0xDE00])
           (lit "master")).
  - exact CryptoFacts.toy_lawful.
  - reflexivity.
  - reflexivity.
Defined.

End Vault.

(* ================================================================== *)
(** * The registry: keys *)
(* ================================================================== *)

Module KeyFacts.

Import AiKeysManager.

Lemma lookup_set_same (k v : jsstring) (o : list (jsstring * jsstring)) :
  lookup k (set_property k v o) = Some v.
Proof.
  induction o as [|[k' v'] o IH]; cbn [set_property lookup].
  - now rewrite JsFacts.eqb_refl.
  - destruct (eqb k' k) eqn:E; cbn [lookup]; rewrite E; [reflexivity|exact IH].
Qed.

Lemma lookup_set_other (k p v : jsstring) (o : list (jsstring * jsstring)) :
  p <> k -> lookup p (set_property k v o) = lookup p o.
Proof.
  intros Hp. induction o as [|[k' v'] o IH]; cbn [set_property lookup].
  - assert (E : eqb k p = false) by (apply JsFacts.eqb_neq; congruence).
    now rewrite E.
  - destruct (eqb k' k) eqn:E; cbn [lookup].
    + apply JsFacts.eqb_eq in E. subst k'.
      assert (E : eqb k p = false) by (apply JsFacts.eqb_neq; congruence).
      now rewrite E.
    + now rewrite IH.
Qed.

Lemma lookup_delete_same (k : jsstring) (o : list (jsstring * jsstring)) :
  lookup k (delete_property k o) = None.
Proof.
  induction o as [|[k' v'] o IH]; [reflexivity|].
  unfold delete_property in *. cbn [filter fst].
  destruct (eqb k' k) eqn:E; cbn [negb lookup]; [exact IH|].
  now rewrite E.
Qed.

Lemma lookup_delete_other (k p : jsstring) (o : list (jsstring * jsstring)) :
  p <> k -> lookup p (delete_property k o) = lookup p o.
Proof.
  intros Hp. induction o as [|[k' v'] o IH]; [reflexivity|].
  unfold delete_property in *. cbn [filter fst].
  destruct (eqb k' k) eqn:E; cbn [negb lookup].
  - apply JsFacts.eqb_eq in E. subst k'.
    assert (E : eqb k p = false) by (apply JsFacts.eqb_neq; congruence).
    now rewrite E.
  - now rewrite IH.
Qed.

Lemma lookup_assign_same (k v : jsstring) (o : list (jsstring * jsstring)) :
  k <> lit "__proto__" \/ lookup k o <> None ->
  lookup k (assign k v o) = Some v.
Proof.
  intros H. unfold assign. destruct (lookup k o) eqn:L.
  - apply lookup_set_same.
  - destruct (eqb k (lit "__proto__")) eqn:E; [|apply lookup_set_same].
    apply JsFacts.eqb_eq in E. destruct H as [H|H]; contradiction.
Qed.

Lemma lookup_assign_other (k p v : jsstring) (o : list (jsstring * jsstring)) :
  p <> k -> lookup p (assign k v o) = lookup p o.
Proof.
  intros Hp. unfold assign. destruct (lookup k o).
  - now apply lookup_set_other.
  - destruct (eqb k (lit "__proto__")); [reflexivity|now apply lookup_set_other].
Qed.

Lemma assign_ignored (v : jsstring) (o : list (jsstring * jsstring)) :
  lookup (lit "__proto__") o = None -> assign (lit "__proto__") v o = o.
Proof. intros L. unfold assign. rewrite L. reflexivity. Qed.

(** What a write of the keys alone leaves as it was. *)
Lemma save_keys_keeps (st : store) (ks : list (jsstring * jsstring)) :
  let d := loadKeysDB st in
  let st' := snd (saveKeysDB st (mkDb (Some ks) (models d) (activeModel d))) in
  DEFAULT_MODELS st' = DEFAULT_MODELS st
  /\ getActiveModel st' = getActiveModel st
  /\ ki_models (getAllKeys st') = ki_models (getAllKeys st).
Proof.
  cbv zeta. unfold saveKeysDB. destruct (writable st); [|repeat split; reflexivity].
  cbn [snd]. split; [reflexivity|]. split.
  - unfold getActiveModel, loadKeysDB. cbn [disk activeModel p_activeModel].
    destruct (disk st) as [| |r]; reflexivity.
  - rewrite !RegistryFacts.catalog_eq. cbn [DEFAULT_MODELS]. f_equal.
    unfold persisted_models, loadKeysDB. cbn [disk p_models models].
    destruct (disk st) as [| |r]; cbn [option_map deref models p_models];
      try (now rewrite RegistryFacts.custom_of_builtin).
    destruct (p_models r); reflexivity.
Qed.

Lemma saved_keys (st : store) (d : db) :
  writable st = true ->
  keys (loadKeysDB (snd (saveKeysDB st d))) = keys d.
Proof. intros W. unfold saveKeysDB. rewrite W. reflexivity. Qed.

End KeyFacts.

Section Keys.

Import AiKeysManager.

(** X1: a key that has been saved is read back, under every name but one.
    When the file can be written and the two functions of the vault undo
    each other on the key, [saveApiKey] succeeds; [getApiKey] then returns
    the key for that provider, unless the provider is [__proto__] and the
    record holds no entry of that name: then the assignment stores nothing
    and [getApiKey] returns [null].  For every other provider [getApiKey]
    returns what it returned before, and the active model and the catalog
    are as they were. *)
Theorem saved_key_is_read_back
    (encryptForStorage decryptFromStorage : jsstring -> outcome jsstring)
    (st : store) (provider apiKey : jsstring) (c : N) (e : jsstring) :
  provider <> [] -> apiKey <> [] -> writable st = true ->
  encryptForStorage apiKey = Returned (c :: e) ->
  decryptFromStorage (c :: e) = Returned apiKey ->
  let st' := snd (saveApiKey encryptForStorage st provider apiKey) in
  fst (saveApiKey encryptForStorage st provider apiKey) = Returned tt
  /\ (provider <> lit "__proto__" \/ lookup provider (stored_keys st) <> None ->
      getApiKey decryptFromStorage st' provider = Some apiKey)
  /\ (provider = lit "__proto__" -> lookup provider (stored_keys st) = None ->
      getApiKey decryptFromStorage st' provider = None)
  /\ (forall p, p <> provider ->
        getApiKey decryptFromStorage st' p = getApiKey decryptFromStorage st p)
  /\ getActiveModel st' = getActiveModel st
  /\ ki_models (getAllKeys st') = ki_models (getAllKeys st).
Proof.
  intros Hp Hk W He Hd. cbv zeta. unfold saveApiKey, stored_keys.
  destruct apiKey as [|a k]; [contradiction|].
  destruct provider as [|b p]; [contradiction|].
  rewrite He.
  set (ks := match keys (loadKeysDB st) with Some ks => ks | None => [] end).
  destruct (KeyFacts.save_keys_keeps st (assign (b :: p) (c :: e) ks))
    as [_ [Ha Hc]].
  pose proof (@KeyFacts.saved_keys st
                (mkDb (Some (assign (b :: p) (c :: e) ks))
                      (models (loadKeysDB st)) (activeModel (loadKeysDB st))) W)
    as Hs.
  destruct (saveKeysDB st _) as [ok st'] eqn:E.
  assert (Hok : ok = true).
  { unfold saveKeysDB in E. rewrite W in E. now injection E as <- _. }
  subst ok. cbn [fst snd] in *. split; [reflexivity|].
  split; [|split; [|split; [|split; [exact Ha|exact Hc]]]].
  - intros Hown. unfold getApiKey, get_property. rewrite Hs. cbn [keys].
    now rewrite KeyFacts.lookup_assign_same, Hd.
  - intros Hproto Hnone. unfold getApiKey, get_property. rewrite Hs. cbn [keys].
    rewrite Hproto in *. rewrite KeyFacts.assign_ignored, Hnone by exact Hnone.
    reflexivity.
  - intros q Hq. unfold getApiKey, get_property. rewrite Hs. cbn [keys].
    rewrite KeyFacts.lookup_assign_other by exact Hq.
    subst ks. destruct (keys (loadKeysDB st)); [reflexivity|].
    cbn [lookup]. now destruct (arr_includes q Object_prototype_names).
Qed.

(** X1 on the registry without a file, with a vault that reverses the text. *)
Lemma saved_key_is_read_back_witness :
  getApiKey (fun k => Returned (rev k))
    (snd (saveApiKey (fun k => Returned (rev k)) fresh (lit "openai") (lit "sk-test")))
    (lit "openai")
  = Some (lit "sk-test")
  /\ getApiKey (fun k => Returned (rev k))
       (snd (saveApiKey (fun k => Returned (rev k)) fresh (lit "__proto__")
                        (lit "sk-test")))
       (lit "__proto__")
     = None.
Proof.
  split.
  - refine (proj1 (proj2 (@saved_key_is_read_back
                            (fun k => Returned (rev k)) (fun k => Returned (rev k))
                            fresh (lit "openai") (lit "sk-test") 116 (lit "set-ks")
                            _ _ _ _ _)) _).
    + vm_compute. discriminate.
    + vm_compute. discriminate.
    + reflexivity.
    + vm_compute. reflexivity.
    + vm_compute. reflexivity.
    + left. vm_compute. discriminate.
  - refine (proj1 (proj2 (proj2 (@saved_key_is_read_back
                            (fun k => Returned (rev k)) (fun k => Returned (rev k))
                            fresh (lit "__proto__") (lit "sk-test") 116 (lit "set-ks")
                            _ _ _ _ _))) _ _).
    + vm_compute. discriminate.
    + vm_compute. discriminate.
    + reflexivity.
    + vm_compute. reflexivity.
    + vm_compute. reflexivity.
    + reflexivity.
    + reflexivity.
Defined.

(** X2: [saveApiKey] changes nothing when it throws: for an empty provider
    or key, when the vault fails to encrypt (the error is passed on), and
    when the file cannot be written. *)
Theorem saveApiKey_throws_unchanged
    (encryptForStorage : jsstring -> outcome jsstring)
    (st : store) (provider apiKey message : jsstring) :
  fst (saveApiKey encryptForStorage st provider apiKey) = Thrown message ->
  snd (saveApiKey encryptForStorage st provider apiKey) = st
  /\ ((provider = [] \/ apiKey = [])
         /\ message = lit "Provider and API key are required"
      \/ encryptForStorage apiKey = Thrown message
      \/ writable st = false /\ message = lit "Failed to save keys database").
Proof.
  unfold saveApiKey.
  destruct apiKey as [|a k].
  { cbn [fst snd]. intros H. injection H as <-. split; [reflexivity|]. left. tauto. }
  destruct provider as [|b p].
  { cbn [fst snd]. intros H. injection H as <-. split; [reflexivity|]. left. tauto. }
  destruct (encryptForStorage (a :: k)) as [enc|m] eqn:E.
  - unfold saveKeysDB. destruct (writable st) eqn:W; cbn [fst snd].
    + discriminate.
    + intros H. injection H as <-. split; [reflexivity|]. right. right. tauto.
  - cbn [fst snd]. intros H. injection H as <-. split; [reflexivity|].
    right. left. reflexivity.
Qed.

(** X2 on a file that cannot be written. *)
Lemma saveApiKey_throws_unchanged_witness :
  snd (saveApiKey (fun k => Returned (rev k))
         (mkStore DEFAULT_MODELS_literal Absent false) (lit "openai") (lit "sk-test"))
  = mkStore DEFAULT_MODELS_literal Absent false.
Proof.
  refine (proj1 (@saveApiKey_throws_unchanged (fun k => Returned (rev k))
                   (mkStore DEFAULT_MODELS_literal Absent false)
                   (lit "openai") (lit "sk-test")
                   (lit "Failed to save keys database") _)).
  vm_compute. reflexivity.
Defined.

(** X3: after [deleteApiKey] has returned [true], [getApiKey] returns
    [null] for the provider.  It returns [false] exactly when the file
    cannot be written and [keys[provider]] is truthy, which is so for a
    stored value that is not empty and, without a stored value, for a name
    that every object inherits (such as [constructor]); then nothing has
    changed.  The keys of the other providers, the active model and the
    catalog are as they were. *)
Theorem deleted_key_is_gone
    (decryptFromStorage : jsstring -> outcome jsstring)
    (st : store) (provider : jsstring) :
  let st' := snd (deleteApiKey st provider) in
  (fst (deleteApiKey st provider) = true ->
   getApiKey decryptFromStorage st' provider = None)
  /\ (fst (deleteApiKey st provider) = false
      <-> writable st = false
          /\ exists ks,
               keys (loadKeysDB st) = Some ks
               /\ ((exists c e, lookup provider ks = Some (c :: e))
                   \/ (lookup provider ks = None
                       /\ In provider Object_prototype_names)))
  /\ (fst (deleteApiKey st provider) = false -> st' = st)
  /\ (forall p, p <> provider ->
        getApiKey decryptFromStorage st' p = getApiKey decryptFromStorage st p)
  /\ getActiveModel st' = getActiveModel st
  /\ ki_models (getAllKeys st') = ki_models (getAllKeys st).
Proof.
  cbv zeta. unfold deleteApiKey.
  destruct (keys (loadKeysDB st)) as [ks|] eqn:K.
  2:{ cbn [fst snd].
      split; [|split; [|split; [discriminate|repeat split; reflexivity]]].
      - intros _. unfold getApiKey. now rewrite K.
      - split; [discriminate|]. intros [_ [ks [H _]]]. discriminate H. }
  destruct (present provider ks) eqn:P.
  2:{ cbn [fst snd].
      split; [|split; [|split; [discriminate|repeat split; reflexivity]]].
      - intros _. unfold getApiKey. rewrite K. unfold present in P.
        destruct (get_property provider ks) as [|[|x v]|];
          [reflexivity|reflexivity|discriminate|discriminate].
      - split; [discriminate|]. intros [_ [ks' [Hk H]]]. exfalso.
        injection Hk as <-. unfold present, get_property in P.
        destruct H as [[c [e H]]|[H1 H2]].
        + rewrite H in P. discriminate.
        + rewrite H1 in P. apply JsFacts.arr_includes_In in H2.
          rewrite H2 in P. discriminate. }
  assert (Htruthy : (exists c e, lookup provider ks = Some (c :: e))
                    \/ (lookup provider ks = None
                        /\ In provider Object_prototype_names)).
  { unfold present, get_property in P.
    destruct (lookup provider ks) as [[|c e]|]; [discriminate| |].
    - left. now exists c, e.
    - right. split; [reflexivity|]. apply JsFacts.arr_includes_In.
      now destruct (arr_includes provider Object_prototype_names). }
  destruct (KeyFacts.save_keys_keeps st (delete_property provider ks)) as [_ [Ha Hc]].
  destruct (writable st) eqn:W.
  - pose proof (@KeyFacts.saved_keys st
                  (mkDb (Some (delete_property provider ks))
                        (models (loadKeysDB st)) (activeModel (loadKeysDB st))) W)
      as Hs.
    destruct (saveKeysDB st _) as [ok st'] eqn:E.
    assert (Hok : ok = true).
    { unfold saveKeysDB in E. rewrite W in E. now injection E as <- _. }
    subst ok. cbn [fst snd] in *.
    split; [|split; [|split; [discriminate|split; [|split; [exact Ha|exact Hc]]]]].
    + intros _. unfold getApiKey, get_property. rewrite Hs. cbn [keys].
      rewrite KeyFacts.lookup_delete_same.
      now destruct (arr_includes provider Object_prototype_names).
    + split; [discriminate|]. intros [H _]. discriminate H.
    + intros q Hq. unfold getApiKey, get_property. rewrite Hs, K. cbn [keys].
      now rewrite KeyFacts.lookup_delete_other.
  - unfold saveKeysDB. rewrite W. cbn [fst snd].
    split; [discriminate|]. split; [|repeat split; reflexivity].
    split; [intros _; split; [reflexivity|]|reflexivity].
    exists ks. split; [reflexivity|exact Htruthy].
Qed.

(** X3 on the registry that holds one key. *)
Lemma deleted_key_is_gone_witness :
  getApiKey (fun k => Returned k)
    (snd (deleteApiKey (Server.keyed (fun k => Returned k)) (lit "openai")))
    (lit "openai")
  = None.
Proof.
  apply (proj1 (deleted_key_is_gone (fun k => Returned k)
                  (Server.keyed (fun k => Returned k)) (lit "openai"))).
  vm_compute. reflexivity.
Defined.

End Keys.

(* ================================================================== *)
(** * The registry: models *)
(* ================================================================== *)

Module ModelFacts.

Import AiKeysManager.

Lemma has_id_includes (i : jsstring) (l : list Model) :
  existsb (has_id i) l = arr_includes i (map id l).
Proof.
  unfold arr_includes. induction l as [|m l IH]; [reflexivity|].
  cbn [existsb map]. rewrite IH. f_equal. unfold has_id.
  destruct (eqb (id m) i) eqn:E.
  - apply JsFacts.eqb_eq in E. subst i. symmetry. apply JsFacts.eqb_refl.
  - symmetry. apply JsFacts.eqb_neq. apply JsFacts.eqb_neq in E. congruence.
Qed.

Lemma save_true (st : store) (d : db) :
  writable st = true ->
  saveKeysDB st d
  = (true, mkStore (DEFAULT_MODELS st)
                   (Stored (mkPersisted (keys d) (option_map (deref st) (models d))
                                        (activeModel d)))
                   true).
Proof. intros W. unfold saveKeysDB. now rewrite W. Qed.

Lemma save_false (st : store) (d : db) :
  writable st = false -> saveKeysDB st d = (false, st).
Proof. intros W. unfold saveKeysDB. now rewrite W. Qed.

(** A write that keeps the list of models keeps the catalog. *)
Lemma save_keeps_catalog (st : store) (ks : option (list (jsstring * jsstring)))
    (a : option jsstring) :
  ki_models (getAllKeys (snd (saveKeysDB st (mkDb ks (models (loadKeysDB st)) a))))
  = ki_models (getAllKeys st).
Proof.
  unfold saveKeysDB. destruct (writable st); [|reflexivity].
  cbn [snd]. rewrite !RegistryFacts.catalog_eq. cbn [DEFAULT_MODELS]. f_equal.
  unfold persisted_models, loadKeysDB. cbn [disk p_models models].
  destruct (disk st) as [| |r]; cbn [option_map deref models p_models];
    try (now rewrite RegistryFacts.custom_of_builtin).
  destruct (p_models r); reflexivity.
Qed.

Lemma existsb_filter_out (i : jsstring) (l : list Model) :
  existsb (has_id i) (filter (fun m => negb (has_id i m)) l) = false.
Proof.
  induction l as [|m l IH]; [reflexivity|]. cbn [filter].
  destruct (has_id i m) eqn:E; cbn [negb]; [exact IH|].
  cbn [existsb]. now rewrite E.
Qed.

Lemma existsb_sub_filter (i : jsstring) (f : Model -> bool) (l : list Model) :
  existsb (has_id i) l = false -> existsb (has_id i) (filter f l) = false.
Proof.
  induction l as [|m l IH]; [reflexivity|]. cbn [existsb filter].
  intros H. apply orb_false_iff in H as [H1 H2].
  destruct (f m); [cbn [existsb]; rewrite H1|]; now apply IH.
Qed.

Lemma checked_models (st : store) :
  match models (loadKeysDB st) with
  | Some r => deref st r
  | None => DEFAULT_MODELS st
  end
  = match disk st with
    | Stored r => match p_models r with Some l => l | None => DEFAULT_MODELS st end
    | _ => DEFAULT_MODELS st
    end.
Proof.
  unfold loadKeysDB. destruct (disk st) as [| |r]; try reflexivity.
  simpl. now destruct (p_models r).
Qed.

Lemma setActiveModel_listed (st : store) (modelId : jsstring) :
  existsb (has_id modelId)
    match disk st with
    | Stored r => match p_models r with Some l => l | None => DEFAULT_MODELS st end
    | _ => DEFAULT_MODELS st
    end = true ->
  setActiveModel st modelId
  = (Returned (writable st),
     snd (saveKeysDB st (mkDb (keys (loadKeysDB st)) (models (loadKeysDB st))
                              (Some modelId)))).
Proof.
  intros H. unfold setActiveModel. rewrite checked_models, H. cbn [negb].
  unfold saveKeysDB. destruct (writable st); reflexivity.
Qed.

End ModelFacts.

Section Models.

Import AiKeysManager.

(** X4: the active model that has been set is read back.  For a non-empty
    id of the list that [setActiveModel] checks and a file that can be
    written, the call returns [true], [getActiveModel] then returns the id,
    and the catalog and the keys are as they were; when the call throws or
    returns [false] nothing has changed. *)
Theorem active_model_is_read_back (st : store) (modelId : jsstring) :
  let checked :=
    match disk st with
    | Stored r => match p_models r with Some l => l | None => DEFAULT_MODELS st end
    | _ => DEFAULT_MODELS st
    end in
  let st' := snd (setActiveModel st modelId) in
  (modelId <> [] -> existsb (has_id modelId) checked = true -> writable st = true ->
   fst (setActiveModel st modelId) = Returned true
   /\ getActiveModel st' = modelId
   /\ ki_models (getAllKeys st') = ki_models (getAllKeys st)
   /\ keys (loadKeysDB st') = keys (loadKeysDB st))
  /\ (fst (setActiveModel st modelId) <> Returned true -> st' = st).
Proof.
  cbv zeta. split.
  - intros Hne Hin W.
    rewrite (ModelFacts.setActiveModel_listed _ _ Hin). cbn [fst snd].
    split; [now rewrite W|].
    split; [|split; [apply ModelFacts.save_keeps_catalog|]].
    + rewrite ModelFacts.save_true by exact W. cbn [snd].
      unfold getActiveModel, loadKeysDB. cbn [disk activeModel p_activeModel].
      destruct modelId; [contradiction|reflexivity].
    + now rewrite ModelFacts.save_true by exact W.
  - destruct (existsb (has_id modelId)
                match disk st with
                | Stored r => match p_models r with
                              | Some l => l
                              | None => DEFAULT_MODELS st
                              end
                | _ => DEFAULT_MODELS st
                end) eqn:Hin.
    + rewrite (ModelFacts.setActiveModel_listed _ _ Hin). cbn [fst snd].
      destruct (writable st) eqn:W; [intros H; now contradiction H|].
      intros _. now rewrite ModelFacts.save_false by exact W.
    + intros _.
      now rewrite (proj1 (RegistryFacts.setActiveModel_throws st modelId) Hin).
Qed.

(** X4 on the registry without a file. *)
Lemma active_model_is_read_back_witness :
  getActiveModel (snd (setActiveModel fresh (lit "gpt-4o"))) = lit "gpt-4o".
Proof.
  refine (proj1 (proj2 (proj1 (active_model_is_read_back fresh (lit "gpt-4o"))
                          _ _ _))).
  - vm_compute. discriminate.
  - vm_compute. reflexivity.
  - reflexivity.
Defined.

(** X5: a model that [addModel] has added and written is appended to the
    catalog, unless its id is the id of a built-in model that the stored
    list lacks: then the catalog is as it was.  The active model is kept,
    and adding the same model again throws. *)
Theorem added_model_is_listed (st st' : store) (m : Model) :
  addModel st m = (Returned true, st') ->
  ki_models (getAllKeys st')
  = ki_models (getAllKeys st)
    ++ (if arr_includes (id m) (map id (DEFAULT_MODELS st)) then [] else [m])
  /\ getActiveModel st' = getActiveModel st
  /\ addModel st' m = (Thrown (lit "Model already exists"), st').
Proof.
  unfold addModel.
  destruct (id m) as [|i0 i] eqn:Ei; [discriminate|].
  destruct (name m) as [|n0 n] eqn:En; [discriminate|].
  destruct (provider m) as [|p0 p] eqn:Ep; [discriminate|].
  rewrite <- Ei.
  destruct (existsb (has_id (id m))
              (deref st match models (loadKeysDB st) with
                        | Some r => r
                        | None => Shared
                        end)) eqn:Hex; [discriminate|].
  destruct (writable st) eqn:W.
  2:{ destruct (match models (loadKeysDB st) with Some r => r | None => Shared end);
        rewrite ModelFacts.save_false by (try exact W; reflexivity); discriminate. }
  assert (Hactive : forall D ks r,
            getActiveModel
              (mkStore D (Stored (mkPersisted ks r (activeModel (loadKeysDB st)))) true)
            = getActiveModel st).
  { intros D ks r. unfold getActiveModel, loadKeysDB.
    cbn [disk activeModel p_activeModel].
    destruct (disk st) as [| |r0]; reflexivity. }
  assert (Hself : has_id (id m) m = true) by apply JsFacts.eqb_refl.
  destruct (match models (loadKeysDB st) with Some r => r | None => Shared end)
    as [|l] eqn:Hr.
  - (* the list of the record is the built-in array itself *)
    rewrite ModelFacts.save_true by (try exact W; reflexivity).
    intros H. injection H as <-. cbn [deref DEFAULT_MODELS option_map models].
    cbn [deref] in Hex.
    assert (Hp : persisted_models st = []).
    { unfold persisted_models. revert Hr. unfold loadKeysDB.
      destruct (disk st) as [| |r0]; try reflexivity.
      cbn [models]. destruct (p_models r0); [discriminate|reflexivity]. }
    split; [|split].
    + rewrite !RegistryFacts.catalog_eq. unfold persisted_models at 1.
      cbn [DEFAULT_MODELS disk p_models]. rewrite RegistryFacts.custom_of_builtin.
      rewrite Hp. cbn [filter]. rewrite !app_nil_r.
      now rewrite <- ModelFacts.has_id_includes, Hex.
    + apply Hactive.
    + cbn [loadKeysDB disk models option_map p_models deref].
      rewrite existsb_app. cbn [existsb]. rewrite Hself, orb_true_r. reflexivity.
  - (* the record has a list of its own *)
    rewrite ModelFacts.save_true by (try exact W; reflexivity).
    intros H. injection H as <-. cbn [deref DEFAULT_MODELS option_map models].
    cbn [deref] in Hex.
    assert (Hp : persisted_models st = l).
    { unfold persisted_models. revert Hr. unfold loadKeysDB.
      destruct (disk st) as [| |r0]; try discriminate.
      cbn [models]. destruct (p_models r0); [|discriminate].
      cbn [option_map]. now intros [= ->]. }
    split; [|split].
    + rewrite !RegistryFacts.catalog_eq. unfold persisted_models at 1.
      cbn [DEFAULT_MODELS disk p_models]. rewrite Hp, filter_app, app_assoc.
      f_equal. cbn [filter].
      now destruct (arr_includes (id m) (map id (DEFAULT_MODELS st))).
    + apply Hactive.
    + cbn [loadKeysDB disk models option_map p_models deref].
      rewrite existsb_app. cbn [existsb]. rewrite Hself, orb_true_r. reflexivity.
Qed.

(** X5 on the registry without a file. *)
Lemma added_model_is_listed_witness :
  ki_models (getAllKeys (snd (addModel fresh (model "my-model" "Mine" "openai"))))
  = ki_models (getAllKeys fresh) ++ [model "my-model" "Mine" "openai"].
Proof.
  refine (proj1 (@added_model_is_listed fresh _ (model "my-model" "Mine" "openai") _)).
  vm_compute. reflexivity.
Defined.

(** X6: when the record has no list of models of its own (no file, an
    unreadable file, or a record without [models]), [addModel] pushes the
    model onto the built-in array itself, whether or not the file can be
    written.  The model is then listed, [deleteModel] refuses to delete it
    as a default model, and adding it again throws. *)
Theorem added_model_becomes_builtin (st : store) (m : Model) :
  match disk st with Stored r => p_models r = None | _ => True end ->
  id m <> [] -> name m <> [] -> provider m <> [] ->
  existsb (has_id (id m)) (DEFAULT_MODELS st) = false ->
  let st' := snd (addModel st m) in
  fst (addModel st m) = Returned (writable st)
  /\ DEFAULT_MODELS st' = DEFAULT_MODELS st ++ [m]
  /\ In m (ki_models (getAllKeys st'))
  /\ deleteModel st' (id m) = (Thrown (lit "Cannot delete default model"), st')
  /\ addModel st' m = (Thrown (lit "Model already exists"), st').
Proof.
  intros Hd Hi Hn Hp Hex. cbv zeta.
  assert (Hr : match models (loadKeysDB st) with Some r => r | None => Shared end
               = Shared).
  { unfold loadKeysDB. destruct (disk st) as [| |r]; try reflexivity.
    cbn [models]. now rewrite Hd. }
  assert (Hself : has_id (id m) m = true) by apply JsFacts.eqb_refl.
  assert (Hadd : addModel st m
                 = (Returned (writable st),
                    snd (saveKeysDB
                           (mkStore (DEFAULT_MODELS st ++ [m]) (disk st) (writable st))
                           (mkDb (keys (loadKeysDB st)) (Some Shared)
                                 (activeModel (loadKeysDB st)))))).
  { unfold addModel.
    destruct (id m) as [|i0 i] eqn:Ei; [contradiction|].
    destruct (name m) as [|n0 n]; [contradiction|].
    destruct (provider m) as [|p0 p]; [contradiction|].
    rewrite Hr. cbn [deref]. rewrite Hex.
    unfold saveKeysDB. cbn [writable]. destruct (writable st); reflexivity. }
  rewrite Hadd. cbn [fst snd].
  set (st' := snd (saveKeysDB _ _)).
  assert (HD : DEFAULT_MODELS st' = DEFAULT_MODELS st ++ [m]).
  { subst st'. now rewrite RegistryFacts.builtins_kept_step_save. }
  assert (Hlisted : existsb (has_id (id m)) (DEFAULT_MODELS st') = true).
  { rewrite HD, existsb_app. cbn [existsb]. now rewrite Hself, orb_true_r. }
  split; [reflexivity|]. split; [exact HD|]. split; [|split].
  - rewrite RegistryFacts.catalog_eq, HD. apply in_app_iff. left.
    apply in_app_iff. right. now left.
  - unfold deleteModel. now rewrite Hlisted.
  - unfold addModel.
    destruct (id m) as [|i0 i] eqn:Ei; [contradiction|].
    destruct (name m) as [|n0 n]; [contradiction|].
    destruct (provider m) as [|p0 p]; [contradiction|].
    rewrite <- Ei in *.
    assert (Hd' : existsb (has_id (id m))
                    (deref st' match models (loadKeysDB st') with
                               | Some r => r
                               | None => Shared
                               end) = true).
    { subst st'. unfold saveKeysDB. cbn [writable].
      destruct (writable st); cbn [snd].
      - cbn [loadKeysDB disk models option_map p_models deref DEFAULT_MODELS].
        rewrite existsb_app. cbn [existsb]. now rewrite Hself, orb_true_r.
      - unfold loadKeysDB at 1. cbn [disk].
        destruct (disk st) as [| |r]; cbn [models deref DEFAULT_MODELS];
          try (rewrite existsb_app; cbn [existsb]; now rewrite Hself, orb_true_r).
        rewrite Hd. cbn [option_map deref DEFAULT_MODELS].
        rewrite existsb_app. cbn [existsb]. now rewrite Hself, orb_true_r. }
    now rewrite Hd'.
Qed.

(** X6 on the registry without a file, which cannot be written. *)
Lemma added_model_becomes_builtin_witness :
  In (model "my-model" "Mine" "openai")
     (ki_models (getAllKeys
        (snd (addModel (mkStore DEFAULT_MODELS_literal Absent false)
                       (model "my-model" "Mine" "openai")))))
  /\ fst (deleteModel
            (snd (addModel (mkStore DEFAULT_MODELS_literal Absent false)
                           (model "my-model" "Mine" "openai")))
            (lit "my-model"))
     = Thrown (lit "Cannot delete default model").
Proof.
  pose proof (@added_model_becomes_builtin
                (mkStore DEFAULT_MODELS_literal Absent false)
                (model "my-model" "Mine" "openai")) as H.
  cbv zeta in H.
  destruct H as [_ [_ [Hin [Hdel _]]]].
  - exact I.
  - vm_compute. discriminate.
  - vm_compute. discriminate.
  - vm_compute. discriminate.
  - vm_compute. reflexivity.
  - split; [exact Hin|].
    change (lit "my-model") with (id (model "my-model" "Mine" "openai")).
    now rewrite Hdel.
Defined.

(** X7: [deleteModel] throws for the id of a built-in model and changes
    nothing.  After it has returned [true], no model of the catalog has the
    id; when the record has a list of models, the active model is
    [gpt-5-mini] if it was the deleted id and is kept otherwise.  When it
    returns [false] nothing has changed. *)
Theorem deleted_model_is_gone (st st' : store) (modelId : jsstring) :
  (existsb (has_id modelId) (DEFAULT_MODELS st) = true ->
   deleteModel st modelId = (Thrown (lit "Cannot delete default model"), st))
  /\ (deleteModel st modelId = (Returned true, st') ->
      existsb (has_id modelId) (ki_models (getAllKeys st')) = false
      /\ (models (loadKeysDB st) <> None ->
          getActiveModel st'
          = if eqb (getActiveModel st) modelId then lit "gpt-5-mini"
            else getActiveModel st))
  /\ (deleteModel st modelId = (Returned false, st') -> st' = st).
Proof.
  unfold deleteModel. split; [intros H; now rewrite H|].
  destruct (existsb (has_id modelId) (DEFAULT_MODELS st)) eqn:Hd;
    [split; discriminate|].
  destruct (models (loadKeysDB st)) as [r|] eqn:Hr.
  2:{ split; [|discriminate]. intros H. injection H as <-.
      split; [|intros C; now contradiction C].
      rewrite RegistryFacts.catalog_eq, existsb_app, Hd. cbn [orb].
      unfold persisted_models. revert Hr. unfold loadKeysDB.
      destruct (disk st) as [| |r0]; try discriminate.
      cbn [models]. destruct (p_models r0); [discriminate|reflexivity]. }
  destruct (writable st) eqn:W.
  2:{ rewrite ModelFacts.save_false by exact W.
      split; [discriminate|]. now intros [= <-]. }
  rewrite ModelFacts.save_true by exact W. split; [|discriminate].
  intros H. injection H as <-. split.
  - rewrite RegistryFacts.catalog_eq. cbn [DEFAULT_MODELS].
    rewrite existsb_app, Hd. cbn [orb].
    unfold persisted_models.
    cbn [disk p_models option_map models deref].
    apply ModelFacts.existsb_sub_filter, ModelFacts.existsb_filter_out.
  - intros _. unfold getActiveModel at 1. cbn [loadKeysDB disk activeModel p_activeModel].
    unfold getActiveModel.
    destruct (activeModel (loadKeysDB st)) as [[|a0 a]|] eqn:Ha.
    + destruct modelId as [|x y]; cbn [eqb]; [reflexivity|].
      now destruct (eqb (lit "gpt-5-mini") (x :: y)).
    + destruct (eqb (a0 :: a) modelId); reflexivity.
    + now destruct (eqb (lit "gpt-5-mini") modelId).
Qed.

(** X7 on a file with one custom model, which is the active one. *)
Lemma deleted_model_is_gone_witness :
  existsb (has_id (lit "my-model"))
          (ki_models (getAllKeys (snd (deleteModel stale (lit "my-model"))))) = false
  /\ getActiveModel stale = lit "my-model"
  /\ getActiveModel (snd (deleteModel stale (lit "my-model"))) = lit "gpt-5-mini".
Proof.
  destruct (proj1 (proj2 (@deleted_model_is_gone stale
                            (snd (deleteModel stale (lit "my-model")))
                            (lit "my-model"))))
    as [Hgone Hactive].
  - vm_compute. reflexivity.
  - split; [exact Hgone|]. split; [reflexivity|].
    rewrite Hactive; [reflexivity|]. vm_compute. discriminate.
Defined.

End Models.

(* ================================================================== *)
(** * The routes of the registry *)
(* ================================================================== *)

Section Routes.

Import Validation AiKeysManager Server.

(** X8: what the routes of the registry answer when the file cannot be
    written.  The route that saves a key never answers 200 and changes
    nothing; the routes that delete a key, set the active model, delete a
    model and add a model answer 200 with their message of success although
    the file is as it was. *)
Theorem routes_when_the_file_cannot_be_written
    (encryptForStorage : jsstring -> outcome jsstring)
    (st : store) (provider modelId : jsstring) (apiKey : option jsstring)
    (m : Model) :
  writable st = false ->
  status_of (Returned (fst (post_ai_key encryptForStorage provider apiKey st)))
  <> Some 200%N
  /\ snd (post_ai_key encryptForStorage provider apiKey st) = st
  /\ delete_ai_key provider st = (succeeded (lit "API key deleted successfully"), st)
  /\ (modelId <> [] ->
      existsb (has_id modelId)
        match disk st with
        | Stored r => match p_models r with Some l => l | None => DEFAULT_MODELS st end
        | _ => DEFAULT_MODELS st
        end = true ->
      post_active_model (Some modelId) st
      = (succeeded (lit "Active model updated successfully"), st))
  /\ (existsb (has_id modelId) (DEFAULT_MODELS st) = false ->
      delete_ai_model modelId st
      = (succeeded (lit "Model deleted successfully"), st))
  /\ (id m <> [] -> name m <> [] -> AiKeysManager.provider m <> [] ->
      existsb (has_id (id m))
        match disk st with
        | Stored r => match p_models r with Some l => l | None => DEFAULT_MODELS st end
        | _ => DEFAULT_MODELS st
        end = false ->
      fst (post_ai_model m st) = succeeded (lit "Model added successfully")
      /\ disk (snd (post_ai_model m st)) = disk st).
Proof.
  intros W. split; [|split; [|split; [|split; [|split]]]].
  - unfold post_ai_key. destruct (or_empty apiKey) as [|a k]; [discriminate|].
    unfold saveApiKey. destruct provider as [|b p]; [discriminate|].
    destruct (encryptForStorage (a :: k)); [|discriminate].
    rewrite ModelFacts.save_false by exact W. discriminate.
  - unfold post_ai_key. destruct (or_empty apiKey) as [|a k]; [reflexivity|].
    unfold saveApiKey. destruct provider as [|b p]; [reflexivity|].
    destruct (encryptForStorage (a :: k)); [|reflexivity].
    now rewrite ModelFacts.save_false by exact W.
  - unfold delete_ai_key, deleteApiKey.
    destruct (keys (loadKeysDB st)) as [ks|]; [|reflexivity].
    destruct (present provider ks); [|reflexivity].
    now rewrite ModelFacts.save_false by exact W.
  - intros Hne Hin. unfold post_active_model.
    destruct modelId as [|x y]; [contradiction|]. cbn [or_empty].
    rewrite (ModelFacts.setActiveModel_listed _ _ Hin).
    now rewrite ModelFacts.save_false by exact W.
  - intros Hd. unfold delete_ai_model, deleteModel. rewrite Hd.
    destruct (models (loadKeysDB st)); [|reflexivity].
    now rewrite ModelFacts.save_false by exact W.
  - intros Hi Hn Hp Hex. unfold post_ai_model, addModel.
    destruct (id m) as [|i0 i] eqn:Ei; [contradiction|].
    destruct (name m) as [|n0 n]; [contradiction|].
    destruct (AiKeysManager.provider m) as [|p0 p]; [contradiction|].
    rewrite <- ModelFacts.checked_models in Hex.
    destruct (models (loadKeysDB st)) as [[|l]|]; cbn [deref] in *; rewrite Hex;
      rewrite ModelFacts.save_false by (try exact W; cbn [writable]; exact W);
      split; reflexivity.
Qed.

(** X8 on the registry without a file, which cannot be written. *)
Lemma routes_when_the_file_cannot_be_written_witness :
  post_active_model (Some (lit "gpt-4o")) (mkStore DEFAULT_MODELS_literal Absent false)
  = (succeeded (lit "Active model updated successfully"),
     mkStore DEFAULT_MODELS_literal Absent false)
  /\ get_active_model (mkStore DEFAULT_MODELS_literal Absent false)
     = Respond 200 (JObj [ (lit "success", JBool true);
                           (lit "model", JStr (lit "gpt-5-mini")) ]).
Proof.
  split; [|reflexivity].
  refine (proj1 (proj2 (proj2 (proj2
            (@routes_when_the_file_cannot_be_written (fun k => Returned k)
               (mkStore DEFAULT_MODELS_literal Absent false)
               (lit "openai") (lit "gpt-4o") None
               (AiKeysManager.model "my-model" "Mine" "openai") _)))) _ _).
  - reflexivity.
  - vm_compute. discriminate.
  - vm_compute. reflexivity.
Defined.

End Routes.

(* ================================================================== *)
(** * Sanitisation and validation of requests *)
(* ================================================================== *)

Module SanitizeFacts.

Import Regex Replace Validation.

(** A global replacement by the empty string only removes units. *)
Lemma scan_removes (P : N -> Prop) (r : regex) (s before : jsstring) (skip : nat) :
  Forall P s -> Forall P (replace_scan r [] before skip s).
Proof.
  intros H. revert before skip.
  induction H as [|c t Hc Ht IH]; intros before skip; [constructor|].
  cbn [replace_scan]. destruct skip as [|n]; [|apply IH].
  destruct (match_here r (c :: t)) as [[[|len] caps]|].
  - constructor; [exact Hc|apply IH].
  - cbn [getSubstitution app]. apply IH.
  - constructor; [exact Hc|apply IH].
Qed.

(** The first replacement removes every angle bracket. *)
Lemma scan_angle (P : N -> Prop) (s before : jsstring) (skip : nat) :
  Forall P s ->
  Forall (fun c => P c /\ c <> 60%N /\ c <> 62%N)
         (replace_scan re_angle [] before skip s).
Proof.
  intros H. revert before skip.
  induction H as [|c t Hc Ht IH]; intros before skip; [constructor|].
  cbn [replace_scan]. destruct skip as [|n]; [|apply IH].
  unfold match_here, re_angle. cbn [run].
  destruct ((c =? 60) || (c =? 62))%N eqn:E.
  - cbn [List.length].
    replace (S (List.length t) - List.length t)%nat with 1%nat by lia.
    cbn [getSubstitution app]. apply IH.
  - apply orb_false_iff in E as [E1 E2].
    apply N.eqb_neq in E1. apply N.eqb_neq in E2.
    constructor; [tauto|apply IH].
Qed.

Lemma trimStart_sub (P : N -> Prop) (s : jsstring) :
  Forall P s -> Forall P (trimStart s).
Proof.
  induction 1 as [|c t Hc Ht IH]; [constructor|].
  cbn [trimStart]. destruct (is_space c); [exact IH|now constructor].
Qed.

Lemma trim_sub (P : N -> Prop) (s : jsstring) : Forall P s -> Forall P (trim s).
Proof.
  intros H. unfold trim, trimEnd.
  apply Forall_rev, trimStart_sub, Forall_rev, trimStart_sub, H.
Qed.

Lemma trimStart_head (s : jsstring) (c : N) (t : jsstring) :
  trimStart s = c :: t -> is_space c = false.
Proof.
  induction s as [|x s IH]; [discriminate|].
  cbn [trimStart]. destruct (is_space x) eqn:E; [exact IH|].
  now intros [= <- _].
Qed.

Lemma trimStart_last (l : jsstring) (c : N) :
  is_space c = false -> trimStart (l ++ [c]) = trimStart l ++ [c].
Proof.
  intros Hc. induction l as [|x l IH]; cbn [app trimStart].
  - now rewrite Hc.
  - destruct (is_space x); [exact IH|reflexivity].
Qed.

(** What [trim] returns does not begin with white space. *)
Lemma trim_head (s : jsstring) (c : N) (t : jsstring) :
  trim s = c :: t -> is_space c = false.
Proof.
  unfold trim, trimEnd. destruct (trimStart s) as [|x z] eqn:E.
  - discriminate.
  - pose proof (trimStart_head _ E) as Hx.
    cbn [rev]. rewrite trimStart_last by exact Hx.
    rewrite rev_app_distr. cbn [rev app]. now intros [= <- _].
Qed.

Lemma firstn_sub (P : N -> Prop) (n : nat) (s : jsstring) :
  Forall P s -> Forall P (firstn n s).
Proof.
  intros H. revert n. induction H as [|c t Hc Ht IH]; intros [|n]; cbn [firstn];
    try constructor; auto.
Qed.

Lemma sanitizeString_clean (input : jsstring) :
  Forall (fun c => In c input /\ c <> 60%N /\ c <> 62%N) (sanitizeString input).
Proof.
  unfold sanitizeString, slice0, replace_g.
  apply firstn_sub, trim_sub, scan_removes, scan_removes, scan_angle.
  apply Forall_forall. auto.
Qed.

End SanitizeFacts.

Section Sanitize.

Import Regex Replace Validation.

(** X9: what [sanitizeString] returns is made of units of the input, holds
    no angle bracket, has at most 10000 units and does not begin with white
    space. *)
Theorem sanitizeString_output (input : jsstring) :
  Forall (fun c => In c input /\ c <> 60%N /\ c <> 62%N) (sanitizeString input)
  /\ (N.of_nat (List.length (sanitizeString input)) <= 10000)%N
  /\ (forall c t, sanitizeString input = c :: t -> is_space c = false).
Proof.
  split; [apply SanitizeFacts.sanitizeString_clean|]. split.
  - unfold sanitizeString, slice0.
    pose proof (firstn_le_length (N.to_nat 10000)
                  (trim (replace_g re_handler []
                           (replace_g re_javascript [] (replace_g re_angle [] input))))).
    lia.
  - unfold sanitizeString, slice0. intros c t H.
    destruct (trim _) as [|x z] eqn:E.
    + now rewrite firstn_nil in H.
    + assert (E' : N.to_nat 10000 = S (N.to_nat 9999)) by lia.
      rewrite E' in H. cbn [firstn] in H.
      injection H as <- _. eapply SanitizeFacts.trim_head, E.
Qed.

End Sanitize.

Module ValidationFacts.

Import Validation.









End ValidationFacts.

Section Validate.

Import Validation.





(** X12: in a request that has passed validation every string is
    sanitised: the fields, the previous questions and the keys and values of
    the demographic data hold no angle bracket and have at most 10000
    units. *)
Theorem sanitized_request_is_clean (body : analyzeAnswerBody) (v : sanitized) :
  validateAnalyzeAnswerRequest body = Valid v ->
  clean (answer v) /\ clean (objective v) /\ clean (desiredInsights v)
  /\ clean (keyQuestions v) /\ clean (hypothesis v) /\ clean (currentTopic v)
  /\ clean (customPrompt v) /\ clean (model v)
  /\ Forall clean (previousQuestions v)
  /\ Forall (fun kv => clean (fst kv) /\ clean (snd kv)) (demographicData v).
Proof.
  assert (Hc : forall s, clean (sanitizeString s)).
  { intros s. destruct (sanitizeString_output s) as [H1 [H2 _]].
    split; [|exact H2]. eapply Forall_impl; [|exact H1]. cbv beta. tauto. }
  assert (Hv : forall value, clean (sanitize value)).
  { intros [[| | |s| |]|]; try apply Hc; split; (constructor || (cbn; lia)). }
  unfold validateAnalyzeAnswerRequest.
  destruct (_ ++ _ ++ _); [|discriminate].
  intros H. injection H as <-.
  cbn [answer objective desiredInsights keyQuestions hypothesis currentTopic
       customPrompt model previousQuestions demographicData].
  do 2 (split; [apply Hv|]).
  repeat (split; [apply Hc|]). split.
  - destruct (b_previousQuestions body) as [qs|]; [|constructor].
    apply Forall_forall. intros q Hq. apply in_map_iff in Hq as [x [<- _]]. apply Hc.
  - destruct (b_demographicData body) as [d|]; [|constructor].
    unfold fromEntries.
    assert (Hf : forall es o,
               Forall (fun kv => clean (fst kv) /\ clean (snd kv)) es ->
               Forall (fun kv => clean (fst kv) /\ clean (snd kv)) o ->
               Forall (fun kv : jsstring * jsstring => clean (fst kv) /\ clean (snd kv))
                      (fold_left (fun o kv => set_property (fst kv) (snd kv) o) es o)).
    { induction es as [|[k x] es IH]; intros o Hes Ho; [exact Ho|].
      cbn [fold_left fst snd]. inversion Hes as [|? ? [Hk Hx] Hes']; subst.
      apply IH; [exact Hes'|].
      clear IH Hes Hes'. induction Ho as [|[k' x'] o [Hk' Hx'] Ho IHo];
        cbn [set_property].
      - constructor; [split; assumption|constructor].
      - destruct (eqb k' k); constructor; try (split; assumption); assumption. }
    apply Hf; [|constructor].
    apply Forall_forall. intros kv Hkv. apply in_map_iff in Hkv as [x [<- _]].
    cbn [fst snd]. split; apply Hc.
Qed.

(** X12 on a request with angle brackets in its answer. *)
Lemma sanitized_request_is_clean_witness :
  exists v,
    validateAnalyzeAnswerRequest
      (mkBody (Some (JStr (lit "I <b>buy</b> it")))
              (Some (JStr (lit "Why people choose oat milk")))
              None None None None None None None None None None)
    = Valid v
    /\ answer v = lit "I bbuy/b it" /\ clean (answer v).
Proof.
  eexists. split; [vm_compute; reflexivity|]. split; [reflexivity|].
  refine (proj1 (@sanitized_request_is_clean
                   (mkBody (Some (JStr (lit "I <b>buy</b> it")))
                           (Some (JStr (lit "Why people choose oat milk")))
                           None None None None None None None None None None)
                   _ _)).
  vm_compute. reflexivity.
Defined.

End Validate.

(* ================================================================== *)
(** * The contracts of the handlers *)
(* ================================================================== *)

Module ContractFacts.

Import Validation Server.

Lemma field_set_field (k : jsstring) (v : json) (fields : list (jsstring * json)) :
  field k (set_field k v fields) = Some v.
Proof.
  induction fields as [|[k' v'] fields IH]; cbn [set_field field].
  - now rewrite JsFacts.eqb_refl.
  - destruct (eqb k' k) eqn:E; cbn [field]; rewrite E; [reflexivity|exact IH].
Qed.

Lemma getSafeModel_not_empty (modelId : jsstring) :
  ModelValidator.getSafeModel modelId <> [].
Proof.
  intros C. pose proof (HandlerFacts.getSafeModel_confirmed modelId) as H.
  rewrite C in H. simpl in H.
  repeat (destruct H as [H|H]; [discriminate H|]). exact H.
Qed.

Lemma or_default_safe (modelId fallback : jsstring) :
  or_default (ModelValidator.getSafeModel modelId) fallback
  = ModelValidator.getSafeModel modelId.
Proof.
  pose proof (getSafeModel_not_empty modelId).
  now destruct (ModelValidator.getSafeModel modelId).
Qed.

(** The three ways in which the check of the next action ends. *)
Lemma checkNextAction_cases (result : json) (modelToUse fallbackModel : jsstring) :
  (exists message, checkNextAction result modelToUse fallbackModel = Thrown message)
  \/ checkNextAction result modelToUse fallbackModel
     = Returned (Respond 500 (error_body (lit "AI did not generate a question")
                   (lit "Please try again or check your prompt settings")))
  \/ checkNextAction result modelToUse fallbackModel
     = Returned (Respond 200 (JObj
         (set_field (lit "model") (JStr (or_default modelToUse fallbackModel))
            (spread [(lit "success", JBool true)] result)))).
Proof.
  unfold checkNextAction.
  destruct result; try (left; eexists; reflexivity);
    try (right; right; reflexivity).
  destruct (get (lit "nextAction") (JObj fields)) as [na|]; [|right; right; reflexivity].
  destruct (truthy (Some na) && is_action (get (lit "type") na));
    [|right; right; reflexivity].
  destruct (truthy (get (lit "question") na)); [|right; left; reflexivity].
  destruct (get (lit "question") na) as [[| | |q| |]|];
    try (left; eexists; reflexivity).
  destruct (blank q); [right; left; reflexivity|right; right; reflexivity].
Qed.


Lemma trimStart_fixed (s : jsstring) :
  match s with [] => True | c :: _ => is_space c = false end -> trimStart s = s.
Proof. destruct s as [|c t]; [reflexivity|]. cbn [trimStart]. now intros ->. Qed.

(** What [trim] returns is left as it is by [trim]. *)
Lemma trim_trim (s : jsstring) : trim (trim s) = trim s.
Proof.
  unfold trim at 1. unfold trimEnd at 1.
  rewrite (trimStart_fixed (trim s)).
  - unfold trim, trimEnd. rewrite rev_involutive. f_equal.
    apply trimStart_fixed.
    destruct (trimStart (rev (trimStart s))) as [|c t] eqn:E; [exact I|].
    exact (SanitizeFacts.trimStart_head _ E).
  - destruct (trim s) as [|c t] eqn:E; [exact I|].
    exact (SanitizeFacts.trim_head _ E).
Qed.


(** A successful check of a next action that asks for a question found a
    question in it. *)
Lemma checkNextAction_question (result : json) (modelToUse fallbackModel : jsstring)
    (b na : json) :
  checkNextAction result modelToUse fallbackModel = Returned (Respond 200 b) ->
  get (lit "nextAction") result = Some na ->
  is_action (get (lit "type") na) = true ->
  exists q, get (lit "question") na = Some (JStr q) /\ blank q = false.
Proof.
  unfold checkNextAction. intros H Hna Ha.
  destruct result; try discriminate Hna.
  rewrite Hna, Ha in H.
  assert (Ht : truthy (Some na) = true).
  { destruct na; try reflexivity; discriminate Ha. }
  rewrite Ht in H. cbn [andb] in H.
  destruct (truthy (get (lit "question") na)); [|discriminate H].
  destruct (get (lit "question") na) as [[| | |q| |]|]; try discriminate H.
  destruct (blank q) eqn:Eb; [discriminate H|].
  now exists q.
Qed.

Lemma eqb_sym (a b : jsstring) : eqb a b = eqb b a.
Proof.
  revert b. induction a as [|x a IH]; intros [|y b]; cbn [eqb]; try reflexivity.
  now rewrite N.eqb_sym, IH.
Qed.

Lemma field_set_field_other (k k0 : jsstring) (v : json)
    (fields : list (jsstring * json)) :
  k <> k0 -> field k (set_field k0 v fields) = field k fields.
Proof.
  intros Hk. induction fields as [|[k' v'] fields IH]; cbn [set_field field].
  - assert (E : eqb k0 k = false) by (apply JsFacts.eqb_neq; congruence).
    now rewrite E.
  - destruct (eqb k' k0) eqn:E0; cbn [field].
    + apply JsFacts.eqb_eq in E0. subst k'.
      assert (E : eqb k0 k = false) by (apply JsFacts.eqb_neq; congruence).
      now rewrite E.
    + now rewrite IH.
Qed.

Lemma field_absent (k : jsstring) (fields : list (jsstring * json)) :
  ~ In k (map fst fields) -> field k fields = None.
Proof.
  induction fields as [|[k' v'] fields IH]; [reflexivity|].
  cbn [map fst In field]. intros H.
  assert (E : eqb k' k = false) by (apply JsFacts.eqb_neq; tauto).
  rewrite E. apply IH. tauto.
Qed.

(** The properties of an object with distinct keys, spread over others. *)
Lemma field_spread (k : jsstring) (fields into : list (jsstring * json)) :
  NoDup (map fst fields) ->
  field k (fold_left (fun acc kv => set_field (fst kv) (snd kv) acc) fields into)
  = match field k fields with
    | Some v => Some v
    | None => field k into
    end.
Proof.
  intros H. revert into. induction fields as [|[k0 v0] fields IH]; intros into;
    [reflexivity|].
  cbn [map fst] in H. inversion H as [|? ? Hnot Hrest]; subst.
  cbn [fold_left fst snd field]. rewrite (IH Hrest).
  destruct (eqb k0 k) eqn:E.
  - apply JsFacts.eqb_eq in E. subst k0.
    now rewrite (field_absent _ _ Hnot), field_set_field.
  - destruct (field k fields); [reflexivity|].
    apply field_set_field_other. apply JsFacts.eqb_neq in E. congruence.
Qed.

End ContractFacts.

Section Contracts.

Import Validation Server.








(** X17: an answer analysis that succeeds with a next action of type
    [probe] or [next_question] has a question to ask.  When the handler
    answers 200 it has made one call, and if the reply of the provider
    parsed to a value whose [nextAction] has one of these types, the
    [question] of that action is a string with a unit that is no white
    space. *)
Theorem successful_analysis_has_a_question
    (body : analyzeAnswerBody) (w : world) (b : json) :
  fst (analyze_answer body w) = Returned (Respond 200 b) ->
  exists rq content parse,
    llm_calls (snd (analyze_answer body w)) = rq :: llm_calls w
    /\ llm w rq = LlmReply content parse
    /\ forall c s result na,
         content = Some (c :: s) -> parse = Parsed result ->
         get (lit "nextAction") result = Some na ->
         is_action (get (lit "type") na) = true ->
         exists q, get (lit "question") na = Some (JStr q) /\ blank q = false.
Proof.
  destruct w as [reg ps ask calls].
  unfold analyze_answer.
  cbn [registry promptSettings llm llm_calls].
  destruct (validateAnalyzeAnswerRequest body) as [errors|v]; [discriminate|].
  destruct (limitReached v); [discriminate|].
  unfold try_catch, bind, promptOrStored, getCurrentModel, create, lift, ret.
  destruct (customPrompt v) as [|c p];
    cbn [fst snd or_default registry promptSettings llm llm_calls];
    [destruct (or_empty (interviewPrompt ps)) as [|c' p']; [discriminate|]|];
    (destruct (model v) as [|c0 m0];
     cbn [or_default read_binding ret registry promptSettings llm llm_calls];
     (destruct (ask _) as [message|content parse] eqn:Ask; [discriminate|]);
     cbn [fst snd registry];
     match goal with |- context [checkNextAction ?a ?b ?c] =>
       destruct (checkNextAction a b c) as [r|e] eqn:Hc end;
     cbn [fst snd]; try discriminate;
     intros H; injection H as ->;
     eexists _, content, parse; (split; [reflexivity|]); (split; [exact Ask|]);
     intros x s result na -> -> Hna Ha;
     cbn [fst snd or_empty] in Hc;
     exact (ContractFacts.checkNextAction_question _ _ _ Hc Hna Ha)).
Qed.

(** X17 on a reply that asks to probe with a question. *)
Lemma successful_analysis_has_a_question_witness :
  status_of (fst (analyze_answer open_request probing_world)) = Some 200%N
  /\ exists q, get (lit "question") PROBE = Some (JStr q) /\ blank q = false.
Proof.
  split; [vm_compute; reflexivity|].
  destruct (@successful_analysis_has_a_question open_request probing_world
              _ ltac:(vm_compute; reflexivity))
    as [rq [content [parse [_ [Hreply Hq]]]]].
  cbn [llm probing_world] in Hreply. injection Hreply as <- <-.
  eapply Hq; reflexivity.
Defined.

(** X26: the reply of the provider is passed on.  When the answer
    analysis answers 200 after a reply that parsed to an object with
    distinct keys, every property of the reply is in the answer with its
    value, [success] is true unless the reply says otherwise, and [model]
    is the model of the call whatever the reply says. *)
Theorem reply_is_passed_on (body : analyzeAnswerBody) (w : world) (b : json) :
  fst (analyze_answer body w) = Returned (Respond 200 b) ->
  exists rq content parse,
    llm_calls (snd (analyze_answer body w)) = rq :: llm_calls w
    /\ llm w rq = LlmReply content parse
    /\ get (lit "model") b = Some (JStr (rq_model rq))
    /\ forall c s fields k,
         content = Some (c :: s) -> parse = Parsed (JObj fields) ->
         NoDup (map fst fields) -> k <> lit "model" ->
         get k b = match field k fields with
                   | Some v => Some v
                   | None => if eqb k (lit "success") then Some (JBool true) else None
                   end.
Proof.
  destruct w as [reg ps ask calls].
  unfold analyze_answer.
  cbn [registry promptSettings llm llm_calls].
  destruct (validateAnalyzeAnswerRequest body) as [errors|v]; [discriminate|].
  destruct (limitReached v); [discriminate|].
  unfold try_catch, bind, promptOrStored, getCurrentModel, create, lift, ret.
  destruct (customPrompt v) as [|c p];
    cbn [fst snd or_default registry promptSettings llm llm_calls];
    [destruct (or_empty (interviewPrompt ps)) as [|c' p']; [discriminate|]|];
    (destruct (model v) as [|c0 m0];
     cbn [or_default read_binding ret registry promptSettings llm llm_calls];
     (destruct (ask _) as [message|content parse] eqn:Ask; [discriminate|]);
     cbn [fst snd registry];
     match goal with |- context [checkNextAction ?a ?b ?c] =>
       destruct (ContractFacts.checkNextAction_cases a b c) as [[e ->]|[->| ->]] end;
     cbn [fst snd]; try discriminate;
     intros H; injection H as <-;
     eexists _, content, parse; (split; [reflexivity|]); (split; [exact Ask|]);
     (split; [cbn [get rq_model requestFor]; rewrite ContractFacts.field_set_field;
              now rewrite ContractFacts.or_default_safe|]);
     intros x s fields k -> -> Hnd Hk;
     cbn [fst snd or_empty get];
     rewrite ContractFacts.field_set_field_other by exact Hk;
     unfold spread; cbn [own_properties];
     rewrite ContractFacts.field_spread by exact Hnd;
     (destruct (field k fields); [reflexivity|]);
     cbn [field]; rewrite (ContractFacts.eqb_sym k); reflexivity).
Qed.

(** X26 on a reply that asks to probe. *)
Lemma reply_is_passed_on_witness :
  exists b,
    fst (analyze_answer open_request probing_world) = Returned (Respond 200 b)
    /\ get (lit "nextAction") b = Some PROBE
    /\ get (lit "success") b = Some (JBool true).
Proof.
  eexists. split; [vm_compute; reflexivity|].
  destruct (@reply_is_passed_on open_request probing_world _
              ltac:(vm_compute; reflexivity))
    as [rq [content [parse [_ [Hreply [_ Hk]]]]]].
  cbn [llm probing_world] in Hreply. injection Hreply as <- <-.
  split.
  - rewrite (Hk _ _ _ (lit "nextAction") eq_refl eq_refl).
    + reflexivity.
    + repeat constructor. cbn. tauto.
    + vm_compute. discriminate.
  - rewrite (Hk _ _ _ (lit "success") eq_refl eq_refl).
    + reflexivity.
    + repeat constructor. cbn. tauto.
    + vm_compute. discriminate.
Defined.

(** X18: a reply that is a JSON object with a question gives that question,
    trimmed.  The question is read from the property [question], or else
    from [Question], [questionText] and [text], in this order, where a
    property is passed over when it is absent or falsy. *)
Theorem first_question_from_reply
    (c : N) (s q modelToUse fallback : jsstring) (fields : list (jsstring * json)) :
  blank q = false ->
  let reply := firstQuestionResponse (Some (c :: s)) (Parsed (JObj fields))
                                     modelToUse fallback in
  (field (lit "question") fields = Some (JStr q) -> recovered reply = Some (trim q))
  /\ (truthy (field (lit "question") fields) = false ->
      field (lit "Question") fields = Some (JStr q) ->
      recovered reply = Some (trim q))
  /\ (truthy (field (lit "question") fields) = false ->
      truthy (field (lit "Question") fields) = false ->
      field (lit "questionText") fields = Some (JStr q) ->
      recovered reply = Some (trim q))
  /\ (truthy (field (lit "question") fields) = false ->
      truthy (field (lit "Question") fields) = false ->
      truthy (field (lit "questionText") fields) = false ->
      field (lit "text") fields = Some (JStr q) ->
      recovered reply = Some (trim q)).
Proof.
  intros Hb. cbv zeta.
  assert (Hq : truthy (Some (JStr q)) = true).
  { destruct q; [discriminate Hb|reflexivity]. }
  assert (Hend : forall question,
            question = Some (JStr q) ->
            recovered
              match
                (if truthy question then
                   match question with
                   | Some (JStr q0) =>
                       if blank q0
                       then Returned (firstPattern questionPatterns
                                        (or_default (c :: s) (lit "{}")) q0)
                       else Returned q0
                   | _ => Thrown (lit "question.trim is not a function")
                   end
                 else Returned (firstPattern questionPatterns
                                  (or_default (c :: s) (lit "{}")) []))
              with
              | Thrown e => Thrown e
              | Returned question0 =>
                  if blank question0 then
                    Returned (Respond 500 (JObj
                      [ (lit "error", JStr (lit "AI did not generate a question"));
                        (lit "message",
                         JStr (lit "Please try again or check your prompt settings"));
                        (lit "debug", JObj
                          [ (lit "hasQuestion",
                             JBool (truthy (field (lit "question") fields)));
                            (lit "keys", keys_of (JObj fields));
                            (lit "responsePreview",
                             JStr (substring0 500 (or_default (c :: s) (lit "{}"))));
                            (lit "fullResponse",
                             JStr (or_default (c :: s) (lit "{}"))) ]) ]))
                  else
                    Returned (Respond 200 (JObj
                      [ (lit "success", JBool true);
                        (lit "question", JStr (trim question0));
                        (lit "reason",
                         match or_value (field (lit "reason") fields)
                                 (or_value (field (lit "Reason") fields)
                                    (Some (JStr (lit
                                       "Generated by AI based on objective and demographic data")))) with
                         | Some v => v
                         | None => JNull
                         end);
                        (lit "model", JStr (or_default modelToUse fallback)) ]))
              end
            = Some (trim q)).
  { intros question ->. rewrite Hq, Hb. cbv iota beta. rewrite Hb. reflexivity. }
  unfold firstQuestionResponse. cbv zeta. cbn [or_empty get].
  split; [|split; [|split]]; intros; apply Hend; unfold or_value;
    repeat match goal with
           | H : truthy _ = false |- _ => rewrite H; clear H
           | H : field _ _ = Some _ |- _ => rewrite H; clear H
           end;
    now rewrite Hq.
Qed.

(** X18 on a reply with an empty [question] and a [Question]. *)
Lemma first_question_from_reply_witness :
  recovered (firstQuestionResponse (Some (lit "{...}"))
               (Parsed (JObj [ (lit "question", JStr []);
                               (lit "Question", JStr (lit "  Why oat milk? ")) ]))
               (lit "gpt-4o") (lit "gpt-4o-mini"))
  = Some (lit "Why oat milk?").
Proof.
  refine (proj1 (proj2 (@first_question_from_reply 123 (lit "...}")
                          (lit "  Why oat milk? ") (lit "gpt-4o") (lit "gpt-4o-mini")
                          [ (lit "question", JStr []);
                            (lit "Question", JStr (lit "  Why oat milk? ")) ] _))
                _ _).
  - vm_compute. reflexivity.
  - reflexivity.
  - reflexivity.
Defined.

End Contracts.

(* ================================================================== *)
(** * The validator of model names *)
(* ================================================================== *)

Section ModelNames.

Import ModelValidator.

(** X19: the model that a handler calls is in JSON mode unless it is
    [gpt-4] or [gpt-3.5-turbo]: for every requested name,
    [supportsJsonMode] of the name that [getSafeModel] returns is false
    exactly when the requested name is one of these two, and the fallback
    model is always in JSON mode. *)
Theorem safe_model_json_mode (modelId : jsstring) :
  supportsJsonMode (getSafeModel modelId)
  = negb (eqb modelId (lit "gpt-4") || eqb modelId (lit "gpt-3.5-turbo"))
  /\ supportsJsonMode fallbackModel = true.
Proof.
  split; [|vm_compute; reflexivity].
  unfold getSafeModel, getSafeModel_log.
  destruct (arr_includes modelId confirmedAvailableModels) eqn:E.
  - apply JsFacts.arr_includes_In in E. simpl in E.
    repeat (destruct E as [<-|E]; [vm_compute; reflexivity|]). contradiction.
  - assert (H4 : eqb modelId (lit "gpt-4") = false).
    { apply JsFacts.eqb_neq. intros ->. vm_compute in E. discriminate E. }
    assert (H35 : eqb modelId (lit "gpt-3.5-turbo") = false).
    { apply JsFacts.eqb_neq. intros ->. vm_compute in E. discriminate E. }
    rewrite H4, H35.
    destruct modelId as [|c r]; [vm_compute; reflexivity|].
    destruct (startsWith (lit "gpt-") (c :: r) || startsWith (lit "o") (c :: r));
      vm_compute; reflexivity.
Qed.

End ModelNames.

(* ================================================================== *)
(** * The vault: any text, and the form of the record *)
(* ================================================================== *)

Module VaultFacts.

Import CryptoUtils CryptoFacts.

Ltac Zify.zify_post_hook ::= Z.to_euclidean_division_equations.

Lemma replacement_code_point :
  scalar 0xFFFD /\ utf16_of_code_point 0xFFFD = [0xFFFD%N].
Proof. split; [unfold scalar; lia|reflexivity]. Qed.

(** The code points of a string are scalar values, and their UTF-16 form is
    the well-formed version of the string. *)
Lemma code_points_toWellFormed (s : jsstring) :
  Forall (fun c => c < 0x10000)%N s ->
  Forall scalar (code_points s)
  /\ flat_map utf16_of_code_point (code_points s) = toWellFormed s.
Proof.
  remember (List.length s) as n eqn:Hlen.
  assert (Hle : (List.length s <= n)%nat) by lia. clear Hlen.
  revert s Hle. induction n as [|n IH]; intros s Hle Hs.
  - destruct s; [split; [constructor|reflexivity]|simpl in Hle; lia].
  - destruct s as [|c t]; [split; [constructor|reflexivity]|].
    inversion Hs as [|? ? Hc Ht]; subst.
    destruct replacement_code_point as [Hr Hu].
    cbn [toWellFormed code_points].
    destruct (is_high c) eqn:Hh.
    + destruct t as [|d t'].
      * split; [constructor; [exact Hr|constructor]|reflexivity].
      * destruct (is_low d) eqn:Hd.
        -- apply high_range in Hh. apply low_range in Hd.
           destruct (pair_code_point Hh Hd) as [Hp Hq].
           inversion Ht as [|? ? _ Ht']; subst.
           destruct (IH t') as [Hf He]; [simpl in Hle; lia|exact Ht'|].
           split; [now constructor|].
           cbn [flat_map]. rewrite Hq, He. reflexivity.
        -- destruct (IH (d :: t')) as [Hf He]; [simpl in Hle |- *; lia|exact Ht|].
           split; [now constructor|].
           cbn [flat_map]. rewrite Hu, He. reflexivity.
    + destruct (is_low c) eqn:Hl.
      * destruct (IH t) as [Hf He]; [simpl in Hle; lia|exact Ht|].
        split; [now constructor|].
        cbn [flat_map]. rewrite Hu, He. reflexivity.
      * destruct (unit_code_point Hh Hl Hc) as [Hp Hq].
        destruct (IH t) as [Hf He]; [simpl in Hle; lia|exact Ht|].
        split; [now constructor|].
        cbn [flat_map]. rewrite Hq, He. reflexivity.
Qed.

Lemma utf8_decode_encode (text : jsstring) :
  Forall (fun c => c < 0x10000)%N text ->
  decoder_write None (map Byte.to_N (utf8_encode text)) = (toWellFormed text, None).
Proof.
  intros H. destruct (code_points_toWellFormed H) as [Hs Hr].
  unfold utf8_encode. rewrite map_to_N_byte_of_N by now apply encoded_bytes.
  rewrite write_code_points by exact Hs. now rewrite Hr.
Qed.

Lemma toWellFormed_fixed (s : jsstring) :
  isWellFormed s = true -> toWellFormed s = s.
Proof.
  remember (List.length s) as n eqn:Hlen.
  assert (Hle : (List.length s <= n)%nat) by lia. clear Hlen.
  revert s Hle. induction n as [|n IH]; intros s Hle Hwf.
  - destruct s; [reflexivity|simpl in Hle; lia].
  - destruct s as [|c t]; [reflexivity|].
    cbn [isWellFormed toWellFormed] in *.
    destruct (is_high c).
    + destruct t as [|d t']; [discriminate|].
      apply andb_true_iff in Hwf as [Hd Hwf]. rewrite Hd.
      rewrite IH; [reflexivity|simpl in Hle; lia|exact Hwf].
    + apply andb_true_iff in Hwf as [Hc Hwf].
      apply andb_true_iff in Hc as [Hl _]. apply negb_true_iff in Hl. rewrite Hl.
      rewrite IH; [reflexivity|simpl in Hle; lia|exact Hwf].
Qed.

Lemma hex_digit_ok (n : N) : (n < 16)%N -> is_hex_digit (hex_digit n) = true.
Proof.
  intros H. unfold hex_digit, is_hex_digit.
  destruct (N.ltb_spec n 10).
  - apply orb_true_iff. left. apply andb_true_iff. split; apply N.leb_le; lia.
  - apply orb_true_iff. right. apply andb_true_iff. split; apply N.leb_le; lia.
Qed.

Lemma toString_hex_digits (b : bytes) : forallb is_hex_digit (toString_hex b) = true.
Proof.
  induction b as [|x b IH]; [reflexivity|].
  unfold toString_hex in *. cbn [flat_map app forallb].
  pose proof (Byte.to_N_bounded x) as Hx.
  rewrite !hex_digit_ok by lia. exact IH.
Qed.

Lemma toString_hex_length (b : bytes) :
  List.length (toString_hex b) = (2 * List.length b)%nat.
Proof.
  induction b as [|x b IH]; [reflexivity|].
  unfold toString_hex in *. cbn [flat_map app List.length]. rewrite IH. lia.
Qed.

End VaultFacts.

Section VaultMore.

Import CryptoUtils.

(** X20: what comes back from the vault for any text.  For every library
    that satisfies the laws of the cipher, sixteen random bytes, every text
    of 16-bit units and every master key, [encrypt] succeeds and [decrypt]
    of its result under the same key is the text with every surrogate that
    has no partner replaced by U+FFFD; a well-formed text is its own
    well-formed version. *)
Theorem decrypt_encrypt_any_text
    (L : crypto) (random : bytes) (text masterKey : jsstring) :
  lawful L -> List.length random = 16%nat ->
  Forall (fun c => c < 0x10000)%N text ->
  (exists e, encrypt L random text masterKey = Returned e
             /\ decrypt L e masterKey = Returned (toWellFormed text))
  /\ (isWellFormed text = true -> toWellFormed text = text).
Proof.
  intros HL Hiv Ht. split; [|apply VaultFacts.toWellFormed_fixed].
  unfold encrypt.
  set (key := scryptSync L masterKey (lit "salt") 32).
  assert (Hk : valid_key_iv key random = true).
  { unfold valid_key_iv, key. rewrite (scrypt_length HL), Hiv. reflexivity. }
  rewrite Hk. eexists. split; [reflexivity|].
  unfold decrypt. cbn [iv authTag encrypted]. fold key.
  cbn [toString_hex flat_map]. rewrite app_nil_r, !CryptoFacts.from_hex_toString.
  rewrite Hk, (tag_length HL). cbn [valid_tag_length existsb Nat.eqb orb andb].
  rewrite (gctr_involutive HL), VaultFacts.utf8_decode_encode by exact Ht.
  rewrite <- (tag_length HL key random (gctr L key random (utf8_encode text))) at 1.
  rewrite firstn_all, CryptoFacts.bytes_eqb_refl. cbn [decoder_end].
  now rewrite app_nil_r.
Qed.

(** X20 on a text with a low surrogate between two letters. *)
Lemma decrypt_encrypt_any_text_witness :
  exists e, encrypt toy sample_iv [97; 0xDC00; 98]%N (lit "master") = Returned e
            /\ decrypt toy e (lit "master") = Returned [97; 0xFFFD; 98]%N.
Proof.
  refine (proj1 (@decrypt_encrypt_any_text toy sample_iv [97; 0xDC00; 98]%N
                   (lit "master") CryptoFacts.toy_lawful _ _)).
  - reflexivity.
  - repeat constructor.
Defined.

(** X21: the record that [encrypt] returns.  For every library that
    satisfies the laws of the cipher and whose counter mode keeps the length
    of the data, and for sixteen random bytes, [encrypt] succeeds; the [iv]
    is the 32 hex digits of the random bytes, the [authTag] has 32 units,
    the ciphertext has two units for every byte of the UTF-8 form of the
    text, and the three strings are made of the digits 0 to 9 and a to f.
    When [encrypt] or [decrypt] throws, for any library, the message is the
    fixed one of the function. *)
Theorem encrypt_record_format
    (L : crypto) (random : bytes) (text masterKey : jsstring) :
  lawful L ->
  (forall key iv data, List.length (gctr L key iv data) = List.length data) ->
  List.length random = 16%nat ->
  (exists e, encrypt L random text masterKey = Returned e
             /\ iv e = toString_hex random
             /\ List.length (iv e) = 32%nat
             /\ List.length (authTag e) = 32%nat
             /\ List.length (encrypted e)
                = (2 * List.length (utf8_encode text))%nat
             /\ forallb is_hex_digit (iv e ++ authTag e ++ encrypted e) = true)
  /\ (forall (L' : crypto) random' text' key' message,
        encrypt L' random' text' key' = Thrown message ->
        message = lit "Failed to encrypt data")
  /\ (forall (L' : crypto) e key' message,
        decrypt L' e key' = Thrown message ->
        message = lit "Failed to decrypt data").
Proof.
  intros HL Hlen Hiv. split; [|split].
  - unfold encrypt.
    set (key := scryptSync L masterKey (lit "salt") 32).
    assert (Hk : valid_key_iv key random = true).
    { unfold valid_key_iv, key. rewrite (scrypt_length HL), Hiv. reflexivity. }
    rewrite Hk. eexists. split; [reflexivity|]. cbn [iv authTag encrypted].
    split; [reflexivity|].
    rewrite app_nil_r, !VaultFacts.toString_hex_length.
    rewrite Hiv, (tag_length HL), Hlen. repeat split; try reflexivity.
    rewrite !forallb_app, !VaultFacts.toString_hex_digits. reflexivity.
  - intros L' random' text' key' message. unfold encrypt.
    destruct (valid_key_iv _ _); [discriminate|]. now intros [= <-].
  - intros L' e key' message. unfold decrypt.
    destruct (valid_key_iv _ _ && valid_tag_length _); [|now intros [= <-]].
    destruct (decoder_write _ _).
    destruct (bytes_eqb _ _); [discriminate|]. now intros [= <-].
Qed.

(** X21 on a text of three letters, one of them Thai. *)
Lemma encrypt_record_format_witness :
  exists e, encrypt toy sample_iv [97; 0xe01; 98]%N (lit "master") = Returned e
            /\ List.length (iv e) = 32%nat
            /\ List.length (authTag e) = 32%nat
            /\ List.length (encrypted e) = 10%nat.
Proof.
  destruct (proj1 (@encrypt_record_format toy sample_iv [97; 0xe01; 98]%N
                     (lit "master") CryptoFacts.toy_lawful
                     (fun _ _ data => length_map complement data) eq_refl))
    as [e [He [_ [Hi [Ht [Hc _]]]]]].
  exists e. split; [exact He|]. split; [exact Hi|]. split; [exact Ht|].
  rewrite Hc. reflexivity.
Defined.

End VaultMore.

(* ================================================================== *)
(** * The pattern of model names *)
(* ================================================================== *)

Module PatternFacts.

Import Regex ModelValidator.

(** A quantified class in front of the end of the input takes all of it. *)
Lemma rep_to_end (p : N -> bool) (lo : nat) (s : jsstring) (c : caps) (k : cont)
    (res : jsstring * caps) :
  (forall s' c' r, k s' c' = Some r -> s' = []) ->
  rep p lo None s c k = Some res ->
  forallb p s = true /\ (lo <= List.length s)%nat.
Proof.
  intros Hk. revert lo. induction s as [|x t IH]; intros lo H.
  - cbn [rep] in H. destruct lo; [split; [reflexivity|cbn; lia]|discriminate].
  - cbn [rep] in H. destruct (p x) eqn:Hx; cbn [andb hi_allows option_map] in H.
    + destruct (rep p (Nat.pred lo) None t c k) as [r|] eqn:E.
      * injection H as <-. apply IH in E as [Hf Hl].
        cbn [forallb List.length]. rewrite Hx, Hf.
        split; [reflexivity|lia].
      * destruct lo; [|discriminate]. apply Hk in H. discriminate H.
    + destruct lo; [|discriminate]. apply Hk in H. discriminate H.
Qed.

Lemma rep_from_end (p : N -> bool) (lo : nat) (s : jsstring) (c : caps) (k : cont)
    (res : jsstring * caps) :
  forallb p s = true -> (lo <= List.length s)%nat -> k [] c = Some res ->
  rep p lo None s c k = Some res.
Proof.
  intros Hf Hl Hk. rewrite <- (app_nil_r s).
  apply RegexFacts.rep_takes_all; try assumption. exact I.
Qed.

Lemma startsWith_map (f : N -> N) (p s : jsstring) :
  startsWith p (map f s) = true ->
  map f (firstn (List.length p) s) = p.
Proof.
  revert s. induction p as [|x p IH]; intros s H; [reflexivity|].
  destruct s as [|y s]; [discriminate|].
  cbn [map startsWith] in H. apply andb_true_iff in H as [Hx H].
  apply N.eqb_eq in Hx. cbn [List.length firstn map]. rewrite (IH _ H). congruence.
Qed.

Lemma map_startsWith (f : N -> N) (p s : jsstring) :
  startsWith (map f p) (map f (p ++ s)) = true.
Proof. rewrite map_app. apply JsFacts.startsWith_app. Qed.

Lemma gpt_prefix (p : jsstring) :
  map lower p = lit "gpt-" -> List.length p = 4%nat.
Proof. intros H. apply (f_equal (@List.length N)) in H. now rewrite length_map in H. Qed.

Section ToTheEnd.

Variable k : cont.
Hypothesis k_end : forall s c r, k s c = Some r -> s = [].
Hypothesis k_accepts : forall c, k [] c <> None.

(** [gpt-[0-9o.-]+] to the end of the input *)
Lemma versioned_iff (s : jsstring) :
  run (Seq (str_i (lit "gpt-")) (plus version_unit)) s [] k <> None
  <-> exists p v, s = p ++ v /\ map lower p = lit "gpt-" /\ v <> []
                  /\ forallb version_unit v = true.
Proof.
  cbn [run]. rewrite RegexFacts.run_str_i. split.
  - destruct (startsWith (map lower (lit "gpt-")) (map lower s)) eqn:E;
      [|intros C; now contradiction C].
    destruct (run (plus version_unit) (skipn (List.length (lit "gpt-")) s) [] k)
      as [r|] eqn:R; [|intros C; now contradiction C].
    intros _. unfold plus in R; cbn [run] in R.
    apply (@rep_to_end _ _ _ _ k _ k_end) in R as [Hf Hl].
    exists (firstn 4 s), (skipn 4 s). split; [symmetry; apply firstn_skipn|].
    split; [exact (@startsWith_map _ _ _ E)|]. split; [|exact Hf].
    intros C. change (List.length (lit "gpt-")) with 4%nat in Hl.
    rewrite C in Hl. cbn in Hl. lia.
  - intros [p [v [-> [Hp [Hv Hf]]]]].
    change (map lower (lit "gpt-")) with (lit "gpt-"). rewrite <- Hp at 1.
    rewrite map_startsWith.
    change (List.length (lit "gpt-")) with 4%nat.
    rewrite <- (@gpt_prefix _ Hp), skipn_app, Nat.sub_diag, skipn_all. cbn [app skipn].
    destruct (k [] []) as [r|] eqn:K; [|now destruct (@k_accepts [] K)].
    unfold plus. cbn [run]. rewrite (@rep_from_end _ 1 _ [] k r Hf).
    + discriminate.
    + destruct v; [contradiction|cbn; lia].
    + exact K.
Qed.

(** [gpt-[0-9]o-mini] to the end of the input *)
Lemma mini_iff (s : jsstring) :
  run (seqs [ str_i (lit "gpt-"); Class is_digit; str_i (lit "o-mini") ]) s [] k
  <> None
  <-> exists p d q, s = p ++ d :: q /\ map lower p = lit "gpt-"
                    /\ is_digit d = true /\ map lower q = lit "o-mini".
Proof.
  cbn [run seqs]. rewrite RegexFacts.run_str_i. split.
  - destruct (startsWith (map lower (lit "gpt-")) (map lower s)) eqn:E;
      [|intros C; now contradiction C].
    destruct (skipn (List.length (lit "gpt-")) s) as [|d t] eqn:Es;
      [intros C; now contradiction C|].
    destruct (is_digit d) eqn:Ed; [|intros C; now contradiction C].
    rewrite RegexFacts.run_str_i.
    destruct (startsWith (map lower (lit "o-mini")) (map lower t)) eqn:Et;
      [|intros C; now contradiction C].
    destruct (k (skipn (List.length (lit "o-mini")) t) []) as [r|] eqn:K;
      [|intros C; now contradiction C].
    intros _. apply k_end in K.
    exists (firstn 4 s), d, t. split.
    + rewrite <- Es. symmetry. apply firstn_skipn.
    + split; [exact (@startsWith_map _ _ _ E)|]. split; [exact Ed|].
      pose proof (@startsWith_map _ _ _ Et) as Hq.
      rewrite <- (firstn_skipn (List.length (lit "o-mini")) t), K, app_nil_r.
      exact Hq.
  - intros [p [d [q [-> [Hp [Hd Hq]]]]]].
    change (map lower (lit "gpt-")) with (lit "gpt-"). rewrite <- Hp at 1.
    rewrite map_startsWith.
    change (List.length (lit "gpt-")) with 4%nat.
    rewrite <- (@gpt_prefix _ Hp), skipn_app, Nat.sub_diag, skipn_all.
    cbn [app skipn]. rewrite Hd, RegexFacts.run_str_i.
    change (map lower (lit "o-mini")) with (lit "o-mini"). rewrite Hq.
    change (startsWith (lit "o-mini") (lit "o-mini")) with true. cbv iota.
    assert (Hl : List.length q = List.length (lit "o-mini")).
    { rewrite <- Hq. now rewrite length_map. }
    rewrite <- Hl, skipn_all. apply k_accepts.
Qed.

(** [o[0-9]-[a-z]+] to the end of the input *)
Lemma reasoning_iff (s : jsstring) :
  run (seqs [ chr_i 111; Class is_digit; chr 45; plus letter_i ]) s [] k <> None
  <-> exists o d v, s = o :: d :: 45%N :: v /\ lower o = 111%N
                    /\ is_digit d = true /\ v <> []
                    /\ forallb letter_i v = true.
Proof.
  cbn [run seqs chr_i chr]. split.
  - destruct s as [|o s]; [intros C; now contradiction C|].
    destruct (lower 111 =? lower o)%N eqn:Eo; [|intros C; now contradiction C].
    destruct s as [|d s]; [intros C; now contradiction C|].
    destruct (is_digit d) eqn:Ed; [|intros C; now contradiction C].
    destruct s as [|h v]; [intros C; now contradiction C|].
    destruct (45 =? h)%N eqn:Eh; [|intros C; now contradiction C].
    destruct (rep letter_i 1 None v [] k) as [r|] eqn:R;
      [|intros C; now contradiction C].
    intros _. apply (@rep_to_end _ _ _ _ k _ k_end) in R as [Hf Hl].
    apply N.eqb_eq in Eo, Eh. subst h.
    exists o, d, v. split; [reflexivity|]. split; [now rewrite <- Eo|].
    split; [exact Ed|]. split; [|exact Hf].
    intros C. rewrite C in Hl. cbn in Hl. lia.
  - intros [o [d [v [-> [Ho [Hd [Hv Hf]]]]]]].
    rewrite Ho. change (lower 111 =? 111)%N with true. cbv iota.
    rewrite Hd. change (45 =? 45)%N with true. cbv iota.
    destruct (k [] []) as [r|] eqn:K; [|now destruct (@k_accepts [] K)].
    unfold plus. cbn [run]. rewrite (@rep_from_end _ 1 _ [] k r Hf).
    + discriminate.
    + destruct v; [contradiction|cbn; lia].
    + exact K.
Qed.

End ToTheEnd.

Lemma alternatives (A : Type) (a b c : option A) :
  match match a with
        | Some r => Some r
        | None => match b with Some r => Some r | None => c end
        end with
  | Some _ => true
  | None => false
  end = true
  <-> a <> None \/ b <> None \/ c <> None.
Proof.
  destruct a, b, c; split; intros H; try reflexivity; try discriminate;
    try (left; discriminate); try (right; left; discriminate);
    try (right; right; discriminate).
  destruct H as [H|[H|H]]; now contradiction H.
Qed.

End PatternFacts.

Section Pattern.

Import Regex ModelValidator.

(** X22: the names that [isValidOpenAIModel] accepts.  A name is accepted
    exactly when, letter case apart, it is [gpt-] followed by one or more of
    the digits, the letter o, the dot and the hyphen, or it is [gpt-], a
    digit and [o-mini], or it is the letter o, a digit, a hyphen and one or
    more letters.  Of the models that [getSafeModel] confirms, [gpt-4-turbo]
    and [gpt-3.5-turbo] are not accepted. *)
Theorem isValidOpenAIModel_iff (s : jsstring) :
  (isValidOpenAIModel s = true
   <-> (exists p v, s = p ++ v /\ map lower p = lit "gpt-" /\ v <> []
                    /\ forallb version_unit v = true)
       \/ (exists p d q, s = p ++ d :: q /\ map lower p = lit "gpt-"
                         /\ is_digit d = true /\ map lower q = lit "o-mini")
       \/ (exists o d v, s = o :: d :: 45%N :: v /\ lower o = 111%N
                         /\ is_digit d = true /\ v <> []
                         /\ forallb letter_i v = true))
  /\ filter isValidOpenAIModel confirmedAvailableModels
     = [ lit "gpt-4o-mini"; lit "gpt-4o"; lit "gpt-4" ].
Proof.
  split; [|vm_compute; reflexivity].
  set (k := fun (s' : jsstring) (c' : caps) =>
              match s' with
              | [] => Some (s', (1%nat, firstn (List.length s - List.length s') s) :: c')
              | _ :: _ => None
              end).
  assert (k_end : forall s' c r, k s' c = Some r -> s' = []).
  { intros [|x t] c r H; [reflexivity|discriminate H]. }
  assert (k_accepts : forall c, k [] c <> None) by (intros c; discriminate).
  change (isValidOpenAIModel s)
    with (match
            match run (Seq (str_i (lit "gpt-")) (plus version_unit)) s [] k with
            | Some res => Some res
            | None =>
                match run (seqs [ str_i (lit "gpt-"); Class is_digit;
                                  str_i (lit "o-mini") ]) s [] k with
                | Some res => Some res
                | None => run (seqs [ chr_i 111; Class is_digit; chr 45;
                                      plus letter_i ]) s [] k
                end
            end
          with
          | Some _ => true
          | None => false
          end).
  rewrite PatternFacts.alternatives.
  rewrite (@PatternFacts.versioned_iff k k_end k_accepts).
  rewrite (@PatternFacts.mini_iff k k_end k_accepts).
  rewrite (@PatternFacts.reasoning_iff k k_end k_accepts).
  reflexivity.
Qed.

(** X22 on a name in capital letters. *)
Lemma isValidOpenAIModel_iff_witness :
  isValidOpenAIModel (lit "GPT-4.1") = true.
Proof.
  apply (proj2 (proj1 (isValidOpenAIModel_iff (lit "GPT-4.1")))).
  left. exists (lit "GPT-"), (lit "4.1").
  split; [reflexivity|]. split; [reflexivity|]. split; [discriminate|reflexivity].
Defined.

End Pattern.

(* ================================================================== *)
(** * Prompts without placeholders *)
(* ================================================================== *)

Module PlainPromptFacts.

Import Regex Replace Server.



End PlainPromptFacts.

Section PlainPrompts.

Import Regex Replace Validation Server.



End PlainPrompts.

(* ================================================================== *)
(** * The registry: what the operations leave alone *)
(* ================================================================== *)

Module FrameFacts.

Import AiKeysManager.

Lemma keys_after_save (st : store) (m : option models_ref) (a : option jsstring) :
  keys (loadKeysDB (snd (saveKeysDB st (mkDb (keys (loadKeysDB st)) m a))))
  = keys (loadKeysDB st).
Proof. unfold saveKeysDB. destruct (writable st); reflexivity. Qed.

Lemma keys_of_builtins (st : store) (l : list Model) (w : bool) :
  keys (loadKeysDB (mkStore l (disk st) w)) = keys (loadKeysDB st).
Proof. reflexivity. Qed.

Lemma present_assign_same (k : jsstring) (c : N) (e : jsstring)
    (o : list (jsstring * jsstring)) :
  k <> lit "__proto__" -> present k (assign k (c :: e) o) = true.
Proof.
  intros H. unfold present, get_property.
  rewrite KeyFacts.lookup_assign_same by (left; exact H). reflexivity.
Qed.

Lemma known_not_inherited (k : jsstring) :
  In k PROVIDER_INFO_keys -> arr_includes k Object_prototype_names = false.
Proof.
  intros H. cbn [PROVIDER_INFO_keys In] in H.
  repeat (destruct H as [<-|H]; [reflexivity|]). contradiction.
Qed.

Lemma present_delete_same (k : jsstring) (o : list (jsstring * jsstring)) :
  In k PROVIDER_INFO_keys -> present k (delete_property k o) = false.
Proof.
  intros H. unfold present, get_property.
  now rewrite KeyFacts.lookup_delete_same, known_not_inherited.
Qed.

Lemma set_property_not_empty (k v : jsstring) (o : list (jsstring * jsstring)) :
  (0 <? List.length (set_property k v o))%nat = true.
Proof. destruct o as [|[k' v'] o]; cbn [set_property]; [|destruct (eqb k' k)]; reflexivity. Qed.

Lemma assign_not_empty (k v : jsstring) (o : list (jsstring * jsstring)) :
  k <> lit "__proto__" -> (0 <? List.length (assign k v o))%nat = true.
Proof.
  intros H. unfold assign. destruct (lookup k o); [apply set_property_not_empty|].
  destruct (eqb k (lit "__proto__")) eqn:E; [|apply set_property_not_empty].
  apply JsFacts.eqb_eq in E. contradiction.
Qed.

Lemma assign_proto_empty (k v : jsstring) (o : list (jsstring * jsstring)) :
  k = lit "__proto__" ->
  (0 <? List.length (assign k v o))%nat = (0 <? List.length o)%nat.
Proof.
  intros ->. unfold assign. destruct (lookup (lit "__proto__") o) eqn:L.
  - rewrite set_property_not_empty. destruct o; [discriminate L|reflexivity].
  - reflexivity.
Qed.

End FrameFacts.

Section Frame.

Import AiKeysManager.

(** X24: the operations on models leave the keys alone.  After
    [setActiveModel], [addModel] and [deleteModel], whether they succeed or
    not, [getApiKey] returns for every provider what it returned before. *)
Theorem model_operations_keep_the_keys
    (decryptFromStorage : jsstring -> outcome jsstring)
    (st : store) (modelId provider : jsstring) (m : Model) :
  getApiKey decryptFromStorage (snd (setActiveModel st modelId)) provider
  = getApiKey decryptFromStorage st provider
  /\ getApiKey decryptFromStorage (snd (addModel st m)) provider
     = getApiKey decryptFromStorage st provider
  /\ getApiKey decryptFromStorage (snd (deleteModel st modelId)) provider
     = getApiKey decryptFromStorage st provider.
Proof.
  unfold getApiKey. split; [|split].
  - unfold setActiveModel. destruct (negb _); [reflexivity|].
    pose proof (FrameFacts.keys_after_save st (models (loadKeysDB st)) (Some modelId))
      as H.
    destruct (saveKeysDB st _) as [ok st']. cbn [snd] in *. now rewrite H.
  - unfold addModel.
    destruct (id m); [reflexivity|]. destruct (name m); [reflexivity|].
    destruct (AiKeysManager.provider m); [reflexivity|].
    destruct (existsb _ _); [reflexivity|].
    destruct (match models (loadKeysDB st) with Some r => r | None => Shared end).
    + pose proof (FrameFacts.keys_after_save
                    (mkStore (DEFAULT_MODELS st ++ [m]) (disk st) (writable st))
                    (Some Shared) (activeModel (loadKeysDB st))) as H.
      rewrite !FrameFacts.keys_of_builtins in H.
      change (activeModel (loadKeysDB (mkStore (DEFAULT_MODELS st ++ [m]) (disk st)
                                               (writable st))))
        with (activeModel (loadKeysDB st)) in H.
      destruct (saveKeysDB _ _) as [ok st']. cbn [snd] in *. now rewrite H.
    + pose proof (FrameFacts.keys_after_save st (Some (Own (l ++ [m])))
                    (activeModel (loadKeysDB st))) as H.
      destruct (saveKeysDB st _) as [ok st']. cbn [snd] in *. now rewrite H.
  - unfold deleteModel. destruct (existsb _ _); [reflexivity|].
    destruct (models (loadKeysDB st)) as [r|]; [|reflexivity].
    match goal with |- context [saveKeysDB st (mkDb _ ?m ?a)] =>
      pose proof (FrameFacts.keys_after_save st m a) as H end.
    destruct (saveKeysDB st _) as [ok st']. cbn [snd] in *. now rewrite H.
Qed.

(** X25: the status of the keys follows the operations.  [getAllKeys]
    always reports the four known providers, in their order.  After a key
    has been saved for a provider other than [__proto__] (a name under which
    an assignment stores nothing), [hasKeys] is true and, if the provider is
    one of the four, it is reported as having a key; after a key has been
    saved for [__proto__], [hasKeys] is what it was.  After the key of one
    of the four has been deleted, that provider is reported as having
    none. *)
Theorem key_status_follows
    (encryptForStorage : jsstring -> outcome jsstring)
    (st : store) (provider apiKey : jsstring) :
  map fst (ki_providerKeys (getAllKeys st)) = PROVIDER_INFO_keys
  /\ (fst (saveApiKey encryptForStorage st provider apiKey) = Returned tt ->
      encryptForStorage apiKey <> Returned [] ->
      let st' := snd (saveApiKey encryptForStorage st provider apiKey) in
      (provider <> lit "__proto__" ->
       ki_hasKeys (getAllKeys st') = true
       /\ (In provider PROVIDER_INFO_keys ->
           In (provider, true) (ki_providerKeys (getAllKeys st'))))
      /\ (provider = lit "__proto__" ->
          ki_hasKeys (getAllKeys st') = ki_hasKeys (getAllKeys st)))
  /\ (fst (deleteApiKey st provider) = true ->
      In provider PROVIDER_INFO_keys ->
      In (provider, false) (ki_providerKeys (getAllKeys (snd (deleteApiKey st provider))))).
Proof.
  split; [|split].
  - unfold getAllKeys. cbn [ki_providerKeys]. rewrite map_map. cbn [fst].
    apply map_id.
  - unfold saveApiKey.
    destruct apiKey as [|a k]; [discriminate|].
    destruct provider as [|b p]; [discriminate|].
    destruct (encryptForStorage (a :: k)) as [[|c e]|msg] eqn:E; [| |discriminate].
    { intros _ H. now contradiction H. }
    destruct (writable st) eqn:W.
    2:{ rewrite ModelFacts.save_false by exact W. discriminate. }
    rewrite ModelFacts.save_true by exact W. intros _ _. cbv zeta. cbn [snd].
    unfold getAllKeys at 1 2 3.
    cbn [loadKeysDB disk keys p_keys ki_hasKeys ki_providerKeys].
    split.
    + intros Hproto. split; [now apply FrameFacts.assign_not_empty|].
      intros Hin. apply in_map_iff. exists (b :: p). split; [|exact Hin].
      now rewrite FrameFacts.present_assign_same.
    + intros Hproto. rewrite FrameFacts.assign_proto_empty by exact Hproto.
      unfold getAllKeys. cbn [ki_hasKeys].
      destruct (keys (loadKeysDB st)); reflexivity.
  - unfold deleteApiKey. intros Hr Hin.
    destruct (keys (loadKeysDB st)) as [ks|] eqn:K.
    2:{ cbn [snd]. unfold getAllKeys. rewrite K. cbn [ki_providerKeys].
        apply in_map_iff. exists provider. split; [|exact Hin].
        unfold present, get_property. cbn [lookup].
        now rewrite FrameFacts.known_not_inherited. }
    destruct (present provider ks) eqn:P.
    2:{ cbn [snd]. unfold getAllKeys. rewrite K. cbn [ki_providerKeys].
        apply in_map_iff. exists provider. split; [now rewrite P|exact Hin]. }
    destruct (writable st) eqn:W.
    2:{ rewrite ModelFacts.save_false in Hr by exact W. discriminate Hr. }
    rewrite ModelFacts.save_true by exact W. cbn [snd].
    unfold getAllKeys. cbn [loadKeysDB disk keys p_keys ki_providerKeys].
    apply in_map_iff. exists provider. split; [|exact Hin].
    now rewrite FrameFacts.present_delete_same.
Qed.

(** X25 on the registry without a file. *)
Lemma key_status_follows_witness :
  ki_hasKeys (getAllKeys (Server.keyed (fun k => Returned k))) = true
  /\ In (lit "openai", true)
        (ki_providerKeys (getAllKeys (Server.keyed (fun k => Returned k))))
  /\ In (lit "openai", false)
        (ki_providerKeys
           (getAllKeys (snd (deleteApiKey (Server.keyed (fun k => Returned k))
                                          (lit "openai"))))).
Proof.
  destruct (key_status_follows (fun k => Returned k) fresh (lit "openai")
              (lit "sk-test")) as [_ [Hsave _]].
  destruct (key_status_follows (fun k => Returned k)
              (Server.keyed (fun k => Returned k)) (lit "openai") (lit "sk-test"))
    as [_ [_ Hdel]].
  cbv zeta in Hsave. destruct Hsave as [Hsave _].
  - reflexivity.
  - vm_compute. discriminate.
  - destruct Hsave as [H1 H2]; [vm_compute; discriminate|].
    split; [exact H1|]. split.
    + apply H2. vm_compute. tauto.
    + apply Hdel; [reflexivity|vm_compute; tauto].
Defined.

End Frame.

(* ================================================================== *)
(** * The active model stays in the catalog *)
(* ================================================================== *)

Module ListedFacts.

Import AiKeysManager.

(** The array that the loaded record refers to. *)
Lemma listed_ids (i : jsstring) (st : store) :
  existsb (has_id i) (ki_models (getAllKeys st))
  = existsb (has_id i) (DEFAULT_MODELS st)
    || existsb (has_id i) (persisted_models st).
Proof.
  rewrite RegistryFacts.catalog_eq, existsb_app.
  destruct (existsb (has_id i) (DEFAULT_MODELS st)) eqn:D; [reflexivity|].
  cbn [orb]. induction (persisted_models st) as [|m l IH]; [reflexivity|].
  cbn [filter existsb]. destruct (has_id i m) eqn:E.
  - unfold has_id in E. apply JsFacts.eqb_eq in E. rewrite E.
    rewrite <- ModelFacts.has_id_includes, D. cbn [negb existsb].
    unfold has_id at 1. rewrite E, JsFacts.eqb_refl. reflexivity.
  - cbn [orb]. destruct (negb _); [cbn [existsb]; rewrite E|]; exact IH.
Qed.

Lemma loaded_or_persisted (i : jsstring) (st : store) :
  existsb (has_id i) (DEFAULT_MODELS st)
  || existsb (has_id i)
       (match models (loadKeysDB st) with Some r => deref st r | None => [] end)
  = existsb (has_id i) (DEFAULT_MODELS st)
    || existsb (has_id i) (persisted_models st).
Proof.
  rewrite RegistryFacts.loaded_models. unfold persisted_models.
  destruct (disk st) as [| |r]; try reflexivity;
    cbn [existsb]; rewrite orb_false_r; apply orb_diag.
Qed.

Lemma existsb_other_filter (a i : jsstring) (l : list Model) :
  a <> i ->
  existsb (has_id a) (filter (fun m => negb (has_id i m)) l)
  = existsb (has_id a) l.
Proof.
  intros Hne. induction l as [|m l IH]; [reflexivity|]. cbn [filter existsb].
  destruct (has_id i m) eqn:E; cbn [negb].
  - rewrite IH. unfold has_id in *. apply JsFacts.eqb_eq in E.
    assert (F : eqb (id m) a = false) by (apply JsFacts.eqb_neq; congruence).
    now rewrite F.
  - cbn [existsb]. now rewrite IH.
Qed.

(** A write keeps the invariant when the model it makes active is in the
    list it stores or among the built-ins. *)
Lemma listed_after_save (st : store) (ks : option (list (jsstring * jsstring)))
    (ms : option models_ref) (a : option jsstring) :
  active_is_listed st = true ->
  (forall c a', a = Some (c :: a') ->
     existsb (has_id (c :: a')) (DEFAULT_MODELS st)
     || existsb (has_id (c :: a'))
          (match ms with Some r => deref st r | None => [] end) = true) ->
  active_is_listed (snd (saveKeysDB st (mkDb ks ms a))) = true.
Proof.
  intros Hst Ha. unfold saveKeysDB. destruct (writable st); [|exact Hst].
  cbn [snd keys models activeModel].
  unfold active_is_listed in *. apply andb_true_iff in Hst as [_ Hm].
  rewrite listed_ids. cbn [DEFAULT_MODELS]. rewrite Hm, andb_true_r.
  unfold getActiveModel, persisted_models, loadKeysDB.
  cbn [disk p_models p_activeModel activeModel].
  assert (E : match option_map (deref st) ms with Some l => l | None => [] end
              = match ms with Some r => deref st r | None => [] end)
    by (destruct ms; reflexivity).
  rewrite E. destruct a as [[|c a']|].
  - now rewrite Hm.
  - now apply Ha.
  - now rewrite Hm.
Qed.

(** What the invariant says about a stored active model. *)
Lemma listed_active (st : store) (c : N) (a : jsstring) :
  active_is_listed st = true ->
  activeModel (loadKeysDB st) = Some (c :: a) ->
  existsb (has_id (c :: a)) (DEFAULT_MODELS st)
  || existsb (has_id (c :: a))
       (match models (loadKeysDB st) with Some r => deref st r | None => [] end)
  = true.
Proof.
  intros Hst Ha. unfold active_is_listed in Hst.
  apply andb_true_iff in Hst as [Hl _]. rewrite listed_ids in Hl.
  unfold getActiveModel in Hl. rewrite Ha in Hl.
  now rewrite loaded_or_persisted.
Qed.

(** A longer array of built-ins keeps the invariant. *)
Lemma listed_more_builtins (st : store) (m : Model) :
  active_is_listed st = true ->
  active_is_listed (mkStore (DEFAULT_MODELS st ++ [m]) (disk st) (writable st)) = true.
Proof.
  unfold active_is_listed. intros H. apply andb_true_iff in H as [Hl Hm].
  rewrite listed_ids in *. cbn [DEFAULT_MODELS].
  change (getActiveModel (mkStore (DEFAULT_MODELS st ++ [m]) (disk st) (writable st)))
    with (getActiveModel st).
  change (persisted_models (mkStore (DEFAULT_MODELS st ++ [m]) (disk st) (writable st)))
    with (persisted_models st).
  rewrite !existsb_app, Hm. cbn [orb]. rewrite andb_true_r.
  apply orb_true_iff in Hl as [Hl|Hl]; rewrite Hl; [reflexivity|].
  now rewrite !orb_true_r.
Qed.

End ListedFacts.

Section Listed.

Import AiKeysManager.

(** X27: the active model stays in the catalog.  If the model that
    [getActiveModel] returns is one of the models that [getAllKeys] lists
    (and the fallback id gpt-5-mini is a built-in), this is still so after
    [setActiveModel], [addModel], [deleteModel], [saveApiKey] and
    [deleteApiKey], whatever their arguments and whether they succeed, throw
    or fail to write the file. *)
Theorem active_model_stays_listed
    (encryptForStorage : jsstring -> outcome jsstring)
    (st : store) (modelId provider apiKey : jsstring) (m : Model) :
  active_is_listed st = true ->
  active_is_listed (snd (setActiveModel st modelId)) = true
  /\ active_is_listed (snd (addModel st m)) = true
  /\ active_is_listed (snd (deleteModel st modelId)) = true
  /\ active_is_listed (snd (saveApiKey encryptForStorage st provider apiKey)) = true
  /\ active_is_listed (snd (deleteApiKey st provider)) = true.
Proof.
  intros Hst. split; [|split; [|split; [|split]]].
  - unfold setActiveModel.
    destruct (existsb (has_id modelId) _) eqn:E; cbn [negb]; [|exact Hst].
    pose proof (@ListedFacts.listed_after_save st (keys (loadKeysDB st))
                  (models (loadKeysDB st)) (Some modelId) Hst) as H.
    destruct (saveKeysDB st _) as [ok st']. cbn [snd] in *. apply H.
    intros c a' Ha. injection Ha as Ha. subst modelId.
    destruct (models (loadKeysDB st)); rewrite E; [apply orb_true_r|reflexivity].
  - unfold addModel.
    destruct (id m) as [|ci i] eqn:Hi; [exact Hst|].
    destruct (name m); [exact Hst|].
    destruct (AiKeysManager.provider m); [exact Hst|].
    destruct (existsb _ _); [exact Hst|].
    destruct (models (loadKeysDB st)) as [[|l]|] eqn:M.
    + pose proof (@ListedFacts.listed_after_save
                    (mkStore (DEFAULT_MODELS st ++ [m]) (disk st) (writable st))
                    (keys (loadKeysDB st)) (Some Shared) (activeModel (loadKeysDB st))
                    (@ListedFacts.listed_more_builtins st m Hst)) as H.
      destruct (saveKeysDB _ _) as [ok st']. cbn [snd] in *. apply H.
      intros c a' Ha. pose proof (@ListedFacts.listed_active st c a' Hst Ha) as Hl.
      rewrite M in Hl. cbn [deref existsb] in Hl.
      rewrite ?orb_diag, ?orb_false_r in Hl.
      cbn [deref DEFAULT_MODELS]. rewrite existsb_app, Hl. reflexivity.
    + pose proof (@ListedFacts.listed_after_save st (keys (loadKeysDB st))
                    (Some (Own (l ++ [m]))) (activeModel (loadKeysDB st)) Hst) as H.
      destruct (saveKeysDB st _) as [ok st']. cbn [snd] in *. apply H.
      intros c a' Ha. pose proof (@ListedFacts.listed_active st c a' Hst Ha) as Hl.
      rewrite M in Hl. cbn [deref] in *. rewrite existsb_app.
      apply orb_true_iff in Hl as [Hl|Hl]; rewrite Hl; [reflexivity|].
      cbn [orb]. apply orb_true_r.
    + pose proof (@ListedFacts.listed_after_save
                    (mkStore (DEFAULT_MODELS st ++ [m]) (disk st) (writable st))
                    (keys (loadKeysDB st)) (Some Shared) (activeModel (loadKeysDB st))
                    (@ListedFacts.listed_more_builtins st m Hst)) as H.
      destruct (saveKeysDB _ _) as [ok st']. cbn [snd] in *. apply H.
      intros c a' Ha. pose proof (@ListedFacts.listed_active st c a' Hst Ha) as Hl.
      rewrite M in Hl. cbn [deref existsb] in Hl.
      rewrite ?orb_diag, ?orb_false_r in Hl.
      cbn [deref DEFAULT_MODELS]. rewrite existsb_app, Hl. reflexivity.
  - unfold deleteModel.
    destruct (existsb (has_id modelId) (DEFAULT_MODELS st)) eqn:D; [exact Hst|].
    destruct (models (loadKeysDB st)) as [r|] eqn:M; [|exact Hst].
    match goal with |- context [saveKeysDB st (mkDb ?k ?ms ?a)] =>
      pose proof (@ListedFacts.listed_after_save st k ms a Hst) as H end.
    destruct (saveKeysDB st _) as [ok st']. cbn [snd] in *. apply H.
    intros c a' Ha. cbn [deref].
    destruct (activeModel (loadKeysDB st)) as [a|] eqn:A; [|discriminate].
    destruct (eqb a modelId) eqn:E.
    + assert (Hg : c :: a' = lit "gpt-5-mini") by congruence. rewrite Hg.
      unfold active_is_listed in Hst. apply andb_true_iff in Hst as [_ Hm].
      now rewrite Hm.
    + injection Ha as Ha. subst a. apply JsFacts.eqb_neq in E.
      pose proof (@ListedFacts.listed_active st c a' Hst A) as Hl. rewrite M in Hl.
      now rewrite ListedFacts.existsb_other_filter.
  - unfold saveApiKey.
    destruct apiKey; [exact Hst|]. destruct provider; [exact Hst|].
    destruct (encryptForStorage _); [|exact Hst].
    match goal with |- context [saveKeysDB st (mkDb ?k ?ms ?a)] =>
      pose proof (@ListedFacts.listed_after_save st k ms a Hst) as H end.
    destruct (saveKeysDB st _) as [[|] st']; cbn [snd] in *; apply H;
      intros c a' Ha; exact (@ListedFacts.listed_active st c a' Hst Ha).
  - unfold deleteApiKey.
    destruct (keys (loadKeysDB st)); [|exact Hst].
    destruct (present provider _); [|exact Hst].
    apply ListedFacts.listed_after_save; [exact Hst|].
    intros c a' Ha. exact (@ListedFacts.listed_active st c a' Hst Ha).
Qed.

(** X27 on a file whose active model is a custom one: deleting that model
    makes the fallback active, and it is listed. *)
Lemma active_model_stays_listed_witness :
  active_is_listed stale = true
  /\ getActiveModel (snd (deleteModel stale (lit "my-model"))) = lit "gpt-5-mini"
  /\ active_is_listed (snd (deleteModel stale (lit "my-model"))) = true.
Proof.
  split; [reflexivity|]. split; [reflexivity|].
  apply (active_model_stays_listed (fun k => Returned k) stale (lit "my-model")
           (lit "openai") (lit "sk-test") (model "x" "X" "openai")).
  reflexivity.
Defined.

End Listed.


(* ================================================================== *)
(** * The order of the extractors *)
(* ================================================================== *)

Module OrderFacts.

Import Regex Validation Server RegexFacts RecoveryFacts.

(** What the [catch] of [JSON.parse] leaves in [result]. *)
Lemma extractFromText_cases (aiResponse : jsstring) :
  extractFromText aiResponse = JObj []
  \/ exists q, extractFromText aiResponse = JObj [(lit "question", JStr q)].
Proof.
  unfold extractFromText.
  destruct (group1 (or_match _ _)) as [q|]; [right; now exists q|].
  destruct (group1 (exec re_loose aiResponse)) as [q|]; [right; now eexists|now left].
Qed.

Lemma blank_trim (s : jsstring) : blank (trim s) = blank s.
Proof. unfold blank. now rewrite ContractFacts.trim_trim. Qed.

(** In the loop the first pattern that matches decides. *)
Lemma firstPattern_first (before after : list regex) (p : regex)
    (aiResponse question g : jsstring) :
  (forall p', In p' before -> group1 (exec p' aiResponse) = None) ->
  group1 (exec p aiResponse) = Some g ->
  firstPattern (before ++ p :: after) aiResponse question = trim g.
Proof.
  intros Hb Hp. induction before as [|b before IH]; cbn [app firstPattern].
  - now rewrite Hp.
  - rewrite (Hb b) by now left. apply IH. intros p' Hin. apply Hb. now right.
Qed.

(** A reply that is no JSON and from which the [catch] extracts nothing, or
    a blank text, goes through the loop. *)
Lemma response_of_patterns (x : N) (t : jsstring) (modelToUse fallback : jsstring) :
  (forall q, get (lit "question") (extractFromText (x :: t)) = Some (JStr q) ->
             blank q = true) ->
  exists question,
    recovered (firstQuestionResponse (Some (x :: t)) SyntaxError modelToUse fallback)
    = if blank (firstPattern questionPatterns (x :: t) question) then None
      else Some (trim (firstPattern questionPatterns (x :: t) question)).
Proof.
  intros H. unfold firstQuestionResponse. cbn [or_empty or_default].
  destruct (extractFromText_cases (x :: t)) as [E|[q E]]; rewrite E in *.
  - exists []. cbn [get field or_value truthy].
    destruct (blank (firstPattern questionPatterns (x :: t) [])); reflexivity.
  - pose proof (H q) as Hq. cbn [get field] in Hq. rewrite JsFacts.eqb_refl in Hq.
    specialize (Hq eq_refl). exists q.
    destruct q as [|c q].
    + cbn [get field or_value truthy]. rewrite JsFacts.eqb_refl.
      cbn [or_value truthy].
      change (eqb (lit "question") (lit "Question")) with false.
      change (eqb (lit "question") (lit "questionText")) with false.
      change (eqb (lit "question") (lit "text")) with false.
      cbn [or_value truthy].
      destruct (blank (firstPattern questionPatterns (x :: t) [])); reflexivity.
    + cbn [get field or_value truthy]. rewrite JsFacts.eqb_refl.
      cbn [or_value truthy]. rewrite Hq.
      destruct (blank (firstPattern questionPatterns (x :: t) (c :: q))); reflexivity.
Qed.

End OrderFacts.

Section FirstQuestion.

Import Regex Validation Server RecoveryFacts.

(** C9 fails as stated: a reply that is not JSON and contains the labelled
    text, after a sentence that uses the word question, gives the text that
    follows that first use of the word. *)
Lemma recovery_takes_first_label :
  includes LABELLED (lit "My first question: " ++ LABELLED) = true
  /\ recovered (firstQuestionResponse (Some (lit "My first question: " ++ LABELLED))
                  SyntaxError (lit "gpt-4o-mini") (lit "gpt-4o-mini"))
     = Some (lit "question:")
  /\ recovered (firstQuestionResponse (Some (lit "My first question: " ++ LABELLED))
                  SyntaxError (lit "gpt-4o-mini") (lit "gpt-4o-mini"))
     <> Some QUESTION_TEXT.
Proof.
  assert (E : recovered (firstQuestionResponse
                (Some (lit "My first question: " ++ LABELLED))
                SyntaxError (lit "gpt-4o-mini") (lit "gpt-4o-mini"))
              = Some (lit "question:")) by (vm_compute; reflexivity).
  split; [vm_compute; reflexivity|]. split; [exact E|].
  rewrite E. discriminate.
Qed.

(** C9, amended.  For a reply that is not JSON, the extractors are tried in
    a fixed order and the first that matches decides, at its leftmost match:
    the two patterns with the quoted label, then the pattern with the bare
    label, and, when these give nothing or a blank text, the three patterns
    of the loop in their order.  So the labelled text is recovered exactly
    when no extractor matches before it: when the patterns with the quoted
    label match nowhere in the reply and the pattern with the bare label
    matches nowhere before the labelled text (as when the reply has no
    quoted label and does not use the word question before the labelled
    text).  When no pattern yields a non-empty group the response is the
    error that no question was generated, with status 500; and a successful
    response never has an empty question. *)
Theorem recovery_of_labelled_question
    (pre post : jsstring) (x : N) (t : jsstring) (content : option jsstring)
    (parse : parse_outcome) (modelToUse fallback q : jsstring) :
  let response s := firstQuestionResponse (Some s) SyntaxError modelToUse fallback in
  let quoted s := group1 (or_match (exec re_quoted_tight s) (exec re_quoted s)) in
  (quoted (pre ++ LABELLED ++ post) = None ->
   (forall i, (i < List.length pre)%nat ->
              match_here re_loose (skipn i (pre ++ LABELLED ++ post)) = None) ->
   recovered (response (pre ++ LABELLED ++ post)) = Some QUESTION_TEXT)
  /\ (includes quoted_label (pre ++ LABELLED ++ post) = false ->
      names_question pre = false ->
      recovered (response (pre ++ LABELLED ++ post)) = Some QUESTION_TEXT)
  /\ (forall g, quoted (x :: t) = Some g -> blank g = false ->
                recovered (response (x :: t)) = Some (trim g))
  /\ (forall g, quoted (x :: t) = None ->
                group1 (exec re_loose (x :: t)) = Some g -> blank g = false ->
                recovered (response (x :: t)) = Some (trim g))
  /\ (forall before p after g,
        (forall g', quoted (x :: t) = Some g' -> blank g' = true) ->
        (quoted (x :: t) = None ->
         forall g', group1 (exec re_loose (x :: t)) = Some g' -> blank g' = true) ->
        questionPatterns = before ++ p :: after ->
        (forall p', In p' before -> group1 (exec p' (x :: t)) = None) ->
        group1 (exec p (x :: t)) = Some g ->
        recovered (response (x :: t)) = if blank g then None else Some (trim g))
  /\ ((forall r, In r extractors ->
         group1 (exec r (or_default (or_empty content) (lit "{}"))) = None) ->
      status_of (firstQuestionResponse content SyntaxError modelToUse fallback)
      = Some 500
      /\ response_field (lit "error")
           (firstQuestionResponse content SyntaxError modelToUse fallback)
         = Some (JStr NO_QUESTION))
  /\ (recovered (firstQuestionResponse content parse modelToUse fallback) = Some q ->
      q <> []).
Proof.
  cbv zeta.
  assert (Hlabelled :
    group1 (or_match (exec re_quoted_tight (pre ++ LABELLED ++ post))
                     (exec re_quoted (pre ++ LABELLED ++ post))) = None ->
    (forall i, (i < List.length pre)%nat ->
               match_here re_loose (skipn i (pre ++ LABELLED ++ post)) = None) ->
    recovered (firstQuestionResponse (Some (pre ++ LABELLED ++ post)) SyntaxError
                 modelToUse fallback) = Some QUESTION_TEXT).
  { intros Hq Hl. destruct (reply_not_empty pre post) as [y [s E]].
    pose proof (@extract_labelled pre post Hq Hl) as Hx.
    rewrite E in Hx. rewrite E.
    rewrite (@response_of_extracted y s QUESTION_TEXT modelToUse fallback Hx);
      reflexivity. }
  split; [exact Hlabelled|]. split; [|split; [|split; [|split; [|split]]]].
  - intros Hq Hpre. apply Hlabelled.
    + destruct (quoted_absent _ Hq) as [-> ->]. reflexivity.
    + intros i Hi. apply loose_here. now apply occ_in_pre.
  - intros g Hg Hb. apply response_of_extracted; [|exact Hb].
    unfold extractFromText. now rewrite Hg.
  - intros g Hq Hg Hb.
    rewrite <- (ContractFacts.trim_trim g).
    apply response_of_extracted; [|now rewrite OrderFacts.blank_trim].
    unfold extractFromText. now rewrite Hq, Hg.
  - intros before p after g Hquoted Hloose Hp Hbefore Hg.
    assert (Hblank : forall q0,
              get (lit "question") (extractFromText (x :: t)) = Some (JStr q0) ->
              blank q0 = true).
    { intros q0. unfold extractFromText.
      destruct (group1 (or_match (exec re_quoted_tight (x :: t)) _))
        as [g'|] eqn:Eq.
      - cbn [get field]. rewrite JsFacts.eqb_refl. intros H. injection H as <-.
        now apply Hquoted.
      - destruct (group1 (exec re_loose (x :: t))) as [g'|] eqn:El;
          [|discriminate].
        cbn [get field]. rewrite JsFacts.eqb_refl. intros H. injection H as <-.
        rewrite OrderFacts.blank_trim. now apply (Hloose eq_refl). }
    destruct (@OrderFacts.response_of_patterns x t modelToUse fallback Hblank)
      as [question E].
    etransitivity; [exact E|]. rewrite Hp.
    rewrite (@OrderFacts.firstPattern_first before after p (x :: t) question g
               Hbefore Hg).
    now rewrite OrderFacts.blank_trim, ContractFacts.trim_trim.
  - intros H. apply CascadeFacts.nothing_extracted in H as [H1 H2].
    unfold firstQuestionResponse.
    destruct (or_empty content) as [|c0 cs] eqn:Ec.
    + cbn [or_default] in *. cbn. split; reflexivity.
    + cbn [or_default] in *. rewrite H1. cbn [get field or_value truthy].
      rewrite H2. split; reflexivity.
  - apply CascadeFacts.recovered_nonempty.
Qed.

(** C9, amended, on a reply that uses the word question after the labelled
    text, on a reply without any label, and on the labelled text alone. *)
Lemma recovery_of_labelled_question_witness :
  recovered (firstQuestionResponse
               (Some (lit "Sure! " ++ LABELLED ++ lit " Is that a fair question to ask?"))
               SyntaxError (lit "gpt-4o") (lit "gpt-4o-mini"))
  = Some QUESTION_TEXT
  /\ status_of (firstQuestionResponse (Some (lit "I cannot help with that."))
                  SyntaxError (lit "gpt-4o") (lit "gpt-4o-mini")) = Some 500
  /\ QUESTION_TEXT <> [].
Proof.
  split; [|split].
  - apply (proj1 (proj2 (recovery_of_labelled_question (lit "Sure! ")
                    (lit " Is that a fair question to ask?") 0 []
                    None SyntaxError (lit "gpt-4o") (lit "gpt-4o-mini") [])));
      reflexivity.
  - apply (proj1 (proj2 (proj2 (proj2 (proj2 (proj2
             (recovery_of_labelled_question [] [] 0 []
                (Some (lit "I cannot help with that.")) SyntaxError
                (lit "gpt-4o") (lit "gpt-4o-mini") []))))))).
    intros r Hr. simpl in Hr.
    repeat (destruct Hr as [<-|Hr]; [vm_compute; reflexivity|]). contradiction.
  - apply (proj2 (proj2 (proj2 (proj2 (proj2 (proj2
             (recovery_of_labelled_question [] [] 0 [] (Some LABELLED)
                SyntaxError (lit "gpt-4o") (lit "gpt-4o-mini") QUESTION_TEXT))))))).
    vm_compute. reflexivity.
Defined.

End FirstQuestion.
